(** * homebridge-indigo: a shallow embedding of the accessory
      synchronisation engine (index.js) and its properties.

    The JavaScript source is callback based.  The embedding runs every
    continuation eagerly: a function that "invokes callback(error, value)"
    becomes a computation that returns what the callback received, and the
    effects the code has on the outside (requests pushed on the request
    queue, log lines, values pushed into HomeKit characteristics, timers,
    HTTP status codes) are recorded in a trace, oldest first.

    JavaScript numbers are modelled by exact rationals ([Q]) and one NaN;
    the infinities and binary rounding are outside the model. *)

From Stdlib Require Import ZArith QArith Qround Qabs Lia Lqa List Ascii String.
From Stdlib Require Import Sorting.Sorted Sorting.Permutation.
From stdpp Require Import base option strings list gmap pretty.
From Corelib Require PrimFloat.

Set Warnings "-register-all,-inexact-float".

Open Scope string_scope.
Open Scope list_scope.
Open Scope Z_scope.

(* ===================================================================== *)
(** ** JavaScript values *)
(* ===================================================================== *)

(** What [JSON.parse] can produce, plus [undefined] and the NaN that
    arithmetic on a non-number yields.  The fields of an object are kept in
    the order a [for ... in] loop enumerates them. *)
Inductive JsValue : Type :=
| JUndefined
| JNull
| JBool (b : bool)
| JNum (q : Q)
| JNaN
| JStr (s : string)
| JArr (elems : list JsValue)
| JObj (fields : list (string * JsValue)).

(** Built-ins of the JavaScript engine that the program calls and whose
    full definition is outside the repository. *)
Class JsBuiltins := {
  (** [JSON.parse]: [None] when it throws a SyntaxError. *)
  JSON_parse : string -> option JsValue;
  (** ToNumber on a string: [None] for NaN. *)
  StringToNumber : string -> option Q;
  (** ToString on a number. *)
  NumberToString : Q -> string
}.

(** ToBoolean. *)
Definition truthy (v : JsValue) : bool :=
  match v with
  | JUndefined | JNull | JNaN => false
  | JBool b => b
  | JNum q => negb (Qeq_bool q 0)
  | JStr s => negb (String.eqb s EmptyString)
  | JArr _ | JObj _ => true
  end.

(** Property read [o.k] / [o[k]] on a parsed value that is not null:
    [undefined] when the property is missing. *)
Fixpoint assoc_get (k : string) (l : list (string * JsValue)) : JsValue :=
  match l with
  | [] => JUndefined
  | (k', v) :: l' => if String.eqb k k' then v else assoc_get k l'
  end.

(** [o[k] = v] on an object: replaces in place or appends a new field. *)
Fixpoint assoc_set (k : string) (v : JsValue) (l : list (string * JsValue))
  : list (string * JsValue) :=
  match l with
  | [] => [(k, v)]
  | (k', v') :: l' =>
      if String.eqb k k' then (k, v) :: l' else (k', v') :: assoc_set k v l'
  end.

Definition get_prop (v : JsValue) (k : string) : JsValue :=
  match v with
  | JObj fields => assoc_get k fields
  | _ => JUndefined
  end.

Section Builtins.
Context `{JsBuiltins}.

(** [String(v)]; the elements of an array are joined with commas. *)
Fixpoint ToString (v : JsValue) : string :=
  match v with
  | JUndefined => "undefined"
  | JNull => "null"
  | JBool true => "true"
  | JBool false => "false"
  | JNum q => NumberToString q
  | JNaN => "NaN"
  | JStr s => s
  | JArr l =>
      String.concat ","
        (map (fun e => match e with
                       | JUndefined | JNull => EmptyString
                       | _ => ToString e
                       end) l)
  | JObj _ => "[object Object]"
  end.

(** ToPrimitive: an array or an object stands for its string. *)
Definition ToPrimitive (v : JsValue) : JsValue :=
  match v with
  | JArr _ | JObj _ => JStr (ToString v)
  | _ => v
  end.

(** ToNumber ([None] is NaN). *)
Definition ToNumber (v : JsValue) : option Q :=
  match ToPrimitive v with
  | JNull => Some 0%Q
  | JBool b => Some (if b then 1%Q else 0%Q)
  | JNum q => Some q
  | JStr s => StringToNumber s
  | _ => None
  end.

Definition of_number (o : option Q) : JsValue :=
  match o with
  | Some q => JNum (Qred q)
  | None => JNaN
  end.

Definition arith (op : Q -> Q -> Q) (a b : JsValue) : JsValue :=
  match ToNumber a, ToNumber b with
  | Some x, Some y => of_number (Some (op x y))
  | _, _ => JNaN
  end.

(** [a * b], [a / b] for a non-zero constant [b], [a - b]. *)
Definition js_mul := arith Qmult.
Definition js_div := arith Qdiv.
Definition js_sub := arith Qminus.

(** [a + b]: concatenation as soon as one side is a string, an array or
    an object. *)
Definition js_add (a b : JsValue) : JsValue :=
  match ToPrimitive a, ToPrimitive b with
  | JStr _, _ | _, JStr _ => JStr (ToString a +:+ ToString b)
  | _, _ => arith Qplus a b
  end.

(** [Math.round]: the nearest integer, halves rounded up. *)
Definition Math_round (a : JsValue) : JsValue :=
  match ToNumber a with
  | Some x => JNum (inject_Z (Qfloor (x + (1 # 2))))
  | None => JNaN
  end.

(** Relational comparison against a number: false as soon as one side is
    NaN. *)
Definition rel (op : Q -> Q -> bool) (a b : JsValue) : bool :=
  match ToNumber a, ToNumber b with
  | Some x, Some y => op x y
  | _, _ => false
  end.

Definition js_le := rel Qle_bool.
Definition js_ge := rel (fun x y => Qle_bool y x).
Definition js_gt := rel (fun x y => negb (Qle_bool x y)).

Definition num_eq (a b : option Q) : bool :=
  match a, b with
  | Some x, Some y => Qeq_bool x y
  | _, _ => false
  end.

(** The abstract equality comparison [a == b].  Two arrays or objects are
    compared as references, and a freshly parsed one is never the same
    reference as another value; against a primitive value an array or
    object is compared through its string. *)
Definition loose_eq (a b : JsValue) : bool :=
  match a, b with
  | (JArr _ | JObj _), (JArr _ | JObj _) => false
  | _, _ =>
      match ToPrimitive a, ToPrimitive b with
      | JUndefined, (JUndefined | JNull) | JNull, (JUndefined | JNull) => true
      | JUndefined, _ | JNull, _ | _, JUndefined | _, JNull => false
      | JNaN, _ | _, JNaN => false
      | JStr s, JStr t => String.eqb s t
      | x, y => num_eq (ToNumber x) (ToNumber y)
      end
  end.

(** The strict equality comparison [a === b]; arrays and objects are
    never the same reference. *)
Definition strict_eq (a b : JsValue) : bool :=
  match a, b with
  | JUndefined, JUndefined | JNull, JNull => true
  | JBool x, JBool y => Bool.eqb x y
  | JNum x, JNum y => Qeq_bool x y
  | JStr s, JStr t => String.eqb s t
  | _, _ => false
  end.

End Builtins.

(* ===================================================================== *)
(** ** String primitives used by the response repair *)
(* ===================================================================== *)

(** [s.indexOf(c)] for a one-character needle, counting from [i]. *)
Fixpoint indexOf_from (c : ascii) (s : string) (i : Z) : Z :=
  match s with
  | EmptyString => -1
  | String a s' => if Ascii.eqb a c then i else indexOf_from c s' (i + 1)
  end.

Definition indexOf (s : string) (c : ascii) : Z := indexOf_from c s 0.

(** [s.substr(start, len)] and [s.substr(start)], for [start >= 0] (the
    only way the program calls them). *)
Definition substr (s : string) (start len : Z) : string :=
  substring (Z.to_nat start) (Z.to_nat len) s.

Definition substr_from (s : string) (start : Z) : string :=
  substring (Z.to_nat start) (String.length s - Z.to_nat start)%nat s.

(** The [jsonFixer] passed by [discoverAccessories]: Indigo has a bug that
    puts an extra comma at the beginning of the returned array. *)
Definition jsonFixer (body : string) : string :=
  let firstComma := indexOf body "," in
  if (0 <? firstComma) && (firstComma <? 5)
  then substr body 0 firstComma +:+ substr_from body (firstComma + 1)
  else body.

(** Test bodies are written with ['] where the JSON text has a double
    quote. *)
Fixpoint json_text (s : string) : string :=
  match s with
  | EmptyString => EmptyString
  | String a s' =>
      String (if Ascii.eqb a "'" then "034"%char else a) (json_text s')
  end.

(* ===================================================================== *)
(** ** Effects *)
(* ===================================================================== *)

(** The [auth] object of the platform. *)
Record Auth := {
  user : string;
  pass : string;
  sendImmediately : bool
}.

(** The [options] object [indigoRequest] builds for the request library. *)
Record Options := {
  url : string;
  method : string;
  followRedirect : bool;
  redirects : list string;
  auth : option Auth;
  qs : option (list (string * JsValue))
}.

(** What the request library hands to its callback: [(error, response,
    body)].  A transport error is an Error object, here its message. *)
Record Response := {
  error : option string;
  body : string
}.

(** The HomeKit characteristics the accessories expose. *)
Inductive Characteristic :=
| On | LockCurrentState | LockTargetState
| CurrentPosition | PositionState | TargetPosition
| CurrentDoorState | TargetDoorState | ObstructionDetected
| Brightness | RotationSpeed
| CurrentHeatingCoolingState | TargetHeatingCoolingState
| CurrentTemperature | TargetTemperature | TemperatureDisplayUnits
| CoolingThresholdTemperature | HeatingThresholdTemperature
| CurrentRelativeHumidity.

Inductive Event :=
(** [this.log(fmt, args...)] *)
| Log (fmt : string) (args : list JsValue)
(** [this.requestQueue.push(options, callback)] *)
| Queued (o : Options)
(** [characteristic.setValue(v, undefined, context)] *)
| SetValue (c : Characteristic) (v context : JsValue)
(** [setTimeout(function () { characteristic.setValue(v, undefined,
    context) }, ms)] *)
| SetTimeout (ms : Z) (c : Characteristic) (v context : JsValue)
(** [response.sendStatus(code)] *)
| SendStatus (code : Z).

Definition requests (tr : list Event) : list Options :=
  omap (fun e => match e with Queued o => Some o | _ => None end) tr.

(** The state of a computation: the object [this] and the trace so far. *)
Record St (S : Type) := mkSt { self : S; trace : list Event }.
Arguments mkSt {S} _ _.
Arguments self {S} _.
Arguments trace {S} _.

Inductive Completion (A : Type) :=
| Normal (a : A)
| Throw (e : string).
Arguments Normal {A} _.
Arguments Throw {A} _.

(** A computation on an object of type [S]: it may mutate the object,
    extends the trace, and either returns or throws. *)
Definition M (S A : Type) : Type := St S -> Completion A * St S.

Definition ret {S A} (a : A) : M S A := fun st => (Normal a, st).

Definition bind {S A B} (m : M S A) (k : A -> M S B) : M S B :=
  fun st =>
    match m st with
    | (Normal a, st') => k a st'
    | (Throw e, st') => (Throw e, st')
    end.

Notation "x <- c1 ;; c2" := (bind c1 (fun x => c2))
  (at level 100, c1 at next level, right associativity).
Notation "c1 ;; c2" := (bind c1 (fun _ => c2))
  (at level 100, right associativity).

Definition throw {S A} (e : string) : M S A := fun st => (Throw e, st).
Definition this {S} : M S S := fun st => (Normal (self st), st).
Definition modify {S} (f : S -> S) : M S unit :=
  fun st => (Normal tt, mkSt (f (self st)) (trace st)).
Definition emit {S} (e : Event) : M S unit :=
  fun st => (Normal tt, mkSt (self st) (trace st ++ [e])).
Definition history {S} : M S (list Options) :=
  fun st => (Normal (requests (trace st)), st).

(** [for (x of l) body(x)], in order. *)
Fixpoint for_each {S A} (l : list A) (body : A -> M S unit) : M S unit :=
  match l with
  | [] => ret tt
  | x :: l' => body x ;; for_each l' body
  end.

(** What a callback of the shape [callback(error, value)] received:
    nothing at all, an error, or a value. *)
Inductive Reply (A : Type) :=
| NoReply
| Failure (e : string)
| Success (a : A).
Arguments NoReply {A}.
Arguments Failure {A} _.
Arguments Success {A} _.

(* ===================================================================== *)
(** ** The platform and the generic accessory *)
(* ===================================================================== *)

(** The fields the [IndigoPlatform] constructor computes from the
    configuration; they never change afterwards.  An identifier list that
    the configuration leaves out is [None]. *)
Record Config := {
  path : string;
  baseURL : string;
  platform_auth : option Auth;
  includeActions : JsValue;
  includeIds : option (list JsValue);
  excludeIds : option (list JsValue);
  treatAsSwitchIds : option (list JsValue);
  treatAsLockIds : option (list JsValue);
  treatAsDoorIds : option (list JsValue);
  treatAsGarageDoorIds : option (list JsValue);
  treatAsWindowIds : option (list JsValue);
  treatAsWindowCoveringIds : option (list JsValue);
  config_thermostatsInCelsius : JsValue;
  accessoryNamePrefix : string
}.

(** The accessory classes. *)
Inductive Variant :=
| Switch | Lock | Door | Window | WindowCovering | GarageDoor
| Light | Fan | Thermostat | Action.

(** An accessory object.  [props] holds the own properties
    [updateFromJSON] copies from the server's JSON ([isOn], [brightness],
    [typeSupportsOnOff], ...).  One of them may bear the name of an
    [update_] function of the class and then hides it; the server's
    property names are taken to be distinct from the other members of the
    object.  [dimAtConstruction] records whether the light constructor
    registered the Brightness handlers. *)
Record Accessory := {
  variant : Variant;
  platform : Config;
  deviceURL : string;
  name : string;
  props : gmap string JsValue;
  dimAtConstruction : bool;
  thermostatsInCelsius : JsValue;
  temperatureDisplayUnits : JsValue
}.

(** [this[k]] *)
Definition get (a : Accessory) (k : string) : JsValue :=
  default JUndefined (props a !! k).

(** [this[k] = v] *)
Definition set_prop (k : string) (v : JsValue) (a : Accessory) : Accessory :=
  {| variant := variant a; platform := platform a; deviceURL := deviceURL a;
     name := name a; props := <[k := v]> (props a);
     dimAtConstruction := dimAtConstruction a;
     thermostatsInCelsius := thermostatsInCelsius a;
     temperatureDisplayUnits := temperatureDisplayUnits a |}.

Definition set_name (n : string) (a : Accessory) : Accessory :=
  {| variant := variant a; platform := platform a; deviceURL := deviceURL a;
     name := n; props := props a;
     dimAtConstruction := dimAtConstruction a;
     thermostatsInCelsius := thermostatsInCelsius a;
     temperatureDisplayUnits := temperatureDisplayUnits a |}.

Definition set_temperatureDisplayUnits (u : JsValue) (a : Accessory)
  : Accessory :=
  {| variant := variant a; platform := platform a; deviceURL := deviceURL a;
     name := name a; props := props a;
     dimAtConstruction := dimAtConstruction a;
     thermostatsInCelsius := thermostatsInCelsius a;
     temperatureDisplayUnits := u |}.

(** [IndigoAccessory.REFRESH_CONTEXT] *)
Definition REFRESH_CONTEXT : JsValue := JStr "refresh".

Definition nl : string := String "010"%char EmptyString.

(** [null] and [undefined], on which reading a property throws. *)
Definition nullish (json : JsValue) : bool :=
  match json with
  | JNull | JUndefined => true
  | _ => false
  end.

(** The own enumerable properties a [for (prop in json)] loop visits. *)
Definition enumerate (json : JsValue) : list (string * JsValue) :=
  match json with
  | JObj fields => fields
  | JArr l => imap (fun i v => (pretty i, v)) l
  | JStr s =>
      imap (fun i c => (pretty i, JStr (String c EmptyString)))
        (list_ascii_of_string s)
  | _ => []
  end.

(** Whether a parsed value has an own enumerable property [k]. *)
Definition has_own (json : JsValue) (k : string) : bool :=
  existsb (fun field => String.eqb (fst field) k) (enumerate json).

(** [json.hasOwnProperty(prop)] for a property the loop over [json]
    visits.  A field of the status that is itself called [hasOwnProperty]
    hides the method of [Object.prototype], and a parsed value cannot be
    called. *)
Definition hasOwnProperty {S} (json : JsValue) (prop : string) : M S bool :=
  if has_own json "hasOwnProperty" then throw "TypeError"
  else ret (has_own json prop).

(** The names of the [update_KEY] functions each class has on its
    prototype chain. *)
Definition update_functions (v : Variant) : list string :=
  match v with
  | Switch | Lock | GarageDoor => ["update_isOn"]
  | Door | Window | WindowCovering | Light =>
      ["update_isOn"; "update_brightness"]
  | Fan | Thermostat | Action => []
  end.

(** Constants of the HomeKit accessory library (hap-nodejs), which is not
    part of the repository. *)
Module HAP.
Module LockCurrentState.
Definition UNSECURED := JNum 0.
Definition SECURED := JNum 1.
End LockCurrentState.
Module LockTargetState.
Definition UNSECURED := JNum 0.
Definition SECURED := JNum 1.
End LockTargetState.
Module CurrentDoorState.
Definition OPEN := JNum 0.
Definition CLOSED := JNum 1.
End CurrentDoorState.
Module TargetDoorState.
Definition OPEN := JNum 0.
Definition CLOSED := JNum 1.
End TargetDoorState.
Module PositionState.
End PositionState.
Module CurrentHeatingCoolingState.
Definition OFF := JNum 0.
Definition HEAT := JNum 1.
Definition COOL := JNum 2.
End CurrentHeatingCoolingState.
Module TargetHeatingCoolingState.
Definition OFF := JNum 0.
Definition HEAT := JNum 1.
Definition COOL := JNum 2.
Definition AUTO := JNum 3.
End TargetHeatingCoolingState.
Module TemperatureDisplayUnits.
Definition CELSIUS := JNum 0.
Definition FAHRENHEIT := JNum 1.
End TemperatureDisplayUnits.
End HAP.

Section Engine.
Context `{JsBuiltins}.

(** The Indigo server: the response to the latest request of a history
    (oldest first). *)
Variable remote : list Options -> Response.

(** [IndigoPlatform.prototype.indigoRequest].  The queue worker logs the
    URL and hands the options to the request library. *)
Definition indigoRequest {S} (p : Config) (path method : string)
    (qs : option (list (string * JsValue))) : M S Response :=
  let options :=
    {| url := baseURL p +:+ path; method := method;
       followRedirect := false; redirects := [];
       auth := platform_auth p; qs := qs |} in
  emit (Queued options) ;;
  emit (Log "Indigo request: %s" [JStr (url options)]) ;;
  h <- history ;;
  ret (remote h).

(** [IndigoPlatform.prototype.indigoRequestJSON]: [inl msg] when the
    callback receives an error, [inr json] otherwise. *)
Definition indigoRequestJSON {S} (p : Config) (path method : string)
    (qs : option (list (string * JsValue)))
    (jsonFixer : option (string -> string)) : M S (string + JsValue) :=
  r <- indigoRequest p path method qs ;;
  match error r with
  | Some e =>
      let msg := "Error for Indigo request " +:+ path +:+ ": " +:+ e in
      emit (Log msg []) ;;
      ret (inl msg)
  | None =>
      let body := match jsonFixer with
                  | Some fixer => fixer (body r)
                  | None => body r
                  end in
      match JSON_parse body with
      | None =>
          let msg2 := "Error parsing Indigo response for " +:+ path +:+
                      nl +:+ "Exception: SyntaxError" +:+
                      nl +:+ "Response: " +:+ body in
          emit (Log msg2 []) ;;
          ret (inl msg2)
      | Some json => ret (inr json)
      end
  end.

(** [json[prop] != this[prop]].  An own property copied from an earlier
    status is compared by value.  A name that only the class knows, as one
    of its [update_] functions, yields that function, which differs from
    every parsed value (but for the string that spells out the function's
    source text, which no status is taken to hold); any other name yields
    [undefined]. *)
Definition differs (a : Accessory) (prop : string) (v : JsValue) : bool :=
  match props a !! prop with
  | Some cached => negb (loose_eq v cached)
  | None =>
      if existsb (String.eqb prop) (update_functions (variant a)) then true
      else negb (loose_eq v JUndefined)
  end.

(** The body of the [for (var prop in json)] loop of [updateFromJSON]. *)
Definition copy_prop (json : JsValue)
    (updateCallback : option (string -> JsValue -> M Accessory unit))
    (field : string * JsValue) : M Accessory unit :=
  let '(prop, v) := field in
  if negb (String.eqb prop "name") then
    own <- hasOwnProperty json prop ;;
    if own then
      a <- this ;;
      if differs a prop v then
        modify (set_prop prop v) ;;
        match updateCallback with
        | Some f => f prop v
        | None => ret tt
        end
      else ret tt
    else ret tt
  else ret tt.

(** [IndigoAccessory.prototype.updateFromJSON].  Reading [json.name] on
    [null] throws. *)
Definition updateFromJSON (json : JsValue)
    (updateCallback : option (string -> JsValue -> M Accessory unit))
  : M Accessory unit :=
  for_each (enumerate json) (copy_prop json updateCallback) ;;
  match json with
  | JNull | JUndefined => throw "TypeError"
  | _ =>
      let n := get_prop json "name" in
      if negb (strict_eq n JUndefined) then
        a <- this ;;
        modify (set_name (accessoryNamePrefix (platform a) +:+ ToString n))
      else ret tt
  end.

(** [IndigoAccessory.prototype.getStatus]: the error its callback
    receives, [None] for [undefined]. *)
Definition getStatus
    (updateCallback : option (string -> JsValue -> M Accessory unit))
  : M Accessory (option string) :=
  a <- this ;;
  r <- indigoRequestJSON (platform a) (deviceURL a) "GET" None None ;;
  match r with
  | inl error => ret (Some error)
  | inr json => updateFromJSON json updateCallback ;; ret None
  end.

(** [IndigoAccessory.prototype.updateStatus] *)
Definition updateStatus (qs : list (string * JsValue))
    (updateCallback : option (string -> JsValue -> M Accessory unit))
  : M Accessory (option string) :=
  a <- this ;;
  emit (Log "updateStatus of %s: %s" [JStr (name a); JObj qs]) ;;
  r <- indigoRequest (platform a) (deviceURL a) "PUT" (Some qs) ;;
  match error r with
  | Some e => ret (Some e)
  | None => getStatus updateCallback
  end.

Definition reply_of (r : option string) : Reply unit :=
  match r with
  | Some e => Failure e
  | None => Success tt
  end.

(** [IndigoAccessory.prototype.query] *)
Definition query (key : string) : M Accessory (Reply JsValue) :=
  error <- getStatus None ;;
  match error with
  | Some e => ret (Failure e)
  | None =>
      a <- this ;;
      emit (Log "%s: query(%s) => %s" [JStr (name a); JStr key; get a key]) ;;
      ret (Success (get a key))
  end.

(** [IndigoAccessory.prototype.getOnState] *)
Definition getOnState : M Accessory (Reply JsValue) :=
  a <- this ;;
  if truthy (get a "typeSupportsOnOff") then
    error <- getStatus None ;;
    match error with
    | Some e => ret (Failure e)
    | None =>
        a <- this ;;
        let onState := JBool (truthy (get a "isOn")) in
        emit (Log "%s: getOnState() => %s" [JStr (name a); onState]) ;;
        ret (Success onState)
    end
  else ret NoReply.

(** [IndigoAccessory.prototype.setOnState] *)
Definition setOnState (onState context : JsValue) : M Accessory (Reply unit) :=
  a <- this ;;
  emit (Log "%s: setOnState(%s)" [JStr (name a); onState]) ;;
  if loose_eq context REFRESH_CONTEXT then ret (Success tt)
  else if truthy (get a "typeSupportsOnOff") then
    r <- updateStatus [("isOn", if truthy onState then JNum 1 else JNum 0)]
           None ;;
    ret (reply_of r)
  else ret (Failure "Accessory does not support on/off").

(** *** Lock *)

(** [IndigoLockAccessory.prototype.getLockCurrentState] *)
Definition getLockCurrentState : M Accessory (Reply JsValue) :=
  a <- this ;;
  if truthy (get a "typeSupportsOnOff") then
    error <- getStatus None ;;
    match error with
    | Some e => ret (Failure e)
    | None =>
        a <- this ;;
        let lockState := if truthy (get a "isOn")
                         then HAP.LockCurrentState.SECURED
                         else HAP.LockCurrentState.UNSECURED in
        emit (Log "%s: getLockCurrentState() => %s"
                  [JStr (name a); lockState]) ;;
        ret (Success lockState)
    end
  else ret NoReply.

(** [IndigoLockAccessory.prototype.getLockTargetState] *)
Definition getLockTargetState : M Accessory (Reply JsValue) :=
  a <- this ;;
  if truthy (get a "typeSupportsOnOff") then
    error <- getStatus None ;;
    match error with
    | Some e => ret (Failure e)
    | None =>
        a <- this ;;
        let lockState := if truthy (get a "isOn")
                         then HAP.LockTargetState.SECURED
                         else HAP.LockTargetState.UNSECURED in
        emit (Log "%s: getLockTargetState() => %s"
                  [JStr (name a); lockState]) ;;
        ret (Success lockState)
    end
  else ret NoReply.

(** [IndigoLockAccessory.prototype.setLockTargetState] *)
Definition setLockTargetState (lockState context : JsValue)
  : M Accessory (Reply unit) :=
  a <- this ;;
  emit (Log "%s: setLockTargetState(%s)" [JStr (name a); lockState]) ;;
  if loose_eq context REFRESH_CONTEXT then ret (Success tt)
  else if truthy (get a "typeSupportsOnOff") then
    r <- updateStatus
           [("isOn", if loose_eq lockState HAP.LockTargetState.SECURED
                     then JNum 1 else JNum 0)] None ;;
    emit (SetTimeout 1000 LockCurrentState
            (if loose_eq lockState HAP.LockTargetState.SECURED
             then HAP.LockCurrentState.SECURED
             else HAP.LockCurrentState.UNSECURED)
            REFRESH_CONTEXT) ;;
    ret (reply_of r)
  else ret (Failure "Accessory does not support on/off").

(** *** Door, window and window covering *)

(** [IndigoPositionAccessory.prototype.getPosition] *)
Definition getPosition : M Accessory (Reply JsValue) :=
  a <- this ;;
  if truthy (get a "typeSupportsOnOff") || truthy (get a "typeSupportsDim")
  then
    error <- getStatus None ;;
    match error with
    | Some e => ret (Failure e)
    | None =>
        a <- this ;;
        let position := if truthy (get a "typeSupportsDim")
                        then get a "brightness"
                        else if truthy (get a "isOn") then JNum 100
                        else JNum 0 in
        emit (Log "%s: getPosition() => %s" [JStr (name a); position]) ;;
        ret (Success position)
    end
  else ret NoReply.


(** [IndigoPositionAccessory.prototype.setTargetPosition] *)
Definition setTargetPosition (position context : JsValue)
  : M Accessory (Reply unit) :=
  a <- this ;;
  emit (Log "%s: setTargetPosition(%s)" [JStr (name a); position]) ;;
  if loose_eq context REFRESH_CONTEXT then ret (Success tt)
  else if truthy (get a "typeSupportsOnOff") || truthy (get a "typeSupportsDim")
  then
    r <- (if truthy (get a "typeSupportsDim")
          then updateStatus [("brightness", position)] None
          else updateStatus
                 [("isOn", if js_gt position (JNum 0) then JNum 1 else JNum 0)]
                 None) ;;
    emit (SetTimeout 1000 CurrentPosition position REFRESH_CONTEXT) ;;
    ret (reply_of r)
  else ret (Failure "Accessory does not support on/off or dim").

(** *** Garage door *)

(** [IndigoGarageDoorAccessory.prototype.getCurrentDoorState] *)
Definition getCurrentDoorState : M Accessory (Reply JsValue) :=
  a <- this ;;
  if truthy (get a "typeSupportsOnOff") then
    error <- getStatus None ;;
    match error with
    | Some e => ret (Failure e)
    | None =>
        a <- this ;;
        let doorState := if truthy (get a "isOn")
                         then HAP.CurrentDoorState.OPEN
                         else HAP.CurrentDoorState.CLOSED in
        emit (Log "%s: getPosition() => %s" [JStr (name a); doorState]) ;;
        ret (Success doorState)
    end
  else ret NoReply.

(** [IndigoGarageDoorAccessory.prototype.getTargetDoorState] *)
Definition getTargetDoorState : M Accessory (Reply JsValue) :=
  a <- this ;;
  if truthy (get a "typeSupportsOnOff") then
    error <- getStatus None ;;
    match error with
    | Some e => ret (Failure e)
    | None =>
        a <- this ;;
        let doorState := if truthy (get a "isOn")
                         then HAP.TargetDoorState.OPEN
                         else HAP.TargetDoorState.CLOSED in
        emit (Log "%s: getPosition() => %s" [JStr (name a); doorState]) ;;
        ret (Success doorState)
    end
  else ret NoReply.

(** [IndigoGarageDoorAccessory.prototype.setTargetDoorState] *)
Definition setTargetDoorState (doorState context : JsValue)
  : M Accessory (Reply unit) :=
  a <- this ;;
  emit (Log "%s: setTargetPosition(%s)" [JStr (name a); doorState]) ;;
  if loose_eq context REFRESH_CONTEXT then ret (Success tt)
  else if truthy (get a "typeSupportsOnOff") then
    r <- updateStatus
           [("isOn", if loose_eq doorState HAP.TargetDoorState.OPEN
                     then JNum 1 else JNum 0)] None ;;
    emit (SetTimeout 1000 CurrentDoorState
            (if loose_eq doorState HAP.TargetDoorState.OPEN
             then HAP.CurrentDoorState.OPEN
             else HAP.CurrentDoorState.CLOSED)
            REFRESH_CONTEXT) ;;
    ret (reply_of r)
  else ret (Failure "Accessory does not support on/off").


(** *** Light *)

(** [IndigoLightAccessory.prototype.getBrightness] *)
Definition getBrightness : M Accessory (Reply JsValue) :=
  a <- this ;;
  if truthy (get a "typeSupportsDim") then query "brightness"
  else ret (Failure "Accessory does not support brightness").

(** [IndigoLightAccessory.prototype.setBrightness] *)
Definition setBrightness (brightness context : JsValue)
  : M Accessory (Reply unit) :=
  a <- this ;;
  emit (Log "%s: setBrightness(%d)" [JStr (name a); brightness]) ;;
  if loose_eq context REFRESH_CONTEXT then ret (Success tt)
  else if truthy (get a "typeSupportsDim")
          && js_ge brightness (JNum 0) && js_le brightness (JNum 100)
  then
    r <- updateStatus [("brightness", brightness)] None ;;
    ret (reply_of r)
  else ret (Failure "Accessory does not support brightness").

(** *** Fan *)

(** [IndigoFanAccessory.prototype.getRotationSpeed] *)
Definition getRotationSpeed : M Accessory (Reply JsValue) :=
  a <- this ;;
  if truthy (get a "typeSupportsSpeedControl") then
    r <- query "speedIndex" ;;
    match r with
    | Success speedIndex =>
        ret (Success (js_mul (js_div speedIndex (JNum 3)) (JNum 100)))
    | Failure e => ret (Failure e)
    | NoReply => ret NoReply
    end
  else ret (Failure "Accessory does not support rotation speed").

(** The thresholds of [setRotationSpeed]. *)
Definition speedIndex_of (rotationSpeed : JsValue) : Z :=
  if js_gt rotationSpeed (JNum (666 # 10)) then 3
  else if js_gt rotationSpeed (JNum (333 # 10)) then 2
  else if js_gt rotationSpeed (JNum 0) then 1
  else 0.

(** [IndigoFanAccessory.prototype.setRotationSpeed]; it takes no context. *)
Definition setRotationSpeed (rotationSpeed : JsValue)
  : M Accessory (Reply unit) :=
  a <- this ;;
  if truthy (get a "typeSupportsSpeedControl")
     && js_ge rotationSpeed (JNum 0) && js_le rotationSpeed (JNum 100)
  then
    let speedIndex := speedIndex_of rotationSpeed in
    r <- updateStatus [("speedIndex", JNum (inject_Z speedIndex))] None ;;
    ret (reply_of r)
  else ret (Failure "Accessory does not support rotation speed").

(** *** Thermostat *)

(** [IndigoThermostatAccessory.prototype.getCurrentHeatingCooling] *)
Definition getCurrentHeatingCooling : M Accessory (Reply JsValue) :=
  error <- getStatus None ;;
  match error with
  | Some e => ret (Failure e)
  | None =>
      a <- this ;;
      let mode := if truthy (get a "hvacHeaterIsOn")
                  then HAP.CurrentHeatingCoolingState.HEAT
                  else if truthy (get a "hvacCoolerIsOn")
                  then HAP.CurrentHeatingCoolingState.COOL
                  else HAP.CurrentHeatingCoolingState.OFF in
      emit (Log "%s: getCurrentHeatingCooling() => %s" [JStr (name a); mode]) ;;
      ret (Success mode)
  end.

(** [IndigoThermostatAccessory.prototype.getTargetHeatingCooling] *)
Definition getTargetHeatingCooling : M Accessory (Reply JsValue) :=
  error <- getStatus None ;;
  match error with
  | Some e => ret (Failure e)
  | None =>
      a <- this ;;
      let mode :=
        if truthy (get a "hvacOperationModeIsHeat")
           || truthy (get a "hvacOperationModeIsProgramHeat")
        then HAP.TargetHeatingCoolingState.HEAT
        else if truthy (get a "hvacOperationModeIsCool")
                || truthy (get a "hvacOperationModeIsProgramCool")
        then HAP.TargetHeatingCoolingState.COOL
        else if truthy (get a "hvacOperationModeIsAuto")
                || truthy (get a "hvacOperationModeIsProgramAuto")
        then HAP.TargetHeatingCoolingState.AUTO
        else HAP.TargetHeatingCoolingState.OFF in
      emit (Log "%s: getTargetHeatingCooling() => %s" [JStr (name a); mode]) ;;
      ret (Success mode)
  end.

(** [IndigoThermostatAccessory.prototype.setTargetHeatingCooling] *)
Definition setTargetHeatingCooling (mode : JsValue)
  : M Accessory (Reply unit) :=
  a <- this ;;
  emit (Log "%s: setTargetHeatingCooling(%s)" [JStr (name a); mode]) ;;
  let qs :=
    if loose_eq mode HAP.TargetHeatingCoolingState.OFF
    then Some [("hvacOperationModeIsOff", JStr "true")]
    else if loose_eq mode HAP.TargetHeatingCoolingState.HEAT
    then Some [("hvacOperationModeIsHeat", JStr "true")]
    else if loose_eq mode HAP.TargetHeatingCoolingState.COOL
    then Some [("hvacOperationModeIsCool", JStr "true")]
    else if loose_eq mode HAP.TargetHeatingCoolingState.AUTO
    then Some [("hvacOperationModeIsAuto", JStr "true")]
    else None in
  match qs with
  | Some qs => r <- updateStatus qs None ;; ret (reply_of r)
  | None => ret (Failure "Unknown target heating/cooling state")
  end.

(** [IndigoThermostatAccessory.prototype.celsiusToIndigoTemp] *)
Definition celsiusToIndigoTemp (a : Accessory) (temperature : JsValue)
  : JsValue :=
  if truthy (thermostatsInCelsius a) then temperature
  else js_div
         (Math_round
            (js_mul
               (js_add (js_div (js_mul temperature (JNum 9)) (JNum 5))
                       (JNum 32))
               (JNum 10)))
         (JNum 10).

(** [IndigoThermostatAccessory.prototype.indigoTempToCelsius] *)
Definition indigoTempToCelsius (a : Accessory) (temperature : JsValue)
  : JsValue :=
  if truthy (thermostatsInCelsius a) then temperature
  else js_div
         (Math_round
            (js_mul
               (js_div (js_mul (js_sub temperature (JNum 32)) (JNum 5))
                       (JNum 9))
               (JNum 10)))
         (JNum 10).

(** [IndigoThermostatAccessory.prototype.getTemperatureValue] *)
Definition getTemperatureValue (key : string) : M Accessory (Reply JsValue) :=
  r <- query key ;;
  match r with
  | Success temperature =>
      a <- this ;;
      let t := indigoTempToCelsius a temperature in
      emit (Log "%s: getTemperatureValue(%s) => %s"
                [JStr (name a); JStr key; t]) ;;
      ret (Success t)
  | Failure e => ret (Failure e)
  | NoReply => ret NoReply
  end.

(** [IndigoThermostatAccessory.prototype.setTemperatureValue] *)
Definition setTemperatureValue (key : string) (temperature : JsValue)
  : M Accessory (Reply unit) :=
  a <- this ;;
  emit (Log "%s: setTemperatureValue(%s, %s)"
            [JStr (name a); JStr key; temperature]) ;;
  let qs := [(key, celsiusToIndigoTemp a temperature)] in
  r <- updateStatus qs None ;;
  ret (reply_of r).

Definition getCurrentTemperature := getTemperatureValue "inputTemperatureVals".

(** [IndigoThermostatAccessory.prototype.getTargetTemperature] *)
Definition getTargetTemperature : M Accessory (Reply JsValue) :=
  error <- getStatus None ;;
  match error with
  | Some e => ret (Failure e)
  | None =>
      a <- this ;;
      let temperature :=
        if truthy (get a "hvacOperationModeIsHeat")
           || truthy (get a "hvacOperationModeIsProgramHeat")
        then get a "setpointHeat"
        else if truthy (get a "hvacOperationModeIsCool")
                || truthy (get a "hvacOperationModeIsProgramCool")
        then get a "setpointCool"
        else js_div (js_add (get a "setpointHeat") (get a "setpointCool"))
                    (JNum 2) in
      let t := indigoTempToCelsius a temperature in
      emit (Log "%s: getTargetTemperature() => %s" [JStr (name a); t]) ;;
      ret (Success t)
  end.

(** [IndigoThermostatAccessory.prototype.setTargetTemperature] *)
Definition setTargetTemperature (temperature : JsValue)
  : M Accessory (Reply unit) :=
  a <- this ;;
  emit (Log "%s: setTargetTemperature(%s)" [JStr (name a); temperature]) ;;
  let t := celsiusToIndigoTemp a temperature in
  error <- getStatus None ;;
  match error with
  | Some e => ret (Failure e)
  | None =>
      a <- this ;;
      let qs :=
        if truthy (get a "hvacOperationModeIsHeat")
        then [("setpointHeat", t)]
        else if truthy (get a "hvacOperationModeIsCool")
        then [("setpointCool", t)]
        else
          let adjust := if truthy (thermostatsInCelsius a)
                        then JNum 2 else JNum 5 in
          [("setpointCool", js_add t adjust);
           ("setpointHeat", js_sub t adjust)] in
      r <- updateStatus qs None ;;
      ret (reply_of r)
  end.

(** [IndigoThermostatAccessory.prototype.getTemperatureDisplayUnits] *)
Definition getTemperatureDisplayUnits : M Accessory (Reply JsValue) :=
  a <- this ;;
  emit (Log "%s: getTemperatureDisplayUnits() => %s"
            [JStr (name a); temperatureDisplayUnits a]) ;;
  ret (Success (temperatureDisplayUnits a)).

(** [IndigoThermostatAccessory.prototype.setTemperatureDisplayUnits] *)
Definition setTemperatureDisplayUnits (units : JsValue)
  : M Accessory (Reply unit) :=
  a <- this ;;
  emit (Log "%s: setTemperatureDisplayUnits(%s)" [JStr (name a); units]) ;;
  modify (set_temperatureDisplayUnits units) ;;
  ret (Success tt).

Definition getCoolingThresholdTemperature := getTemperatureValue "setpointCool".
Definition setCoolingThresholdTemperature := setTemperatureValue "setpointCool".
Definition getHeatingThresholdTemperature := getTemperatureValue "setpointHeat".
Definition setHeatingThresholdTemperature := setTemperatureValue "setpointHeat".

(** [IndigoThermostatAccessory.prototype.getCurrentRelativeHumidity] *)
Definition getCurrentRelativeHumidity : M Accessory (Reply JsValue) :=
  a <- this ;;
  if truthy (get a "displayHumidityInRemoteUI") then query "inputHumidityVals"
  else ret (Failure "Accessory does not support current relative humidity").

(** *** Action *)


(** [IndigoActionAccessory.prototype.executeAction] *)
Definition executeAction (value context : JsValue) : M Accessory (Reply unit) :=
  a <- this ;;
  emit (Log "%s: executeAction(%s)" [JStr (name a); value]) ;;
  (if truthy value && negb (strict_eq context REFRESH_CONTEXT) then
     r <- indigoRequest (platform a) (deviceURL a) "EXECUTE" None ;;
     match error r with
     | Some e => emit (Log "Error executing action group: %s" [JStr e])
     | None => ret tt
     end ;;
     emit (SetTimeout 1000 On (JBool false) REFRESH_CONTEXT)
   else ret tt) ;;
  ret (Success tt).

(** *** Pushing values into HomeKit *)

(** The ['set'] listener each constructor registers on a characteristic
    with [.on('set', handler.bind(this))]. *)
Definition set_listener (a : Accessory) (c : Characteristic)
  : option (JsValue -> JsValue -> M Accessory (Reply unit)) :=
  match variant a, c with
  | Switch, On => Some setOnState
  | Lock, LockTargetState => Some setLockTargetState
  | (Door | Window | WindowCovering), TargetPosition => Some setTargetPosition
  | GarageDoor, TargetDoorState => Some setTargetDoorState
  | Light, On => Some setOnState
  | Light, Brightness =>
      if dimAtConstruction a then Some setBrightness else None
  | Fan, On => Some setOnState
  | Fan, RotationSpeed => Some (fun v _ => setRotationSpeed v)
  | Thermostat, TargetHeatingCoolingState =>
      Some (fun v _ => setTargetHeatingCooling v)
  | Thermostat, TargetTemperature => Some (fun v _ => setTargetTemperature v)
  | Thermostat, TemperatureDisplayUnits =>
      Some (fun v _ => setTemperatureDisplayUnits v)
  | Thermostat, CoolingThresholdTemperature =>
      Some (fun v _ => setCoolingThresholdTemperature v)
  | Thermostat, HeatingThresholdTemperature =>
      Some (fun v _ => setHeatingThresholdTemperature v)
  | Action, On => Some executeAction
  | _, _ => None
  end.

(** [characteristic.setValue(v, undefined, context)] of hap-nodejs: the
    value and the context are handed to the ['set'] listener, if any. *)
Definition setValue (c : Characteristic) (v context : JsValue)
  : M Accessory unit :=
  emit (SetValue c v context) ;;
  a <- this ;;
  match set_listener a c with
  | Some handler => handler v context ;; ret tt
  | None => ret tt
  end.

(** [IndigoSwitchAccessory.prototype.update_isOn] *)
Definition Switch_update_isOn (isOn : JsValue) : M Accessory unit :=
  let onState := JBool (truthy isOn) in
  setValue On onState REFRESH_CONTEXT.

(** [IndigoLockAccessory.prototype.update_isOn] *)
Definition Lock_update_isOn (isOn : JsValue) : M Accessory unit :=
  setValue LockCurrentState
    (if truthy isOn then HAP.LockCurrentState.SECURED
     else HAP.LockCurrentState.UNSECURED) REFRESH_CONTEXT ;;
  setValue LockTargetState
    (if truthy isOn then HAP.LockTargetState.SECURED
     else HAP.LockTargetState.UNSECURED) REFRESH_CONTEXT.

(** [IndigoPositionAccessory.prototype.update_isOn] *)
Definition Position_update_isOn (isOn : JsValue) : M Accessory unit :=
  a <- this ;;
  if negb (truthy (get a "typeSupportsDim")) then
    let position := if truthy isOn then JNum 100 else JNum 0 in
    setValue CurrentPosition position REFRESH_CONTEXT ;;
    setValue TargetPosition position REFRESH_CONTEXT
  else ret tt.

(** [IndigoPositionAccessory.prototype.update_brightness] *)
Definition Position_update_brightness (brightness : JsValue)
  : M Accessory unit :=
  setValue CurrentPosition brightness REFRESH_CONTEXT ;;
  setValue TargetPosition brightness REFRESH_CONTEXT.

(** [IndigoGarageDoorAccessory.prototype.update_isOn] *)
Definition GarageDoor_update_isOn (isOn : JsValue) : M Accessory unit :=
  setValue CurrentDoorState
    (if truthy isOn then HAP.CurrentDoorState.OPEN
     else HAP.CurrentDoorState.CLOSED) REFRESH_CONTEXT ;;
  setValue TargetDoorState
    (if truthy isOn then HAP.TargetDoorState.OPEN
     else HAP.TargetDoorState.CLOSED) REFRESH_CONTEXT.

(** [IndigoLightAccessory.prototype.update_isOn] *)
Definition Light_update_isOn (isOn : JsValue) : M Accessory unit :=
  let onState := JBool (truthy isOn) in
  setValue On onState REFRESH_CONTEXT.

(** [IndigoLightAccessory.prototype.update_brightness] *)
Definition Light_update_brightness (brightness : JsValue) : M Accessory unit :=
  setValue Brightness brightness REFRESH_CONTEXT.

(** [this[updateFunction]] when no own property of the accessory hides the
    name: the [update_KEY] methods on the prototype chain of each class. *)
Definition update_function (v : Variant) (updateFunction : string)
  : option (JsValue -> M Accessory unit) :=
  match v with
  | Switch =>
      if String.eqb updateFunction "update_isOn" then Some Switch_update_isOn
      else None
  | Lock =>
      if String.eqb updateFunction "update_isOn" then Some Lock_update_isOn
      else None
  | Door | Window | WindowCovering =>
      if String.eqb updateFunction "update_isOn"
      then Some Position_update_isOn
      else if String.eqb updateFunction "update_brightness"
      then Some Position_update_brightness
      else None
  | GarageDoor =>
      if String.eqb updateFunction "update_isOn"
      then Some GarageDoor_update_isOn
      else None
  | Light =>
      if String.eqb updateFunction "update_isOn" then Some Light_update_isOn
      else if String.eqb updateFunction "update_brightness"
      then Some Light_update_brightness
      else None
  | Fan | Thermostat | Action => None
  end.

(** The [updateCallback] that [refresh] passes to [getStatus].  An own
    property called [updateFunction], copied from a status, is found before
    the function of the class; it is called if it is truthy, and calling a
    parsed value throws. *)
Definition refresh_updateCallback (prop : string) (value : JsValue)
  : M Accessory unit :=
  let updateFunction := "update_" +:+ prop in
  a <- this ;;
  match props a !! updateFunction with
  | Some hidden =>
      if truthy hidden then
        emit (Log "%s: %s(%s)" [JStr (name a); JStr updateFunction; value]) ;;
        throw "TypeError"
      else ret tt
  | None =>
      match update_function (variant a) updateFunction with
      | Some f =>
          emit (Log "%s: %s(%s)" [JStr (name a); JStr updateFunction; value]) ;;
          f value
      | None => ret tt
      end
  end.

(** [IndigoAccessory.prototype.refresh] *)
Definition refresh : M Accessory (option string) :=
  a <- this ;;
  emit (Log "%s: refresh()" [JStr (name a)]) ;;
  getStatus (Some refresh_updateCallback).

(* ===================================================================== *)
(** ** Discovery and the update listener *)
(* ===================================================================== *)

(** [array.indexOf(x)], which compares with [===]. *)
Fixpoint Array_indexOf_from (l : list JsValue) (x : JsValue) (i : Z) : Z :=
  match l with
  | [] => -1
  | y :: l' => if strict_eq y x then i else Array_indexOf_from l' x (i + 1)
  end.

Definition Array_indexOf (l : list JsValue) (x : JsValue) : Z :=
  Array_indexOf_from l x 0.

(** [IndigoPlatform.prototype.includeItemId] *)
Definition includeItemId (p : Config) (id : JsValue) : bool :=
  if match includeIds p with
     | Some ids => Array_indexOf ids (JStr (ToString id)) <? 0
     | None => false
     end
  then false
  else if match excludeIds p with
          | Some ids => 0 <=? Array_indexOf ids (JStr (ToString id))
          | None => false
          end
  then false
  else true.

(** The object a constructor starts from; a name that is still
    [undefined] is the empty string. *)
Definition blank (p : Config) (deviceURL : string) (v : Variant) : Accessory :=
  {| variant := v; platform := p; deviceURL := deviceURL;
     name := EmptyString;
     props := ∅; dimAtConstruction := false;
     thermostatsInCelsius := JUndefined;
     temperatureDisplayUnits := JUndefined |}.

(** The [IndigoAccessory] constructor, called by every subclass
    constructor.  The [Accessory] constructor of hap-nodejs throws when the
    display name is missing or empty. *)
Definition IndigoAccessory (p : Config) (deviceURL : string) (json : JsValue)
    (v : Variant) : Completion Accessory :=
  match updateFromJSON json None (mkSt (blank p deviceURL v) []) with
  | (Normal _, st) =>
      if String.eqb (name (self st)) EmptyString
      then Throw "Accessories must be created with a non-empty displayName."
      else Normal (self st)
  | (Throw e, _) => Throw e
  end.

(** The subclass constructors: the light registers the Brightness handlers
    only for a dimmable device, the thermostat keeps the unit flag. *)
Definition construct (p : Config) (deviceURL : string) (json : JsValue)
    (v : Variant) : Completion Accessory :=
  match IndigoAccessory p deviceURL json v with
  | Normal a =>
      Normal
        {| variant := v; platform := platform a; deviceURL := deviceURL;
           name := name a; props := props a;
           dimAtConstruction :=
             match v with
             | Light => truthy (get a "typeSupportsDim")
             | _ => false
             end;
           thermostatsInCelsius :=
             match v with
             | Thermostat => config_thermostatsInCelsius p
             | _ => JUndefined
             end;
           temperatureDisplayUnits :=
             match v with
             | Thermostat =>
                 if truthy (config_thermostatsInCelsius p)
                 then HAP.TemperatureDisplayUnits.CELSIUS
                 else HAP.TemperatureDisplayUnits.FAHRENHEIT
             | _ => JUndefined
             end |}
  | Throw e => Throw e
  end.

(** [IndigoPlatform.prototype.createAccessoryFromJSON]: the class chosen
    for a device, [None] for [null]. *)
Definition variantFromJSON (p : Config) (json : JsValue) : option Variant :=
  let id := JStr (ToString (get_prop json "id")) in
  let treatedAs (ids : option (list JsValue)) :=
    truthy (get_prop json "typeSupportsOnOff") &&
    match ids with
    | Some l => 0 <=? Array_indexOf l id
    | None => false
    end in
  if loose_eq (get_prop json "restParent") (JStr "actions") then Some Action
  else if treatedAs (treatAsSwitchIds p) then Some Switch
  else if treatedAs (treatAsLockIds p) then Some Lock
  else if treatedAs (treatAsDoorIds p) then Some Door
  else if treatedAs (treatAsGarageDoorIds p) then Some GarageDoor
  else if treatedAs (treatAsWindowIds p) then Some Window
  else if treatedAs (treatAsWindowCoveringIds p) then Some WindowCovering
  else if truthy (get_prop json "typeSupportsHVAC") then Some Thermostat
  else if truthy (get_prop json "typeSupportsSpeedControl") then Some Fan
  else if truthy (get_prop json "typeSupportsDim")
          || truthy (get_prop json "typeSupportsOnOff") then Some Light
  else None.

Definition createAccessoryFromJSON (p : Config) (deviceURL : string)
    (json : JsValue) : Completion (option Accessory) :=
  match variantFromJSON p json with
  | Some v =>
      match construct p deviceURL json v with
      | Normal a => Normal (Some a)
      | Throw e => Throw e
      end
  | None => Normal None
  end.

(** The platform object: its configuration and the two collections that
    discovery fills.  The list is handed to homebridge when discovery
    ends and is not read again; the update listener works on the map. *)
Record Platform := {
  config : Config;
  foundAccessories : list Accessory;
  accessoryMap : gmap string Accessory
}.

Definition set_foundAccessories (l : list Accessory) (p : Platform) :=
  {| config := config p; foundAccessories := l;
     accessoryMap := accessoryMap p |}.

Definition set_accessoryMap (m : gmap string Accessory) (p : Platform) :=
  {| config := config p; foundAccessories := foundAccessories p;
     accessoryMap := m |}.

(** Reading a property throws on [null] and [undefined]. *)
Definition member {S} (v : JsValue) (k : string) : M S JsValue :=
  match v with
  | JNull | JUndefined => throw "TypeError"
  | _ => ret (get_prop v k)
  end.

(** [IndigoPlatform.prototype.addAccessory]; its callback never receives
    an error. *)
Definition addAccessory (item : JsValue) : M Platform (option string) :=
  restURL <- member item "restURL" ;;
  p <- this ;;
  r <- indigoRequestJSON (config p) (ToString restURL) "GET" None None ;;
  match r with
  | inl _ =>
      emit (Log "Ignoring accessory %s due to error" [restURL]) ;;
      ret None
  | inr json =>
      restParent <- member json "restParent" ;;
      let json := match json with
                  | JObj fields =>
                      if loose_eq restParent (JStr "actions")
                      then JObj (assoc_set "type" (JStr "Action") fields)
                      else json
                  | _ => json
                  end in
      emit (Log "Discovered %s (ID %s): %s"
                [get_prop json "type"; get_prop json "id";
                 get_prop json "name"]) ;;
      (if includeItemId (config p) (get_prop json "id") then
         match createAccessoryFromJSON (config p) (ToString restURL) json with
         | Normal (Some accessory) =>
             modify (fun p =>
               set_accessoryMap
                 (<[ToString (get_prop json "id") := accessory]>
                    (accessoryMap p))
                 (set_foundAccessories
                    (foundAccessories p ++ [accessory]) p))
         | Normal None =>
             emit (Log "Ignoring unknown accessory type %s"
                       [get_prop json "type"])
         | Throw e => throw e
         end
       else emit (Log "Ignoring excluded ID %s" [get_prop json "id"])) ;;
      ret None
  end.

(** [async.eachSeries]: one item after the other, stopping at the first
    error. *)
Fixpoint eachSeries {S A} (arr : list A) (iterator : A -> M S (option string))
  : M S (option string) :=
  match arr with
  | [] => ret None
  | x :: arr' =>
      e <- iterator x ;;
      match e with
      | Some err => ret (Some err)
      | None => eachSeries arr' iterator
      end
  end.

(** The items of a listing; the server answers with an array. *)
Definition items (json : JsValue) : list JsValue :=
  match json with
  | JArr l => l
  | _ => []
  end.

(** [IndigoPlatform.prototype.discoverAccessories] *)
Definition discoverAccessories (requestURL : string)
  : M Platform (option string) :=
  p <- this ;;
  r <- indigoRequestJSON (config p) requestURL "GET" None (Some jsonFixer) ;;
  match r with
  | inl error => ret (Some error)
  | inr json => eachSeries (items json) addAccessory
  end.

(** [Array.prototype.sort] with a comparison function, as a stable
    insertion sort. *)
Fixpoint insert_sorted {A} (cmp : A -> A -> Z) (x : A) (l : list A) : list A :=
  match l with
  | [] => [x]
  | y :: l' =>
      if cmp x y <=? 0 then x :: y :: l' else y :: insert_sorted cmp x l'
  end.

Definition Array_sort {A} (cmp : A -> A -> Z) (l : list A) : list A :=
  foldr (insert_sorted cmp) [] l.

(** The comparison function of [accessories]:
    [(a.name > b.name) - (a.name < b.name)]. *)
Definition compareNames (a b : Accessory) : Z :=
  Z.b2z (String.ltb (name b) (name a)) - Z.b2z (String.ltb (name a) (name b)).

Definition js_length {A} (l : list A) : JsValue :=
  JNum (inject_Z (Z.of_nat (length l))).

(** The discovery pass of [accessories]: one listing after the other. *)
Definition discovery : M Platform (option string) :=
  p <- this ;;
  let requestURLs :=
    [path (config p) +:+ "/devices.json/"] ++
    (if truthy (includeActions (config p))
     then [path (config p) +:+ "/actions.json/"] else []) in
  eachSeries requestURLs discoverAccessories.

(** The function [accessories] runs when the discovery pass is over; it
    returns the list that [callback] receives. *)
Definition accessories_done (asyncError : option string)
  : M Platform (list Accessory) :=
  match asyncError with
  | Some e => emit (Log e [])
  | None => ret tt
  end ;;
  p <- this ;;
  (if (99 <? length (foundAccessories p))%nat then
     emit (Log "*** WARNING *** you have %s accessories."
               [js_length (foundAccessories p)]) ;;
     emit (Log "*** Limiting to the first 99 discovered. ***" []) ;;
     emit (Log "*** See README.md for how to filter your list. ***" []) ;;
     modify (set_foundAccessories (take 99 (foundAccessories p)))
   else ret tt) ;;
  p <- this ;;
  emit (Log "Created %s accessories" [js_length (foundAccessories p)]) ;;
  modify
    (set_foundAccessories (Array_sort compareNames (foundAccessories p))) ;;
  p <- this ;;
  ret (foundAccessories p).

(** [IndigoPlatform.prototype.accessories] *)
Definition accessories : M Platform (list Accessory) :=
  asyncError <- discovery ;;
  accessories_done asyncError.

(** Runs a method of the accessory stored under [id]; the object is
    mutated in place. *)
Definition on_accessory {A} (id : string) (accessory : Accessory)
    (m : M Accessory A) : M Platform A :=
  fun st =>
    let '(r, st') := m (mkSt accessory (trace st)) in
    (r, mkSt (set_accessoryMap (<[id := self st']> (accessoryMap (self st)))
                (self st))
             (trace st')).

(** [IndigoPlatform.prototype.updateAccessory], for a request on
    [/devices/:id]. *)
Definition updateAccessory (id : string) : M Platform unit :=
  emit (Log "Got update request for device ID %s" [JStr id]) ;;
  p <- this ;;
  match accessoryMap p !! id with
  | Some accessory =>
      error <- on_accessory id accessory refresh ;;
      match error with
      | Some e =>
          emit (Log "Error updating device ID %s: %s" [JStr id; JStr e]) ;;
          emit (SendStatus 500)
      | None => emit (SendStatus 200)
      end
  | None => emit (SendStatus 404)
  end.

End Engine.

(* ===================================================================== *)
(** ** The platform constructor *)
(* ===================================================================== *)

(** [s.charAt(i)]: the empty string outside the string. *)
Definition charAt (s : string) (i : Z) : string :=
  if i <? 0 then EmptyString
  else match String.get (Z.to_nat i) s with
       | Some c => String c EmptyString
       | None => EmptyString
       end.

(** [v.length] on a value that is not [null] or [undefined]. *)
Definition length_of (v : JsValue) : JsValue :=
  match v with
  | JStr s => JNum (inject_Z (Z.of_nat (String.length s)))
  | JArr l => js_length l
  | JObj fields => assoc_get "length" fields
  | _ => JUndefined
  end.

(** The platform's section of config.json.  A key that is left out is
    [undefined]; the user name and the password are strings and the
    identifier lists are arrays, when they are given. *)
Module ConfigJson.
Record t := {
  protocol : JsValue;
  host : JsValue;
  port : JsValue;
  path : JsValue;
  username : option string;
  password : option string;
  includeActions : JsValue;
  includeIds : option (list JsValue);
  excludeIds : option (list JsValue);
  treatAsSwitchIds : option (list JsValue);
  treatAsLockIds : option (list JsValue);
  treatAsDoorIds : option (list JsValue);
  treatAsGarageDoorIds : option (list JsValue);
  treatAsWindowIds : option (list JsValue);
  treatAsWindowCoveringIds : option (list JsValue);
  thermostatsInCelsius : JsValue;
  accessoryNamePrefix : JsValue;
  listenPort : JsValue
}.
End ConfigJson.

(** ToBoolean on a string that may be left out. *)
Definition given (s : option string) : bool :=
  match s with
  | Some s => truthy (JStr s)
  | None => false
  end.

(** What the constructor leaves behind: the platform object, and the port
    on which the express application listens for [GET /devices/:id], if
    any. *)
Record Instance := {
  platform_of : Platform;
  listening : option JsValue
}.

Section Constructor.
Context `{JsBuiltins}.

(** The [IndigoPlatform] constructor.  The path is kept as the string that
    [this.path + "/devices.json/"] makes of it, the name prefix as the
    string that [prefix + String(json.name)] makes of it.  Calling
    [charAt] on a value that is not a string throws. *)
Definition IndigoPlatform (config : ConfigJson.t) : M unit Instance :=
  let protocol := if truthy (ConfigJson.protocol config)
                  then ConfigJson.protocol config else JStr "http" in
  let port := if truthy (ConfigJson.port config)
              then ConfigJson.port config else JStr "8176" in
  path <-
    (if truthy (ConfigJson.path config) then
       let path := ConfigJson.path config in
       path <-
         (if js_gt (length_of path) (JNum 0) then
            match path with
            | JStr s =>
                let last := Z.of_nat (String.length s) - 1 in
                if loose_eq (JStr (charAt s last)) (JStr "/")
                then ret (JStr (substr s 0 last))
                else ret path
            | _ => throw "TypeError"
            end
          else ret path) ;;
       path <-
         (if js_gt (length_of path) (JNum 0) then
            match path with
            | JStr s =>
                if negb (loose_eq (JStr (charAt s 0)) (JStr "/"))
                then ret (js_add (JStr "/") path)
                else ret path
            | _ => throw "TypeError"
            end
          else ret path) ;;
       emit (Log "Path prefix is %s" [path]) ;;
       ret path
     else ret (JStr EmptyString)) ;;
  let baseURL :=
    ToString
      (js_add (js_add (js_add (js_add protocol (JStr "://"))
                              (ConfigJson.host config))
                      (JStr ":"))
              port) in
  emit (Log "Indigo base URL is %s" [JStr baseURL]) ;;
  let auth :=
    match ConfigJson.username config, ConfigJson.password config with
    | Some username, Some password =>
        if truthy (JStr username) && truthy (JStr password)
        then Some {| user := username; pass := password;
                     sendImmediately := false |}
        else None
    | _, _ => None
    end in
  let accessoryNamePrefix :=
    if truthy (ConfigJson.accessoryNamePrefix config)
    then ConfigJson.accessoryNamePrefix config else JStr EmptyString in
  (if truthy (ConfigJson.listenPort config)
   then emit (Log "Listening on port %d" [ConfigJson.listenPort config])
   else ret tt) ;;
  ret {| platform_of :=
           {| config :=
                {| path := ToString path; baseURL := baseURL;
                   platform_auth := auth;
                   includeActions := ConfigJson.includeActions config;
                   includeIds := ConfigJson.includeIds config;
                   excludeIds := ConfigJson.excludeIds config;
                   treatAsSwitchIds := ConfigJson.treatAsSwitchIds config;
                   treatAsLockIds := ConfigJson.treatAsLockIds config;
                   treatAsDoorIds := ConfigJson.treatAsDoorIds config;
                   treatAsGarageDoorIds :=
                     ConfigJson.treatAsGarageDoorIds config;
                   treatAsWindowIds := ConfigJson.treatAsWindowIds config;
                   treatAsWindowCoveringIds :=
                     ConfigJson.treatAsWindowCoveringIds config;
                   config_thermostatsInCelsius :=
                     ConfigJson.thermostatsInCelsius config;
                   accessoryNamePrefix := ToString accessoryNamePrefix |};
              foundAccessories := [];
              accessoryMap := ∅ |};
         listening := if truthy (ConfigJson.listenPort config)
                      then Some (ConfigJson.listenPort config) else None |}.

End Constructor.

(* ===================================================================== *)
(** ** A reference engine for the examples *)
(* ===================================================================== *)

(** A small JSON reader (no escapes in strings, no exponents), enough to
    run the program on concrete response bodies. *)
Module RefEngine.

Definition is_ws (a : ascii) : bool :=
  let n := nat_of_ascii a in
  (n =? 32)%nat || (n =? 9)%nat || (n =? 10)%nat || (n =? 13)%nat.

Fixpoint skip_ws (s : list ascii) : list ascii :=
  match s with
  | a :: s' => if is_ws a then skip_ws s' else s
  | [] => []
  end.

Definition digit (a : ascii) : option Z :=
  let n := nat_of_ascii a in
  if (48 <=? n)%nat && (n <=? 57)%nat then Some (Z.of_nat n - 48) else None.

(** Reads digits: the number read so far, how many digits, the rest. *)
Fixpoint read_digits (s : list ascii) (acc : Z) (count : nat)
  : Z * nat * list ascii :=
  match s with
  | a :: s' =>
      match digit a with
      | Some d => read_digits s' (10 * acc + d) (S count)
      | None => (acc, count, s)
      end
  | [] => (acc, count, [])
  end.

Definition read_unsigned (s : list ascii) : option (Q * list ascii) :=
  match read_digits s 0 0 with
  | (_, O, _) => None
  | (n, _, "."%char :: r) =>
      match read_digits r 0 0 with
      | (_, O, _) => None
      | (f, k, r') =>
          Some (Qred (inject_Z n + (f # Pos.of_nat (10 ^ k)))%Q, r')
      end
  | (n, _, r) => Some (inject_Z n, r)
  end.

Definition read_number (s : list ascii) : option (Q * list ascii) :=
  match s with
  | "-"%char :: r =>
      match read_unsigned r with
      | Some (q, r') => Some (Qred (- q)%Q, r')
      | None => None
      end
  | _ => read_unsigned s
  end.

Fixpoint read_string (s : list ascii) (acc : string)
  : option (string * list ascii) :=
  match s with
  | [] => None
  | a :: s' =>
      if Ascii.eqb a "034" then Some (acc, s')
      else if Ascii.eqb a "\" then None
      else read_string s' (acc +:+ String a EmptyString)
  end.

Fixpoint parse_value (fuel : nat) (s : list ascii)
  : option (JsValue * list ascii) :=
  match fuel with
  | O => None
  | S fuel =>
      match skip_ws s with
      | "["%char :: r =>
          match skip_ws r with
          | "]"%char :: r' => Some (JArr [], r')
          | _ => parse_elements fuel r []
          end
      | "{"%char :: r =>
          match skip_ws r with
          | "}"%char :: r' => Some (JObj [], r')
          | _ => parse_members fuel r []
          end
      | "034"%char :: r =>
          match read_string r EmptyString with
          | Some (str, r') => Some (JStr str, r')
          | None => None
          end
      | "t"%char :: "r"%char :: "u"%char :: "e"%char :: r =>
          Some (JBool true, r)
      | "f"%char :: "a"%char :: "l"%char :: "s"%char :: "e"%char :: r =>
          Some (JBool false, r)
      | "n"%char :: "u"%char :: "l"%char :: "l"%char :: r => Some (JNull, r)
      | r =>
          match read_number r with
          | Some (q, r') => Some (JNum q, r')
          | None => None
          end
      end
  end
with parse_elements (fuel : nat) (s : list ascii) (acc : list JsValue)
  : option (JsValue * list ascii) :=
  match fuel with
  | O => None
  | S fuel =>
      match parse_value fuel s with
      | Some (v, r) =>
          match skip_ws r with
          | ","%char :: r' => parse_elements fuel r' (acc ++ [v])
          | "]"%char :: r' => Some (JArr (acc ++ [v]), r')
          | _ => None
          end
      | None => None
      end
  end
with parse_members (fuel : nat) (s : list ascii)
    (acc : list (string * JsValue)) : option (JsValue * list ascii) :=
  match fuel with
  | O => None
  | S fuel =>
      match skip_ws s with
      | "034"%char :: r =>
          match read_string r EmptyString with
          | Some (k, r1) =>
              match skip_ws r1 with
              | ":"%char :: r2 =>
                  match parse_value fuel r2 with
                  | Some (v, r3) =>
                      match skip_ws r3 with
                      | ","%char :: r4 =>
                          parse_members fuel r4 (assoc_set k v acc)
                      | "}"%char :: r4 => Some (JObj (assoc_set k v acc), r4)
                      | _ => None
                      end
                  | None => None
                  end
              | _ => None
              end
          | None => None
          end
      | _ => None
      end
  end.

Definition parse (body : string) : option JsValue :=
  match parse_value (S (String.length body)) (list_ascii_of_string body) with
  | Some (v, r) =>
      match skip_ws r with
      | [] => Some v
      | _ => None
      end
  | None => None
  end.

Definition to_number (s : string) : option Q :=
  match skip_ws (list_ascii_of_string s) with
  | [] => Some 0%Q
  | r =>
      match read_number r with
      | Some (q, r') =>
          match skip_ws r' with
          | [] => Some q
          | _ => None
          end
      | None => None
      end
  end.

(** Integers print in decimal; other numbers are outside the examples. *)
Definition number_to_string (q : Q) : string :=
  let r := Qred q in
  if (Qden r =? 1)%positive then pretty (Qnum r)
  else pretty (Qnum r) +:+ "/" +:+ pretty (Zpos (Qden r)).

#[export] Instance builtins : JsBuiltins :=
  {| JSON_parse := parse;
     StringToNumber := to_number;
     NumberToString := number_to_string |}.

End RefEngine.

(* ===================================================================== *)
(** ** The arithmetic of the program on IEEE doubles *)
(* ===================================================================== *)

(** The numeric functions of the program once more, on binary64 numbers,
    to run them next to their counterparts on rationals. *)
Module Doubles.
Import PrimFloat.
Local Open Scope float_scope.

Definition two52 : float := 4503599627370496.

(** The nearest integer, ties to even, for a number below 2^51 in
    absolute value. *)
Definition rint (x : float) : float :=
  if x <? 0 then (x - two52) + two52 else (x + two52) - two52.

(** [Math.round]: the nearest integer, ties towards +infinity. *)
Definition Math_round (x : float) : float :=
  let r := rint x in
  if (x - r) =? 0.5 then r + 1 else r.

(** [celsiusToIndigoTemp] and [indigoTempToCelsius] with Fahrenheit as the
    native unit. *)
Definition celsiusToIndigoTemp (temperature : float) : float :=
  Math_round (((temperature * 9.0 / 5.0) + 32.0) * 10.0) / 10.0.

Definition indigoTempToCelsius (temperature : float) : float :=
  Math_round (((temperature - 32.0) * 5.0 / 9.0) * 10.0) / 10.0.

(** The speed index [setRotationSpeed] writes and the value
    [getRotationSpeed] reports for it. *)
Definition speedIndex_of (rotationSpeed : float) : float :=
  if 66.6 <? rotationSpeed then 3
  else if 33.3 <? rotationSpeed then 2
  else if 0 <? rotationSpeed then 1
  else 0.

Definition rotationSpeed_of (speedIndex : float) : float :=
  (speedIndex / 3.0) * 100.0.

(** The integers from 0 as doubles. *)
Fixpoint of_nat (n : nat) : float :=
  match n with
  | O => 0
  | S n' => of_nat n' + 1
  end.

(** The tenths from [lo / 10] on: [count] temperatures 0.1 apart. *)
Definition tenths (lo : float) (count : nat) : list float :=
  map (fun k => (of_nat k + lo) / 10) (seq 0 count).

Definition within (tolerance x y : float) : bool :=
  (abs (x - y) <=? tolerance).

End Doubles.

(* ===================================================================== *)
(** ** The vocabulary of the properties *)
(* ===================================================================== *)

(** [respects strict I Q m]: started on an object that satisfies [I], [m]
    leaves an object that satisfies [I] and only appends events that
    satisfy [Q]; when [strict] is set, [m] also returns instead of
    throwing. *)
Definition respects {S A} (strict : bool) (I : S -> Prop) (Q : Event -> Prop)
    (m : M S A) : Prop :=
  forall st, I (self st) ->
    I (self (snd (m st))) /\
    (exists evs, trace (snd (m st)) = trace st ++ evs /\ Forall Q evs) /\
    (strict = true -> exists a, fst (m st) = Normal a).

Abbreviation preserves := (respects false).

(** What a refresh may append to the trace: log lines, GET requests, and
    values pushed with the refresh context; no other request and no
    timer. *)
Definition refresh_safe (e : Event) : Prop :=
  match e with
  | Log _ _ => True
  | Queued o => method o = "GET"
  | SetValue _ _ context => context = REFRESH_CONTEXT
  | SetTimeout _ _ _ _ => False
  | SendStatus _ => False
  end.

(** The requests of a trace that are not GET requests. *)
Definition writes (tr : list Event) : list Options :=
  filter (fun o => method o <> "GET") (requests tr).

(** The mirror functions a refresh invoked, read off the log line
    [this.log("%s: %s(%s)", this.name, updateFunction, value)]. *)
Definition mirror_calls (evs : list Event) : list string :=
  omap (fun e => match e with
                 | Log fmt [_; JStr f; _] =>
                     if String.eqb fmt "%s: %s(%s)" then Some f else None
                 | _ => None
                 end) evs.

(** The classes that define [update_isOn]. *)
Definition has_update_isOn (v : Variant) : bool :=
  match v with
  | Fan | Thermostat | Action => false
  | _ => true
  end.

(** What a refresh calls under the name [update_isOn], as its log line has
    it: the function of the class, if it has one; but an own property of
    the accessory with that name comes first, and is called if it is
    truthy (the call of a parsed value then throws). *)
Definition isOn_mirrors (a : Accessory) : list string :=
  match props a !! "update_isOn" with
  | Some hidden => if truthy hidden then ["update_isOn"] else []
  | None => if has_update_isOn (variant a) then ["update_isOn"] else []
  end.

(** The request [getStatus] makes for an accessory. *)
Definition statusRequest (a : Accessory) : Options :=
  {| url := baseURL (platform a) +:+ deviceURL a; method := "GET";
     followRedirect := false; redirects := [];
     auth := platform_auth (platform a); qs := None |}.

(** What [indigoRequestJSON] hands to the callback of [getStatus] when the
    trace so far is [tr]: an error message, or the parsed status. *)
Definition fetched `{JsBuiltins} (remote : list Options -> Response)
    (a : Accessory) (tr : list Event) : string + JsValue :=
  let r := remote (requests tr ++ [statusRequest a]) in
  match error r with
  | Some e =>
      inl ("Error for Indigo request " +:+ deviceURL a +:+ ": " +:+ e)
  | None =>
      match JSON_parse (body r) with
      | None =>
          inl ("Error parsing Indigo response for " +:+ deviceURL a +:+
               nl +:+ "Exception: SyntaxError" +:+
               nl +:+ "Response: " +:+ body r)
      | Some json => inr json
      end
  end.

(** The two events every status request leaves in the trace. *)
Definition statusEvents (a : Accessory) : list Event :=
  [Queued (statusRequest a);
   Log "Indigo request: %s" [JStr (url (statusRequest a))]].

(** The class of an accessory never changes. *)
Definition is_a (v : Variant) (a : Accessory) : Prop := variant a = v.

(** A value pushed by a mirror function reaches no handler that ignores
    the context: those handlers sit on characteristics (rotation speed and
    the thermostat ones) that no mirror function touches. *)
Definition mirrored (v : Variant) (c : Characteristic) : bool :=
  match v, c with
  | (Switch | Light), On
  | Light, Brightness
  | Lock, (LockCurrentState | LockTargetState)
  | (Door | Window | WindowCovering), (CurrentPosition | TargetPosition)
  | GarageDoor, (CurrentDoorState | TargetDoorState) => true
  | _, _ => false
  end.

(** A status on which [updateFromJSON] throws: [null], of which no
    property can be read, and an object with a field called
    [hasOwnProperty], which cannot be called. *)
Definition unreadable (json : JsValue) : bool :=
  nullish json || has_own json "hasOwnProperty".

(** A field that the loop skips: the name, or a value equal to the cached
    one. *)
Definition unchanged `{JsBuiltins} (a : Accessory)
    (field : string * JsValue) : Prop :=
  String.eqb (fst field) "name" = true \/
  differs a (fst field) (snd field) = false.

(** In the fields of the response only [isOn] differs from the cache, and
    it is [true]. *)
Definition only_isOn_on `{JsBuiltins} (a : Accessory)
    (field : string * JsValue) : Prop :=
  if String.eqb (fst field) "isOn" then snd field = JBool true
  else unchanged a field.

(** The PUT request [updateStatus] makes for an accessory. *)
Definition putRequest (a : Accessory) (q : list (string * JsValue)) : Options :=
  {| url := baseURL (platform a) +:+ deviceURL a; method := "PUT";
     followRedirect := false; redirects := [];
     auth := platform_auth (platform a); qs := Some q |}.

(** The four values [getRotationSpeed] can report for a speed index
    between 0 and 3: 0, 100/3 (33.33), 200/3 (66.67) and 100. *)
Definition bucket (q : Q) : Prop :=
  (q == 0 \/ q == 100 # 3 \/ q == 200 # 3 \/ q == 100)%Q.

(** Without a mirror callback [updateFromJSON] is a pure update of the
    object; on a status that it cannot read the object stays as it is. *)
Definition copy_one `{JsBuiltins} (a : Accessory) (field : string * JsValue)
  : Accessory :=
  if negb (String.eqb (fst field) "name")
     && differs a (fst field) (snd field)
  then set_prop (fst field) (snd field) a
  else a.

Definition updated `{JsBuiltins} (json : JsValue) (a : Accessory) : Accessory :=
  if unreadable json then a
  else
    let a' := fold_left copy_one (enumerate json) a in
    if negb (strict_eq (get_prop json "name") JUndefined)
    then set_name (accessoryNamePrefix (platform a') +:+
                   ToString (get_prop json "name")) a'
    else a'.

(** Lexical order on display names. *)
Definition name_le (a b : Accessory) : Prop :=
  String.leb (name a) (name b) = true.

(** How often a trace logs the accessory-limit warning. *)
Definition warning_count (evs : list Event) : nat :=
  length
    (omap (fun e =>
             match e with
             | Log fmt [_] =>
                 if String.eqb fmt "*** WARNING *** you have %s accessories."
                 then Some tt else None
             | _ => None
             end) evs).

(** Neither the accessory nor the status has a property whose name begins
    with [update_]: whatever a refresh looks up under such a name is the
    function of the class. *)
Definition mirrors_in_place (a : Accessory) (json : JsValue) : bool :=
  forallb (fun k => negb (String.prefix "update_" k))
    (map fst (map_to_list (props a)) ++ map fst (enumerate json)).

(** The HTTP status codes a trace sent. *)
Definition statuses (tr : list Event) : list Z :=
  omap (fun e => match e with SendStatus code => Some code | _ => None end) tr.




(** The get handlers that fetch the status, each with the capability it
    asks for first ([true] where it asks for none). *)
Definition fetching_getters `{JsBuiltins} (remote : list Options -> Response)
  : list (M Accessory (Reply JsValue) * (Accessory -> bool)) :=
  let onOff a := truthy (get a "typeSupportsOnOff") in
  let always (a : Accessory) := true in
  [ (getOnState remote, onOff);
    (getLockCurrentState remote, onOff);
    (getLockTargetState remote, onOff);
    (getPosition remote,
     fun a => onOff a || truthy (get a "typeSupportsDim"));
    (getCurrentDoorState remote, onOff);
    (getTargetDoorState remote, onOff);
    (getBrightness remote, fun a => truthy (get a "typeSupportsDim"));
    (getRotationSpeed remote,
     fun a => truthy (get a "typeSupportsSpeedControl"));
    (getCurrentHeatingCooling remote, always);
    (getTargetHeatingCooling remote, always);
    (getCurrentTemperature remote, always);
    (getTargetTemperature remote, always);
    (getCoolingThresholdTemperature remote, always);
    (getHeatingThresholdTemperature remote, always);
    (getCurrentRelativeHumidity remote,
     fun a => truthy (get a "displayHumidityInRemoteUI")) ].

(** The timers a trace armed. *)
Definition timers (tr : list Event)
  : list (Z * Characteristic * JsValue * JsValue) :=
  omap (fun e => match e with
                 | SetTimeout ms c v context => Some (ms, c, v, context)
                 | _ => None
                 end) tr.

(** The values a trace pushed into HomeKit. *)
Definition pushes (tr : list Event)
  : list (Characteristic * JsValue * JsValue) :=
  omap (fun e => match e with
                 | SetValue c v context => Some (c, v, context)
                 | _ => None
                 end) tr.

(** The three events [updateStatus] leaves in the trace before the answer
    to its PUT arrives. *)
Definition putEvents (a : Accessory) (q : list (string * JsValue))
  : list Event :=
  [Log "updateStatus of %s: %s" [JStr (name a); JObj q];
   Queued (putRequest a q);
   Log "Indigo request: %s" [JStr (url (putRequest a q))]].

(** A value that [setBrightness] and [setRotationSpeed] do not accept: not
    a number between 0 and 100 (NaN compares false with everything). *)
Definition out_of_range `{JsBuiltins} (v : JsValue) : Prop :=
  match ToNumber v with
  | Some q => (q < 0 \/ 100 < q)%Q
  | None => True
  end.

(** The request [executeAction] makes. *)
Definition executeRequest (a : Accessory) : Options :=
  {| url := baseURL (platform a) +:+ deviceURL a; method := "EXECUTE";
     followRedirect := false; redirects := [];
     auth := platform_auth (platform a); qs := None |}.

(** The query key [setTargetHeatingCooling] sends for a mode. *)
Definition modeKey (mode : Q) : option string :=
  if Qeq_bool mode 0 then Some "hvacOperationModeIsOff"
  else if Qeq_bool mode 1 then Some "hvacOperationModeIsHeat"
  else if Qeq_bool mode 2 then Some "hvacOperationModeIsCool"
  else if Qeq_bool mode 3 then Some "hvacOperationModeIsAuto"
  else None.

(** The mode flags of the status that [getTargetHeatingCooling] reads. *)
Definition modeFlags : list string :=
  ["hvacOperationModeIsHeat"; "hvacOperationModeIsProgramHeat";
   "hvacOperationModeIsCool"; "hvacOperationModeIsProgramCool";
   "hvacOperationModeIsAuto"; "hvacOperationModeIsProgramAuto"].


(** Door, window and window covering share the position handlers. *)
Definition is_position (v : Variant) : bool :=
  match v with
  | Door | Window | WindowCovering => true
  | _ => false
  end.

(** The GET request the platform makes for a path. *)
Definition getRequest (p : Config) (path : string) : Options :=
  {| url := baseURL p +:+ path; method := "GET";
     followRedirect := false; redirects := [];
     auth := platform_auth p; qs := None |}.

(** What the callback of [indigoRequestJSON] receives for a response. *)
Definition parsed `{JsBuiltins} (path : string)
    (jsonFixer : option (string -> string)) (r : Response)
  : string + JsValue :=
  match error r with
  | Some e => inl ("Error for Indigo request " +:+ path +:+ ": " +:+ e)
  | None =>
      let body := match jsonFixer with
                  | Some fixer => fixer (body r)
                  | None => body r
                  end in
      match JSON_parse body with
      | None =>
          inl ("Error parsing Indigo response for " +:+ path +:+
               nl +:+ "Exception: SyntaxError" +:+
               nl +:+ "Response: " +:+ body)
      | Some json => inr json
      end
  end.

(** The description of a device as [addAccessory] hands it on: an action
    is given the type "Action". *)
Definition described `{JsBuiltins} (json : JsValue) : JsValue :=
  match json with
  | JObj fields =>
      if loose_eq (get_prop json "restParent") (JStr "actions")
      then JObj (assoc_set "type" (JStr "Action") fields)
      else json
  | _ => json
  end.

(** Every accessory of the map is in the list. *)
Definition map_in_list (p : Platform) : Prop :=
  forall id a, accessoryMap p !! id = Some a -> In a (foundAccessories p).

(** A request of the discovery pass: a plain GET on a URL of the
    configured server, with the platform's credentials, that does not
    follow redirects. *)
Definition to_server (c : Config) (e : Event) : Prop :=
  match e with
  | Queued o =>
      (exists path, url o = baseURL c +:+ path) /\ method o = "GET" /\
      auth o = platform_auth c /\ followRedirect o = false /\ qs o = None
  | _ => True
  end.

Definition begins_with (pre s : string) : Prop := exists rest, s = pre +:+ rest.
Definition ends_with (suf s : string) : Prop := exists front, s = front +:+ suf.

(** The path prefix the constructor makes of a configured string: a
    trailing slash is dropped, then a leading slash is added to what is
    left, unless nothing is left. *)
Definition pathPrefix (s : string) : string :=
  let last := Z.of_nat (String.length s) - 1 in
  let s1 := if String.eqb (charAt s last) "/" then substr s 0 last else s in
  if (0 <? String.length s1)%nat && negb (String.eqb (charAt s1 0) "/")
  then "/" +:+ s1 else s1.

(* ===================================================================== *)
(** ** Sample devices *)
(* ===================================================================== *)

Module Demo.

Definition settings : Config :=
  {| path := EmptyString; baseURL := "http://127.0.0.1:8176";
     platform_auth := None;
     includeActions := JBool false; includeIds := None; excludeIds := None;
     treatAsSwitchIds := None; treatAsLockIds := None;
     treatAsDoorIds := None; treatAsGarageDoorIds := None;
     treatAsWindowIds := None; treatAsWindowCoveringIds := None;
     config_thermostatsInCelsius := JBool false;
     accessoryNamePrefix := EmptyString |}.

(** The same settings with device 10 both included and excluded. *)
Definition include_and_exclude_10 : Config :=
  {| path := EmptyString; baseURL := "http://127.0.0.1:8176";
     platform_auth := None;
     includeActions := JBool false;
     includeIds := Some [JStr "10"]; excludeIds := Some [JStr "10"];
     treatAsSwitchIds := None; treatAsLockIds := None;
     treatAsDoorIds := None; treatAsGarageDoorIds := None;
     treatAsWindowIds := None; treatAsWindowCoveringIds := None;
     config_thermostatsInCelsius := JBool false;
     accessoryNamePrefix := EmptyString |}.

(** A server that answers every request with the same body. *)
Definition always (text : string) (h : list Options) : Response :=
  {| error := None; body := json_text text |}.

(** A server that cannot be reached. *)
Definition unreachable (h : list Options) : Response :=
  {| error := Some "Error: connect ECONNREFUSED"; body := EmptyString |}.

Definition device (v : Variant) (deviceName : string)
    (cache : list (string * JsValue)) : Accessory :=
  {| variant := v; platform := settings;
     deviceURL := "/devices/" +:+ deviceName +:+ ".json";
     name := deviceName; props := list_to_map cache;
     dimAtConstruction := false;
     thermostatsInCelsius := JBool false;
     temperatureDisplayUnits := HAP.TemperatureDisplayUnits.FAHRENHEIT |}.

Definition lamp : Accessory :=
  device Light "Lamp"
    [("id", JNum 7); ("typeSupportsOnOff", JBool true); ("isOn", JBool false)].

Definition lamp_on : string :=
  "{'name':'Lamp','id':7,'typeSupportsOnOff':true,'isOn':true}".

Definition fan : Accessory :=
  device Fan "Fan"
    [("id", JNum 8); ("typeSupportsOnOff", JBool true);
     ("typeSupportsSpeedControl", JBool true); ("isOn", JBool false);
     ("speedIndex", JNum 0)].

Definition fan_on : string :=
  "{'name':'Fan','id':8,'typeSupportsOnOff':true,"
  +:+ "'typeSupportsSpeedControl':true,'isOn':true,'speedIndex':0}".

Definition hall : Accessory :=
  device Thermostat "Hall"
    [("id", JNum 9); ("typeSupportsHVAC", JBool true);
     ("hvacOperationModeIsAuto", JBool true);
     ("setpointHeat", JNum 68); ("setpointCool", JNum 76)].

Definition hall_auto : string :=
  "{'name':'Hall','id':9,'typeSupportsHVAC':true,"
  +:+ "'hvacOperationModeIsAuto':true,'setpointHeat':68,'setpointCool':76}".

(** A dimmer that does not declare on/off support. *)
Definition dimmer_json : string :=
  "{'name':'Dimmer','id':5,'typeSupportsDim':true,"
  +:+ "'typeSupportsOnOff':false,'brightness':40}".

(** The platform after discovery found the lamp. *)
Definition home : Platform :=
  {| config := settings; foundAccessories := [lamp];
     accessoryMap := {[ "7" := lamp ]} |}.

Definition fan_medium : string :=
  "{'name':'Fan','id':8,'typeSupportsOnOff':true,"
  +:+ "'typeSupportsSpeedControl':true,'isOn':true,'speedIndex':2}".

(** A house with [n] on/off devices.  Device [i] is listed at position
    [i] and is called dev999, dev998, ... in listing order, so the listing
    runs against the lexical order of the names. *)
Definition device_name (i : nat) : string := "dev" +:+ pretty (999 - i)%nat.

Definition device_url (i : nat) : string :=
  "/devices/" +:+ pretty i +:+ ".json".

Definition listing_body (n : nat) : string :=
  "[" +:+
  String.concat ","
    (map (fun i => "{'restURL':'" +:+ device_url i +:+ "'}") (seq 0 n))
  +:+ "]".

Definition detail_body (i : nat) : string :=
  "{'name':'" +:+ device_name i +:+ "','id':" +:+ pretty i +:+
  ",'typeSupportsOnOff':true}".

Definition house (n : nat) (h : list Options) : Response :=
  match last h with
  | Some o =>
      if String.eqb (url o) (baseURL settings +:+ "/devices.json/")
      then {| error := None; body := json_text (listing_body n) |}
      else
        match
          List.find
            (fun i => String.eqb (url o) (baseURL settings +:+ device_url i))
            (seq 0 n)
        with
        | Some i => {| error := None; body := json_text (detail_body i) |}
        | None =>
            {| error := Some "Error: not found"; body := EmptyString |}
        end
  | None => {| error := Some "Error: no request"; body := EmptyString |}
  end.

(** A server with one device, which declares no capability. *)
Definition sensor_house (h : list Options) : Response :=
  match last h with
  | Some o =>
      if String.eqb (url o) (baseURL settings +:+ "/devices.json/")
      then {| error := None;
              body := json_text "[{'restURL':'/devices/sensor.json'}]" |}
      else {| error := None;
              body := json_text "{'name':'Sensor','id':13,'type':'Sensor'}" |}
  | None => {| error := Some "Error: no request"; body := EmptyString |}
  end.

(** The platform right after its constructor. *)
Definition fresh (c : Config) : Platform :=
  {| config := c; foundAccessories := []; accessoryMap := ∅ |}.

(** A lock, a door and a device without any capability. *)
Definition lock : Accessory :=
  device Lock "Lock"
    [("id", JNum 11); ("typeSupportsOnOff", JBool true); ("isOn", JBool false)].

Definition door : Accessory :=
  device Door "Door"
    [("id", JNum 12); ("typeSupportsOnOff", JBool true); ("isOn", JBool false)].

Definition door_open : string :=
  "{'name':'Door','id':12,'typeSupportsOnOff':true,'isOn':true}".

Definition sensor : Accessory := device Light "Sensor" [("id", JNum 13)].

(** A dimmable light at 40 percent, and the status that reports it at 70
    percent. *)
Definition dimmer : Accessory :=
  device Light "Dimmer"
    [("id", JNum 5); ("typeSupportsDim", JBool true); ("brightness", JNum 40)].

Definition dimmer_70 : string :=
  "{'name':'Dimmer','id':5,'typeSupportsDim':true,'brightness':70}".

(** The thermostat in auto mode, with the setpoints 66.6 and 76.6. *)
Definition hall_set : string :=
  "{'name':'Hall','id':9,'typeSupportsHVAC':true,"
  +:+ "'hvacOperationModeIsAuto':true,"
  +:+ "'setpointHeat':66.6,'setpointCool':76.6}".

(** A configuration that leaves protocol and port out. *)
Definition config_json : ConfigJson.t :=
  {| ConfigJson.protocol := JUndefined;
     ConfigJson.host := JStr "127.0.0.1";
     ConfigJson.port := JUndefined;
     ConfigJson.path := JStr "indigo/";
     ConfigJson.username := Some "me";
     ConfigJson.password := Some "secret";
     ConfigJson.includeActions := JBool true;
     ConfigJson.includeIds := None;
     ConfigJson.excludeIds := None;
     ConfigJson.treatAsSwitchIds := Some [JStr "7"];
     ConfigJson.treatAsLockIds := None;
     ConfigJson.treatAsDoorIds := None;
     ConfigJson.treatAsGarageDoorIds := None;
     ConfigJson.treatAsWindowIds := None;
     ConfigJson.treatAsWindowCoveringIds := None;
     ConfigJson.thermostatsInCelsius := JBool false;
     ConfigJson.accessoryNamePrefix := JStr "Test ";
     ConfigJson.listenPort := JNum 8177 |}.

(** The values a trace pushed into HomeKit. *)
Definition pushed (evs : list Event)
  : list (Characteristic * JsValue * JsValue) :=
  omap (fun e => match e with
                 | SetValue c v context => Some (c, v, context)
                 | _ => None
                 end) evs.

End Demo.

(* ===================================================================== *)
(** ** Reasoning about computations *)
(* ===================================================================== *)

Lemma for_each_cons {S A} (x : A) (l : list A) (body : A -> M S unit) st :
  for_each (x :: l) body st =
  match body x st with
  | (Normal _, st') => for_each l body st'
  | (Throw e, st') => (Throw e, st')
  end.
Proof. reflexivity. Qed.

Section Respects.
Context {S : Type} (strict : bool) (I : S -> Prop) (Q : Event -> Prop).

Lemma preserves_ret {A} (a : A) : respects strict I Q (ret a).
Proof.
  intros st HI; split; [exact HI|]. split.
  - exists []; simpl; split; [symmetry; apply app_nil_r | constructor].
  - intros _. exists a. reflexivity.
Qed.

Lemma preserves_throw {A} e : preserves I Q (@throw S A e).
Proof.
  intros st HI; split; [exact HI|]. split; [|discriminate].
  exists []; simpl; split; [symmetry; apply app_nil_r | constructor].
Qed.

Lemma preserves_emit e : Q e -> respects strict I Q (emit e).
Proof.
  intros He st HI; split; [exact HI|]. split.
  - exists [e]; simpl; split; [reflexivity | repeat constructor; exact He].
  - intros _. exists tt. reflexivity.
Qed.

Lemma preserves_modify f :
  (forall s, I s -> I (f s)) -> respects strict I Q (modify f).
Proof.
  intros Hf st HI; split; [apply Hf, HI|]. split.
  - exists []; simpl; split; [symmetry; apply app_nil_r | constructor].
  - intros _. exists tt. reflexivity.
Qed.

Lemma preserves_bind {A B} (m : M S A) (k : A -> M S B) :
  respects strict I Q m -> (forall a, respects strict I Q (k a)) ->
  respects strict I Q (bind m k).
Proof.
  intros Hm Hk st HI. unfold bind.
  destruct (Hm st HI) as (HI1 & (evs1 & Ht1 & HQ1) & Hn1).
  destruct (m st) as [[a|e] st1]; simpl in *.
  - destruct (Hk a st1 HI1) as (HI2 & (evs2 & Ht2 & HQ2) & Hn2).
    split; [exact HI2|]. split; [|exact Hn2].
    exists (evs1 ++ evs2). rewrite Ht2, Ht1, app_assoc.
    split; [reflexivity | apply Forall_app; auto].
  - split; [exact HI1|]. split; [exists evs1; auto|].
    intros Hs. destruct (Hn1 Hs) as [a Ha]. discriminate Ha.
Qed.

Lemma preserves_this {B} (k : S -> M S B) :
  (forall a, I a -> respects strict I Q (k a)) ->
  respects strict I Q (bind this k).
Proof.
  intros Hk st HI. unfold bind, this; simpl. apply Hk; exact HI.
Qed.

Lemma preserves_history {B} (k : list Options -> M S B) :
  (forall h, respects strict I Q (k h)) -> respects strict I Q (bind history k).
Proof.
  intros Hk st HI. unfold bind, history; simpl. apply Hk; exact HI.
Qed.

Lemma preserves_for_each {A} (l : list A) (body : A -> M S unit) :
  (forall x, respects strict I Q (body x)) ->
  respects strict I Q (for_each l body).
Proof.
  intros Hb; induction l as [|x l IH]; simpl.
  - apply preserves_ret.
  - apply preserves_bind; [apply Hb | intros _; exact IH].
Qed.

Lemma preserves_for_each_in {A} (l : list A) (body : A -> M S unit) :
  (forall x, In x l -> respects strict I Q (body x)) ->
  respects strict I Q (for_each l body).
Proof.
  induction l as [|x l IH]; intros Hb; simpl.
  - apply preserves_ret.
  - apply preserves_bind; [apply Hb; left; reflexivity | intros _].
    apply IH. intros y Hy. apply Hb. right. exact Hy.
Qed.

Lemma preserves_eachSeries {A} (l : list A)
    (iterator : A -> M S (option string)) :
  (forall x, respects strict I Q (iterator x)) ->
  respects strict I Q (eachSeries l iterator).
Proof.
  intros Hb; induction l as [|x l IH]; simpl.
  - apply preserves_ret.
  - apply preserves_bind; [apply Hb|].
    intros [err|]; [apply preserves_ret | exact IH].
Qed.

End Respects.

(** One step of a [preserves] proof: follow the shape of the program. *)
Ltac preserves_step :=
  first
    [ apply preserves_ret
    | apply preserves_throw
    | apply preserves_emit; simpl; solve [auto]
    | apply preserves_this; intros ? ?
    | apply preserves_history; intros ?
    | apply preserves_bind; [|intros ?]
    | match goal with
      | |- respects _ _ _ (if ?c then _ else _) => destruct c
      | |- respects _ _ _ (match ?x with _ => _ end) => destruct x
      end ].

Ltac preserves_auto := repeat preserves_step.

(** Unfolds the plumbing of the monad. *)
Ltac run_monad :=
  cbv beta iota zeta delta [bind this emit ret modify throw history];
  cbn [self trace fst snd].

Section EngineFacts.
Context `{JsBuiltins}.
Variable remote : list Options -> Response.

Lemma loose_eq_refresh : loose_eq REFRESH_CONTEXT REFRESH_CONTEXT = true.
Proof. reflexivity. Qed.

Lemma preserves_indigoRequest {S} strict (I : S -> Prop) (Q : Event -> Prop)
    p path verb qs :
  (forall o, method o = verb -> Q (Queued o)) ->
  (forall f args, Q (Log f args)) ->
  respects strict I Q (indigoRequest (S:=S) remote p path verb qs).
Proof.
  intros HQ HL. unfold indigoRequest.
  apply preserves_bind; [apply preserves_emit, HQ; reflexivity | intros _].
  apply preserves_bind; [apply preserves_emit, HL | intros _].
  preserves_auto.
Qed.

Lemma preserves_indigoRequestJSON {S} strict (I : S -> Prop)
    (Q : Event -> Prop) p path verb qs fixer :
  (forall o, method o = verb -> Q (Queued o)) ->
  (forall f args, Q (Log f args)) ->
  respects strict I Q (indigoRequestJSON (S:=S) remote p path verb qs fixer).
Proof.
  intros HQ HL. unfold indigoRequestJSON.
  apply preserves_bind; [apply preserves_indigoRequest; assumption|].
  intros r. destruct (error r).
  - apply preserves_bind; [apply preserves_emit, HL | intros _].
    apply preserves_ret.
  - destruct (JSON_parse _); [apply preserves_ret|].
    apply preserves_bind; [apply preserves_emit, HL | intros _].
    apply preserves_ret.
Qed.

(** Every property the loop visits is an own property. *)
Lemma has_own_enumerate json field :
  In field (enumerate json) -> has_own json (fst field) = true.
Proof.
  intros Hin. unfold has_own. apply existsb_exists.
  exists field. split; [exact Hin | apply String.eqb_refl].
Qed.

Lemma unreadable_false json :
  unreadable json = false ->
  nullish json = false /\ has_own json "hasOwnProperty" = false.
Proof. unfold unreadable. apply orb_false_elim. Qed.

Lemma preserves_hasOwnProperty {S} strict (I : S -> Prop) (Q : Event -> Prop)
    json prop :
  (strict = true -> has_own json "hasOwnProperty" = false) ->
  respects strict I Q (hasOwnProperty (S:=S) json prop).
Proof.
  intros Hs. unfold hasOwnProperty.
  destruct (has_own json "hasOwnProperty"); [|apply preserves_ret].
  destruct strict; [specialize (Hs eq_refl); discriminate Hs|].
  apply preserves_throw.
Qed.

(** [updateFromJSON] keeps whatever the two setters and the callback keep,
    and returns if it can read the status and the callback returns. *)
Lemma preserves_updateFromJSON strict (I : Accessory -> Prop)
    (Q : Event -> Prop) json cb :
  (strict = true -> unreadable json = false) ->
  (forall k v a, In (k, v) (enumerate json) -> I a -> I (set_prop k v a)) ->
  (forall n a, I a -> I (set_name n a)) ->
  (forall f, cb = Some f -> forall prop v, respects strict I Q (f prop v)) ->
  respects strict I Q (updateFromJSON json cb).
Proof.
  intros Hnn Hp Hn Hcb. unfold updateFromJSON.
  apply preserves_bind.
  - apply preserves_for_each_in. intros [prop v] Hin. unfold copy_prop.
    destruct (negb (String.eqb prop "name")); [|apply preserves_ret].
    apply preserves_bind.
    { apply preserves_hasOwnProperty. intros Hs.
      apply (unreadable_false json (Hnn Hs)). }
    intros [|]; [|apply preserves_ret].
    apply preserves_this; intros a Ha.
    destruct (differs a prop v); [|apply preserves_ret].
    apply preserves_bind;
      [apply preserves_modify; intros; apply Hp; assumption | intros _].
    destruct cb as [f|]; [apply (Hcb f eq_refl) | apply preserves_ret].
  - intros _.
    destruct json;
      try (destruct strict;
           [ specialize (Hnn eq_refl); discriminate Hnn
           | apply preserves_throw ]).
    all: destruct (negb (strict_eq _ JUndefined)); [|apply preserves_ret].
    all: apply preserves_this; intros a Ha.
    all: apply preserves_modify; intros; apply Hn; assumption.
Qed.

Lemma preserves_getStatus (I : Accessory -> Prop) (Q : Event -> Prop) cb :
  (forall o, method o = "GET" -> Q (Queued o)) ->
  (forall f args, Q (Log f args)) ->
  (forall k v a, I a -> I (set_prop k v a)) ->
  (forall n a, I a -> I (set_name n a)) ->
  (forall f, cb = Some f -> forall prop v, preserves I Q (f prop v)) ->
  preserves I Q (getStatus remote cb).
Proof.
  intros HQ HL Hp Hn Hcb. unfold getStatus.
  apply preserves_this; intros a Ha.
  apply preserves_bind; [apply preserves_indigoRequestJSON; assumption|].
  intros [msg|json]; [apply preserves_ret|].
  apply preserves_bind; [|intros _; apply preserves_ret].
  apply preserves_updateFromJSON;
    [discriminate | intros; apply Hp; assumption | assumption | assumption].
Qed.

Lemma refresh_safe_log f args : refresh_safe (Log f args).
Proof. exact Logic.I. Qed.

Lemma refresh_safe_set c v : refresh_safe (SetValue c v REFRESH_CONTEXT).
Proof. reflexivity. Qed.

Hint Resolve refresh_safe_log refresh_safe_set : core.

(** With the refresh context every handler that takes a context only logs
    and calls back. *)
Lemma setOnState_refresh strict I v :
  respects strict I refresh_safe (setOnState remote v REFRESH_CONTEXT).
Proof. unfold setOnState. rewrite loose_eq_refresh. preserves_auto. Qed.

Lemma setLockTargetState_refresh strict I v :
  respects strict I refresh_safe (setLockTargetState remote v REFRESH_CONTEXT).
Proof. unfold setLockTargetState. rewrite loose_eq_refresh. preserves_auto. Qed.

Lemma setTargetPosition_refresh strict I v :
  respects strict I refresh_safe (setTargetPosition remote v REFRESH_CONTEXT).
Proof. unfold setTargetPosition. rewrite loose_eq_refresh. preserves_auto. Qed.

Lemma setTargetDoorState_refresh strict I v :
  respects strict I refresh_safe (setTargetDoorState remote v REFRESH_CONTEXT).
Proof. unfold setTargetDoorState. rewrite loose_eq_refresh. preserves_auto. Qed.

Lemma setBrightness_refresh strict I v :
  respects strict I refresh_safe (setBrightness remote v REFRESH_CONTEXT).
Proof. unfold setBrightness. rewrite loose_eq_refresh. preserves_auto. Qed.

Lemma executeAction_refresh strict I v :
  respects strict I refresh_safe (executeAction remote v REFRESH_CONTEXT).
Proof.
  unfold executeAction.
  replace (truthy v && negb (strict_eq REFRESH_CONTEXT REFRESH_CONTEXT))
    with false by (simpl; symmetry; apply andb_false_r).
  preserves_auto.
Qed.

Lemma setValue_refresh_inv strict (I : Accessory -> Prop) v c x :
  (forall a, I a -> variant a = v) ->
  mirrored v c = true ->
  respects strict I refresh_safe (setValue remote c x REFRESH_CONTEXT).
Proof.
  intros HI Hm. unfold setValue.
  apply preserves_bind; [preserves_auto | intros _].
  apply preserves_this; intros a Ha.
  unfold set_listener. rewrite (HI a Ha).
  destruct v, c; try discriminate Hm; try apply preserves_ret.
  all: try (destruct (dimAtConstruction a); [|apply preserves_ret]).
  all: (apply preserves_bind; [|intros _; apply preserves_ret]).
  all: first [ apply setOnState_refresh | apply setLockTargetState_refresh
             | apply setTargetPosition_refresh
             | apply setTargetDoorState_refresh | apply setBrightness_refresh ].
Qed.

(** The names [updateFromJSON] takes for functions of the class are those
    of the functions [refresh] finds there. *)
Lemma update_function_names v k :
  existsb (String.eqb k) (update_functions v) = true <->
  update_function remote v k <> None.
Proof.
  destruct v; simpl;
    repeat match goal with
           | |- context [String.eqb k ?s] => destruct (String.eqb k s)
           end; simpl;
    split; intros Hx; solve [reflexivity | discriminate | congruence].
Qed.

(** The mirror callback only appends log lines and values pushed with the
    refresh context.  It returns when no own property of the accessory
    hides the [update_] function it looks up. *)
Lemma refresh_updateCallback_inv strict (I : Accessory -> Prop) v prop value :
  (forall a, I a -> variant a = v) ->
  (strict = true -> forall a, I a -> props a !! ("update_" +:+ prop) = None) ->
  respects strict I refresh_safe (refresh_updateCallback remote prop value).
Proof.
  intros HI Hs. unfold refresh_updateCallback. cbv zeta.
  apply preserves_this; intros a Ha.
  destruct (props a !! ("update_" +:+ prop)) as [hidden|] eqn:Eh.
  { destruct strict.
    - rewrite (Hs eq_refl a Ha) in Eh. discriminate Eh.
    - destruct (truthy hidden); [|apply preserves_ret].
      apply preserves_bind; [preserves_auto | intros _].
      apply preserves_throw. }
  rewrite (HI a Ha).
  destruct v; simpl update_function.
  all: repeat match goal with
              | |- context [if ?c then _ else _] => destruct c
              end.
  all: try apply preserves_ret.
  all: apply preserves_bind; [preserves_auto | intros _].
  all: unfold Switch_update_isOn, Lock_update_isOn, Position_update_isOn,
         Position_update_brightness, GarageDoor_update_isOn,
         Light_update_isOn, Light_update_brightness.
  all: repeat first
         [ eapply setValue_refresh_inv; [exact HI | reflexivity]
         | apply preserves_ret
         | apply preserves_this; intros ? ?
         | apply preserves_bind; [|intros _]
         | match goal with
           | |- respects _ _ _ (if ?c then _ else _) => destruct c
           end ].
Qed.

Lemma refresh_safe_all a tr :
  exists evs,
    trace (snd (refresh remote (mkSt a tr))) = tr ++ evs /\
    Forall refresh_safe evs.
Proof.
  assert (Hp : preserves (is_a (variant a)) refresh_safe (refresh remote)).
  { unfold refresh.
    apply preserves_this; intros a' Ha'.
    apply preserves_bind; [preserves_auto | intros _].
    apply preserves_getStatus; auto.
    intros f [= <-] prop v.
    apply (refresh_updateCallback_inv false _ (variant a));
      [intros a0 Ha0; exact Ha0 | discriminate]. }
  destruct (Hp (mkSt a tr) eq_refl) as (_ & Hevs & _). exact Hevs.
Qed.

Lemma requests_app tr tr' : requests (tr ++ tr') = requests tr ++ requests tr'.
Proof. unfold requests. apply omap_app. Qed.

Lemma writes_app tr tr' : writes (tr ++ tr') = writes tr ++ writes tr'.
Proof. unfold writes. rewrite requests_app. apply filter_app. Qed.

Lemma mirror_calls_app evs evs' :
  mirror_calls (evs ++ evs') = mirror_calls evs ++ mirror_calls evs'.
Proof. unfold mirror_calls. apply omap_app. Qed.

Lemma refresh_safe_writes evs : Forall refresh_safe evs -> writes evs = [].
Proof.
  induction 1 as [|e evs He _ IH]; [reflexivity|].
  change (e :: evs) with ([e] ++ evs). rewrite writes_app, IH, app_nil_r.
  destruct e; try reflexivity; simpl in He.
  unfold writes; simpl. rewrite filter_cons_False; [reflexivity|].
  intros Hne; apply Hne; exact He.
Qed.


Lemma get_set_prop_eq k v a : get (set_prop k v a) k = v.
Proof. unfold get, set_prop; simpl. rewrite lookup_insert_eq. reflexivity. Qed.

Lemma get_set_prop_ne k k' v a : k <> k' -> get (set_prop k v a) k' = get a k'.
Proof.
  intros Hne. unfold get, set_prop; simpl.
  rewrite lookup_insert_ne by exact Hne. reflexivity.
Qed.

(** A value that is cached differs from a new one as [!=] says. *)
Lemma differs_cached a k v w :
  props a !! k = Some w -> differs a k v = negb (loose_eq v w).
Proof. intros Hk. unfold differs. rewrite Hk. reflexivity. Qed.

Lemma differs_set_prop_eq a k v w :
  differs (set_prop k w a) k v = negb (loose_eq v w).
Proof. apply differs_cached. simpl. apply lookup_insert_eq. Qed.

Lemma differs_set_prop_ne a k k' v w :
  k <> k' -> differs (set_prop k w a) k' v = differs a k' v.
Proof.
  intros Hne. unfold differs. simpl.
  rewrite lookup_insert_ne by exact Hne. reflexivity.
Qed.


(** The loop of [updateFromJSON] on a status that hides [hasOwnProperty]:
    the first field that is not the name ends it. *)
Lemma for_each_unreadable json cb fields st :
  has_own json "hasOwnProperty" = true ->
  existsb (fun field => String.eqb (fst field) "hasOwnProperty") fields = true ->
  for_each fields (copy_prop json cb) st = (Throw "TypeError", st).
Proof.
  intros Hown. induction fields as [|[k v] fields IH]; [discriminate|].
  intros Hex. rewrite for_each_cons. unfold copy_prop at 1.
  destruct (String.eqb k "name") eqn:Ek; cbn [negb].
  - run_monad. apply IH. simpl in Hex.
    apply String.eqb_eq in Ek. subst k. exact Hex.
  - unfold hasOwnProperty. run_monad. rewrite Hown. reflexivity.
Qed.

Lemma updateFromJSON_unreadable json cb st :
  unreadable json = true ->
  updateFromJSON json cb st = (Throw "TypeError", st).
Proof.
  unfold unreadable, updateFromJSON. intros Hu.
  destruct (has_own json "hasOwnProperty") eqn:Hown.
  - unfold bind. rewrite (for_each_unreadable json cb _ st Hown Hown).
    reflexivity.
  - rewrite orb_false_r in Hu.
    destruct json; try discriminate Hu; destruct st; reflexivity.
Qed.

Lemma for_each_unchanged json cb fields a tr :
  has_own json "hasOwnProperty" = false ->
  Forall (unchanged a) fields ->
  for_each fields (copy_prop json cb) (mkSt a tr) = (Normal tt, mkSt a tr).
Proof.
  intros Hown. induction 1 as [|[k v] fields Hx _ IH]; [reflexivity|].
  rewrite for_each_cons.
  assert (Hskip : copy_prop json cb (k, v) (mkSt a tr) = (Normal tt, mkSt a tr)).
  { unfold copy_prop, hasOwnProperty.
    destruct Hx as [Hn|He]; simpl in Hn || simpl in He.
    - rewrite Hn. reflexivity.
    - destruct (negb (String.eqb k "name")); [|reflexivity].
      rewrite Hown. run_monad.
      destruct (has_own json k); [|reflexivity].
      run_monad. rewrite He. reflexivity. }
  rewrite Hskip. exact IH.
Qed.

Lemma isOn_mirrors_set_prop a v :
  isOn_mirrors (set_prop "isOn" v a) = isOn_mirrors a.
Proof.
  unfold isOn_mirrors. simpl.
  rewrite lookup_insert_ne by discriminate. reflexivity.
Qed.

(** The mirror callback on a flip of [isOn] to [true]: the accessory is
    left as it is, and one call is logged, if there is something to
    call. *)
Lemma refresh_updateCallback_isOn a tr :
  exists c evs,
    refresh_updateCallback remote "isOn" (JBool true) (mkSt a tr)
    = (c, mkSt a (tr ++ evs)) /\
    mirror_calls evs = isOn_mirrors a.
Proof.
  unfold refresh_updateCallback, isOn_mirrors. run_monad.
  change ("update_" +:+ "isOn") with "update_isOn".
  destruct (props a !! "update_isOn") as [hidden|].
  { destruct (truthy hidden); run_monad.
    - eexists; eexists. split; reflexivity.
    - exists (Normal tt), []. rewrite app_nil_r. split; reflexivity. }
  destruct (variant a) eqn:Hv; unfold update_function;
    change (String.eqb "update_isOn" "update_isOn") with true; cbv beta iota.
  all: unfold Switch_update_isOn, Lock_update_isOn, Position_update_isOn,
         GarageDoor_update_isOn, Light_update_isOn.
  all: run_monad.
  all: try match goal with
           | |- context [negb (truthy ?x)] => destruct (negb (truthy x))
           end.
  all: repeat (progress (
         unfold setValue, set_listener, setOnState, setLockTargetState,
           setTargetPosition, setTargetDoorState;
         run_monad; rewrite ?Hv, ?loose_eq_refresh; cbv beta iota)).
  all: try (eexists; eexists;
            split; [rewrite <- ?app_assoc; reflexivity | reflexivity]).
  all: exists (Normal tt), [];
    split; [rewrite app_nil_r; reflexivity | reflexivity].
Qed.

Lemma for_each_isOn_flip json fields a tr :
  has_own json "hasOwnProperty" = false ->
  (forall field, In field fields -> has_own json (fst field) = true) ->
  get a "isOn" = JBool false ->
  Forall (only_isOn_on a) fields ->
  In "isOn" (map fst fields) ->
  exists c evs,
    for_each fields (copy_prop json (Some (refresh_updateCallback remote)))
      (mkSt a tr)
    = (c, mkSt (set_prop "isOn" (JBool true) a) (tr ++ evs)) /\
    mirror_calls evs = isOn_mirrors a.
Proof.
  intros Hown Hkeys Hoff Hall.
  induction Hall as [|[k v] fields Hx Hall IH]; intros Hin.
  { destruct Hin. }
  rewrite for_each_cons.
  unfold only_isOn_on in Hx; simpl in Hx.
  destruct (String.eqb k "isOn") eqn:Ek.
  - apply String.eqb_eq in Ek; subst k v.
    assert (Hcached : props a !! "isOn" = Some (JBool false)).
    { unfold get in Hoff. destruct (props a !! "isOn") as [w|];
        simpl in Hoff; [congruence | discriminate Hoff]. }
    assert (Hstep :
      copy_prop json (Some (refresh_updateCallback remote))
        ("isOn", JBool true) (mkSt a tr)
      = refresh_updateCallback remote "isOn" (JBool true)
          (mkSt (set_prop "isOn" (JBool true) a) tr)).
    { unfold copy_prop, hasOwnProperty.
      change (negb (String.eqb "isOn" "name")) with true. cbv iota.
      rewrite Hown. run_monad.
      pose proof (Hkeys ("isOn", JBool true) (or_introl eq_refl)) as Hk.
      cbn [fst] in Hk. rewrite Hk. run_monad.
      rewrite (differs_cached a "isOn" (JBool true) (JBool false) Hcached).
      reflexivity. }
    rewrite Hstep.
    destruct (refresh_updateCallback_isOn
                (set_prop "isOn" (JBool true) a) tr) as (c & evs & Hcb & Hm).
    rewrite Hcb. rewrite isOn_mirrors_set_prop in Hm.
    destruct c as [[]|e].
    2:{ exists (Throw e), evs. split; [reflexivity | exact Hm]. }
    exists (Normal tt), evs; split; [|exact Hm].
    apply for_each_unchanged; [exact Hown|].
    eapply Forall_impl; [exact Hall|].
    intros [k' v'] Hx'. unfold only_isOn_on in Hx'; simpl in Hx'.
    unfold unchanged; simpl.
    destruct (String.eqb k' "isOn") eqn:Ek'.
    + apply String.eqb_eq in Ek'; subst k' v'. right.
      rewrite differs_set_prop_eq. reflexivity.
    + apply String.eqb_neq in Ek'.
      destruct Hx' as [Hn|He]; [left; exact Hn | right].
      simpl in He. rewrite differs_set_prop_ne by congruence. exact He.
  - assert (Hskip : copy_prop json (Some (refresh_updateCallback remote)) (k, v)
                      (mkSt a tr) = (Normal tt, mkSt a tr)).
    { unfold copy_prop, hasOwnProperty.
      destruct Hx as [Hn|He]; simpl in Hn || simpl in He.
      - rewrite Hn. reflexivity.
      - destruct (negb (String.eqb k "name")); [|reflexivity].
        rewrite Hown. run_monad.
        destruct (has_own json k); [|reflexivity].
        run_monad. rewrite He. reflexivity. }
    rewrite Hskip. apply IH.
    + intros field Hf. apply Hkeys. right. exact Hf.
    + destruct Hin as [Hk|Hin]; [|exact Hin].
      simpl in Hk. subst k. discriminate Ek.
Qed.

Lemma requests_log tr f args : requests (tr ++ [Log f args]) = requests tr.
Proof. rewrite requests_app. simpl. apply app_nil_r. Qed.

Lemma fetched_log a tr f args :
  fetched remote a (tr ++ [Log f args]) = fetched remote a tr.
Proof. unfold fetched. rewrite requests_log. reflexivity. Qed.

(** [getStatus] in one step: the request goes out, and either the error
    is passed on with the object untouched, or the parsed status is copied
    into the object. *)
Lemma getStatus_unfold cb a tr :
  getStatus remote cb (mkSt a tr) =
  match fetched remote a tr with
  | inl msg =>
      (Normal (Some msg), mkSt a (tr ++ statusEvents a ++ [Log msg []]))
  | inr json =>
      match updateFromJSON json cb (mkSt a (tr ++ statusEvents a)) with
      | (Normal _, st) => (Normal None, st)
      | (Throw e, st) => (Throw e, st)
      end
  end.
Proof.
  assert (Hh : requests ((tr ++ [Queued (statusRequest a)]) ++
                         [Log "Indigo request: %s"
                              [JStr (url (statusRequest a))]])
               = requests tr ++ [statusRequest a]).
  { rewrite !requests_app. simpl. rewrite app_nil_r. reflexivity. }
  unfold getStatus, indigoRequestJSON, indigoRequest, fetched. run_monad.
  fold (statusRequest a). rewrite Hh.
  unfold statusEvents.
  destruct (error (remote (requests tr ++ [statusRequest a]))) as [e|].
  - run_monad. rewrite <- !app_assoc. reflexivity.
  - destruct (JSON_parse _) as [json|]; run_monad.
    + rewrite <- !app_assoc. reflexivity.
    + rewrite <- !app_assoc. reflexivity.
Qed.

Lemma refresh_unfold a tr :
  refresh remote (mkSt a tr) =
  getStatus remote (Some (refresh_updateCallback remote))
    (mkSt a (tr ++ [Log "%s: refresh()" [JStr (name a)]])).
Proof. reflexivity. Qed.

Lemma updateFromJSON_object fields cb st :
  updateFromJSON (JObj fields) cb st =
  match for_each fields (copy_prop (JObj fields) cb) st with
  | (Normal _, st') =>
      if negb (strict_eq (assoc_get "name" fields) JUndefined)
      then (Normal tt,
            mkSt (set_name (accessoryNamePrefix (platform (self st')) +:+
                            ToString (assoc_get "name" fields)) (self st'))
                 (trace st'))
      else (Normal tt, st')
  | (Throw e, st') => (Throw e, st')
  end.
Proof.
  unfold updateFromJSON. run_monad. simpl enumerate.
  destruct (for_each fields (copy_prop (JObj fields) cb) st)
    as [[[]|e] st']; [|reflexivity].
  simpl get_prop. destruct (negb _); reflexivity.
Qed.

Lemma refresh_isOn_flip a tr fields :
  fetched remote a tr = inr (JObj fields) ->
  get a "isOn" = JBool false ->
  Forall (only_isOn_on a) fields ->
  In "isOn" (map fst fields) ->
  exists evs,
    trace (snd (refresh remote (mkSt a tr))) = tr ++ evs /\
    mirror_calls evs
    = if unreadable (JObj fields) then [] else isOn_mirrors a.
Proof.
  intros Hf Hoff Hall Hin.
  rewrite refresh_unfold, getStatus_unfold, fetched_log, Hf.
  destruct (unreadable (JObj fields)) eqn:Hu.
  { rewrite updateFromJSON_unreadable by exact Hu.
    exists ([Log "%s: refresh()" [JStr (name a)]] ++ statusEvents a).
    cbn [snd trace]. rewrite <- app_assoc. split; reflexivity. }
  apply unreadable_false in Hu as [_ Hown].
  rewrite updateFromJSON_object.
  destruct (for_each_isOn_flip (JObj fields) fields a
              ((tr ++ [Log "%s: refresh()" [JStr (name a)]]) ++ statusEvents a)
              Hown (has_own_enumerate (JObj fields)) Hoff Hall Hin)
    as (c & evs & Hloop & Hm).
  rewrite Hloop.
  exists ([Log "%s: refresh()" [JStr (name a)]] ++ statusEvents a ++ evs).
  split.
  - destruct c as [[]|e]; [destruct (negb _)|]; simpl snd; simpl trace;
      rewrite <- !app_assoc; reflexivity.
  - rewrite !mirror_calls_app, Hm. reflexivity.
Qed.

End EngineFacts.

(* ===================================================================== *)
(** ** Push reconciliation never writes (C1) *)
(* ===================================================================== *)

(** C1, as the code has it.  A refresh of any accessory, whatever the
    server answers, only appends log lines, GET requests and values pushed
    with the refresh context: no PUT or EXECUTE request goes out and no
    timer is armed.  When the status that comes back differs from the
    cache in [isOn] only, flipping it from false to true, the refresh
    calls the mirror function [update_isOn] exactly once on the classes
    that define it (switch, lock, door, window, window covering, garage
    door, light) and no mirror function on the others (fan, thermostat,
    action).  Two cases stand apart: a status with a field called
    [hasOwnProperty] cannot be read, and nothing is called; and an own
    property of the accessory called [update_isOn] is found in place of
    the function of the class. *)
Theorem refresh_issues_no_write `{JsBuiltins}
    (remote : list Options -> Response) (a : Accessory) (tr : list Event) :
  exists evs,
    trace (snd (refresh remote (mkSt a tr))) = tr ++ evs /\
    Forall refresh_safe evs /\
    writes evs = [] /\
    (forall fields,
        fetched remote a tr = inr (JObj fields) ->
        get a "isOn" = JBool false ->
        Forall (only_isOn_on a) fields ->
        In "isOn" (map fst fields) ->
        mirror_calls evs
        = if unreadable (JObj fields) then [] else isOn_mirrors a).
Proof.
  destruct (refresh_safe_all remote a tr) as (evs & Ht & Hsafe).
  exists evs. repeat split; auto using refresh_safe_writes.
  intros fields Hf Hoff Hall Hin.
  destruct (refresh_isOn_flip remote a tr fields Hf Hoff Hall Hin)
    as (evs' & Ht' & Hm).
  rewrite Ht in Ht'. apply app_inv_head in Ht'. subst evs'. exact Hm.
Qed.

(* ===================================================================== *)
(** ** The response repair (C2) *)
(* ===================================================================== *)

Lemma indexOf_from_none pre i :
  indexOf_from "," pre i = -1 -> 0 <= i ->
  forall rest,
    indexOf_from "," (pre +:+ "," +:+ rest) i
    = i + Z.of_nat (String.length pre).
Proof.
  revert i. induction pre as [|c pre IH]; intros i Hnone Hi rest; simpl.
  - lia.
  - simpl in Hnone. destruct (Ascii.eqb c ","); [lia|].
    rewrite IH by (auto; lia). lia.
Qed.

Lemma substring_prefix pre s :
  substring 0 (String.length pre) (pre +:+ s) = pre.
Proof.
  induction pre as [|c pre IH]; simpl.
  - destruct s; reflexivity.
  - rewrite IH. reflexivity.
Qed.

Lemma substring_all s : substring 0 (String.length s) s = s.
Proof.
  induction s as [|c s IH]; simpl; [reflexivity | rewrite IH; reflexivity].
Qed.

Lemma substring_suffix pre s :
  substring (String.length pre) (String.length s) (pre +:+ s) = s.
Proof.
  induction pre as [|c pre IH]; simpl; [apply substring_all | exact IH].
Qed.

Lemma length_append s t :
  String.length (s +:+ t) = (String.length s + String.length t)%nat.
Proof.
  induction s as [|c s IH]; simpl; [reflexivity | rewrite IH; reflexivity].
Qed.

Lemma append_assoc s t u : (s +:+ t) +:+ u = s +:+ (t +:+ u).
Proof.
  induction s as [|c s IH]; [reflexivity|].
  change (String c ((s +:+ t) +:+ u) = String c (s +:+ (t +:+ u))).
  rewrite IH. reflexivity.
Qed.

Lemma jsonFixer_comma_at pre rest :
  indexOf pre "," = -1 ->
  jsonFixer (pre +:+ "," +:+ rest) =
  if (0 <? String.length pre)%nat && (String.length pre <? 5)%nat
  then pre +:+ rest else pre +:+ "," +:+ rest.
Proof.
  intros Hnone. unfold jsonFixer, indexOf.
  rewrite (indexOf_from_none pre 0 Hnone) by lia.
  replace (0 <? 0 + Z.of_nat (String.length pre))
    with (0 <? String.length pre)%nat
    by (destruct (Nat.ltb_spec 0 (String.length pre));
        destruct (Z.ltb_spec 0 (0 + Z.of_nat (String.length pre))); lia).
  replace (0 + Z.of_nat (String.length pre) <? 5)
    with (String.length pre <? 5)%nat
    by (destruct (Nat.ltb_spec (String.length pre) 5);
        destruct (Z.ltb_spec (0 + Z.of_nat (String.length pre)) 5); lia).
  destruct (_ && _); [|reflexivity].
  unfold substr, substr_from.
  replace (Z.to_nat 0) with 0%nat by reflexivity.
  replace (Z.to_nat (0 + Z.of_nat (String.length pre)))
    with (String.length pre) by lia.
  replace (Z.to_nat (0 + Z.of_nat (String.length pre) + 1))
    with (String.length (pre +:+ ","))
    by (rewrite length_append; simpl; lia).
  rewrite substring_prefix.
  replace (pre +:+ "," +:+ rest) with ((pre +:+ ",") +:+ rest) at 2
    by apply append_assoc.
  replace (String.length (pre +:+ "," +:+ rest) - String.length (pre +:+ ","))%nat
    with (String.length rest)
    by (rewrite !length_append; simpl; lia).
  rewrite substring_suffix. reflexivity.
Qed.

(** C2, as the code has it.  Split a body at its first comma, if it has
    one.  A body without a comma is returned as it is.  When the first
    comma stands at index 1 to 4, right after the opening bracket, the
    repair removes exactly that comma, so the body parses as the text
    without it.  When the first comma stands at index 0 or at index 5 or
    later, the body is returned as it is. *)
Theorem jsonFixer_strips_comma_after_bracket `{JsBuiltins}
    (pre rest : string) :
  indexOf pre "," = -1 ->
  jsonFixer pre = pre /\
  ((1 <= String.length pre <= 4)%nat ->
     jsonFixer (pre +:+ "," +:+ rest) = pre +:+ rest /\
     JSON_parse (jsonFixer (pre +:+ "," +:+ rest)) = JSON_parse (pre +:+ rest)) /\
  ((String.length pre = 0 \/ 5 <= String.length pre)%nat ->
     jsonFixer (pre +:+ "," +:+ rest) = pre +:+ "," +:+ rest).
Proof.
  intros Hnone. split; [|split].
  - unfold jsonFixer. rewrite Hnone. reflexivity.
  - intros Hlen. rewrite (jsonFixer_comma_at pre rest Hnone).
    destruct (Nat.ltb_spec 0 (String.length pre)); [|lia].
    destruct (Nat.ltb_spec (String.length pre) 5); [|lia].
    split; reflexivity.
  - intros Hlen. rewrite (jsonFixer_comma_at pre rest Hnone).
    destruct (Nat.ltb_spec 0 (String.length pre));
      destruct (Nat.ltb_spec (String.length pre) 5); simpl; try reflexivity.
    lia.
Qed.

(* ===================================================================== *)
(** ** Writes *)
(* ===================================================================== *)

Section WriteFacts.
Context `{JsBuiltins}.
Variable remote : list Options -> Response.

(** A status fetch without a mirror callback writes nothing. *)
Lemma getStatus_writes a tr :
  writes (trace (snd (getStatus remote None (mkSt a tr)))) = writes tr.
Proof.
  assert (Hp : preserves (fun _ : Accessory => True) refresh_safe
                 (getStatus remote None)).
  { apply preserves_getStatus;
      [ intros o Ho; exact Ho | intros; exact Logic.I | auto | auto
      | intros f Hf; discriminate Hf ]. }
  destruct (Hp (mkSt a tr) Logic.I) as (_ & (evs & Ht & Hsafe) & _).
  rewrite Ht, writes_app, (refresh_safe_writes evs Hsafe). apply app_nil_r.
Qed.

(** [updateStatus] issues exactly one write: the PUT with its query
    parameters. *)
Lemma updateStatus_writes q a tr :
  writes (trace (snd (updateStatus remote q None (mkSt a tr))))
  = writes tr ++ [putRequest a q].
Proof.
  unfold updateStatus, indigoRequest. run_monad. fold (putRequest a q).
  match goal with
  | |- context [error ?r] => destruct (error r)
  end.
  - simpl. rewrite !writes_app. simpl. rewrite !app_nil_r. reflexivity.
  - match goal with
    | |- context [getStatus remote None ?st] =>
        destruct st as [a' tr'] eqn:Est
    end.
    injection Est as <- <-.
    rewrite getStatus_writes, !writes_app. simpl. rewrite !app_nil_r.
    reflexivity.
Qed.

End WriteFacts.

(* ===================================================================== *)
(** ** Fan speed (C3) *)
(* ===================================================================== *)

Section FanFacts.
Context `{JsBuiltins}.
Variable remote : list Options -> Response.

Lemma getRotationSpeed_value a tr v :
  truthy (get a "typeSupportsSpeedControl") = true ->
  fst (getRotationSpeed remote (mkSt a tr)) = Normal (Success v) ->
  v = js_mul
        (js_div (get (self (snd (getRotationSpeed remote (mkSt a tr))))
                     "speedIndex") (JNum 3))
        (JNum 100).
Proof.
  intros Hsup. unfold getRotationSpeed, query. run_monad. rewrite Hsup.
  destruct (getStatus remote None (mkSt a tr)) as [[[e|]|e] st]; simpl.
  - discriminate.
  - intros [= <-]. reflexivity.
  - discriminate.
Qed.

Lemma speedIndex_of_cases (p : Q) :
  ((666 # 10 < p)%Q /\ speedIndex_of (JNum p) = 3) \/
  ((333 # 10 < p <= 666 # 10)%Q /\ speedIndex_of (JNum p) = 2) \/
  ((0 < p <= 333 # 10)%Q /\ speedIndex_of (JNum p) = 1) \/
  ((p <= 0)%Q /\ speedIndex_of (JNum p) = 0).
Proof.
  unfold speedIndex_of, js_gt, rel, ToNumber, ToPrimitive.
  destruct (Qle_bool p (666 # 10)) eqn:E3; simpl.
  2:{ left. split; [|reflexivity].
      apply Qnot_le_lt. intros Hle. apply Qle_bool_iff in Hle. congruence. }
  apply Qle_bool_iff in E3.
  destruct (Qle_bool p (333 # 10)) eqn:E2; simpl.
  2:{ right; left. split; [|reflexivity]. split; [|exact E3].
      apply Qnot_le_lt. intros Hle. apply Qle_bool_iff in Hle. congruence. }
  apply Qle_bool_iff in E2.
  destruct (Qle_bool p 0) eqn:E1; simpl.
  2:{ right; right; left. split; [|reflexivity]. split; [|exact E2].
      apply Qnot_le_lt. intros Hle. apply Qle_bool_iff in Hle. congruence. }
  apply Qle_bool_iff in E1.
  right; right; right. split; [exact E1 | reflexivity].
Qed.

End FanFacts.

(** C3.  On a fan that supports speed control, for a percentage [p]
    between 0 and 100: [setRotationSpeed] issues one PUT whose speed index
    is 3 above 66.6, else 2 above 33.3, else 1 above 0, else 0;
    [getRotationSpeed] reports the cached speed index divided by 3 and
    multiplied by 100; so when the server reports the index that was
    written, the value read back is one of 0, 100/3, 200/3 and 100, and it
    equals [p] only if [p] is one of these four. *)
Theorem rotation_speed_round_trip `{JsBuiltins}
    (remote : list Options -> Response)
    (a : Accessory) (tr : list Event) (p : Q) :
  truthy (get a "typeSupportsSpeedControl") = true ->
  (0 <= p <= 100)%Q ->
  let k := speedIndex_of (JNum p) in
  (((666 # 10 < p)%Q /\ k = 3) \/ ((333 # 10 < p <= 666 # 10)%Q /\ k = 2) \/
   ((0 < p <= 333 # 10)%Q /\ k = 1) \/ ((p <= 0)%Q /\ k = 0)) /\
  writes (trace (snd (setRotationSpeed remote (JNum p) (mkSt a tr))))
  = writes tr ++ [putRequest a [("speedIndex", JNum (inject_Z k))]] /\
  (forall a' tr' v,
      truthy (get a' "typeSupportsSpeedControl") = true ->
      let after := getRotationSpeed remote (mkSt a' tr') in
      fst after = Normal (Success v) ->
      v = js_mul (js_div (get (self (snd after)) "speedIndex") (JNum 3))
                 (JNum 100) /\
      (get (self (snd after)) "speedIndex" = JNum (inject_Z k) ->
       exists q, v = JNum q /\ bucket q /\ (q == p -> bucket p)%Q)).
Proof.
  intros Hsup [Hlo Hhi] k.
  split; [apply speedIndex_of_cases|]. split.
  - unfold setRotationSpeed. run_monad. rewrite Hsup.
    assert (Hge : js_ge (JNum p) (JNum 0) = true)
      by (apply Qle_bool_iff; exact Hlo).
    assert (Hle : js_le (JNum p) (JNum 100) = true)
      by (apply Qle_bool_iff; exact Hhi).
    rewrite Hge, Hle. change (true && true && true) with true.
    cbv beta iota.
    pose proof (updateStatus_writes remote
                  [("speedIndex", JNum (inject_Z k))] a tr) as Hw.
    fold k.
    destruct (updateStatus remote [("speedIndex", JNum (inject_Z k))] None
                (mkSt a tr)) as [[r|e] st]; exact Hw.
  - intros a' tr' v Hsup' after Hv.
    pose proof (getRotationSpeed_value remote a' tr' v Hsup' Hv) as Heq.
    fold after in Heq. split; [exact Heq|].
    intros Hk. rewrite Hk in Heq.
    destruct (speedIndex_of_cases p) as [[_ E]|[[_ E]|[[_ E]|[_ E]]]];
      fold k in E; rewrite E in Heq; vm_compute in Heq; subst v.
    all: eexists; split; [reflexivity|]; unfold bucket.
    + split; [right; right; right; reflexivity|].
      intros Hq. right; right; right. rewrite <- Hq. reflexivity.
    + split; [right; right; left; reflexivity|].
      intros Hq. right; right; left. rewrite <- Hq. reflexivity.
    + split; [right; left; reflexivity|].
      intros Hq. right; left. rewrite <- Hq. reflexivity.
    + split; [left; reflexivity|].
      intros Hq. left. rewrite <- Hq. reflexivity.
Qed.

(* ===================================================================== *)
(** ** Temperature conversion (C4) *)
(* ===================================================================== *)

(** Rounding to one decimal place moves a number by at most 1/20. *)
Lemma round10_close (x : Q) :
  (x - (1 # 20) <= inject_Z (Qfloor (x * 10 + (1 # 2))) / 10 <= x + (1 # 20))%Q.
Proof.
  pose proof (Qfloor_le (x * 10 + (1 # 2))) as Hlo.
  pose proof (Qlt_floor (x * 10 + (1 # 2))) as Hhi.
  rewrite inject_Z_plus in Hhi.
  set (z := inject_Z (Qfloor (x * 10 + (1 # 2)))) in *.
  change (inject_Z 1) with 1%Q in Hhi.
  split.
  - apply Qle_shift_div_l; [reflexivity|]. lra.
  - apply Qle_shift_div_r; [reflexivity|]. lra.
Qed.

(** C4.  With Fahrenheit as the native unit, converting a Celsius
    temperature to the native unit and back (each way rounded to one
    decimal place) gives a temperature within 0.1 of the original; with
    Celsius as the native unit both conversions return their argument
    unchanged. *)
Theorem temperature_round_trip `{JsBuiltins} (a : Accessory) (t : Q) :
  (truthy (thermostatsInCelsius a) = false ->
   exists f c,
     celsiusToIndigoTemp a (JNum t) = JNum f /\
     indigoTempToCelsius a (JNum f) = JNum c /\
     (Qabs (c - t) <= 1 # 10)%Q) /\
  (truthy (thermostatsInCelsius a) = true ->
   forall v, celsiusToIndigoTemp a v = v /\ indigoTempToCelsius a v = v).
Proof.
  split.
  - intros Hf. unfold celsiusToIndigoTemp, indigoTempToCelsius. rewrite Hf.
    eexists; eexists. split; [reflexivity|]. split; [reflexivity|].
    rewrite !Qred_correct.
    set (F := (t * 9 / 5 + 32)%Q).
    set (f := (inject_Z (Qfloor (F * 10 + (1 # 2))) / 10)%Q).
    set (C := ((f - 32) * 5 / 9)%Q).
    pose proof (round10_close F) as [HF1 HF2]. fold f in HF1, HF2.
    pose proof (round10_close C) as [HC1 HC2].
    set (c := (inject_Z (Qfloor (C * 10 + (1 # 2))) / 10)%Q) in *.
    assert (HC : (C == (f - 32) * (5 # 9))%Q) by (unfold C; field).
    assert (HFt : (F == t * (9 # 5) + 32)%Q) by (unfold F; field).
    apply Qabs_Qle_condition. split; lra.
  - intros Ht v. unfold celsiusToIndigoTemp, indigoTempToCelsius.
    rewrite Ht. split; reflexivity.
Qed.

(* ===================================================================== *)
(** ** The status fetch in closed form *)
(* ===================================================================== *)

Section StatusFacts.
Context `{JsBuiltins}.
Variable remote : list Options -> Response.

Lemma for_each_copy_prop_None json fields a tr :
  has_own json "hasOwnProperty" = false ->
  (forall field, In field fields -> has_own json (fst field) = true) ->
  for_each fields (copy_prop json None) (mkSt a tr)
  = (Normal tt, mkSt (fold_left copy_one fields a) tr).
Proof.
  intros Hown. revert a.
  induction fields as [|[k v] fields IH]; intros a Hkeys; [reflexivity|].
  rewrite for_each_cons.
  assert (Hstep : copy_prop json None (k, v) (mkSt a tr)
                  = (Normal tt, mkSt (copy_one a (k, v)) tr)).
  { unfold copy_prop, copy_one, hasOwnProperty; simpl fst; simpl snd.
    destruct (negb (String.eqb k "name")); [|reflexivity].
    rewrite Hown. run_monad.
    pose proof (Hkeys (k, v) (or_introl eq_refl)) as Hk.
    cbn [fst] in Hk. rewrite Hk. run_monad.
    cbn [andb]. destruct (differs a k v); reflexivity. }
  rewrite Hstep. simpl fold_left. apply IH.
  intros field Hf. apply Hkeys. right. exact Hf.
Qed.

Lemma updateFromJSON_None json a tr :
  updateFromJSON json None (mkSt a tr)
  = (if unreadable json then Throw "TypeError" else Normal tt,
     mkSt (updated json a) tr).
Proof.
  unfold updated. destruct (unreadable json) eqn:Hu.
  - apply updateFromJSON_unreadable. exact Hu.
  - apply unreadable_false in Hu as [Hnn Hown].
    unfold updateFromJSON, bind.
    rewrite (for_each_copy_prop_None json _ a tr Hown
               (has_own_enumerate json)).
    destruct json; try discriminate Hnn; cbv iota; try reflexivity.
    all: destruct (negb (strict_eq _ JUndefined)); reflexivity.
Qed.

(** [getStatus] without a mirror callback. *)
Lemma getStatus_None a tr :
  getStatus remote None (mkSt a tr) =
  match fetched remote a tr with
  | inl msg =>
      (Normal (Some msg), mkSt a (tr ++ statusEvents a ++ [Log msg []]))
  | inr json =>
      (if unreadable json then Throw "TypeError" else Normal None,
       mkSt (updated json a) (tr ++ statusEvents a))
  end.
Proof.
  rewrite getStatus_unfold. destruct (fetched remote a tr) as [msg|json].
  - reflexivity.
  - rewrite updateFromJSON_None. destruct (unreadable json); reflexivity.
Qed.



Lemma writes_statusEvents a : writes (statusEvents a) = [].
Proof.
  unfold writes, statusEvents; simpl. rewrite filter_cons_False; [reflexivity|].
  intros Hne; apply Hne; reflexivity.
Qed.

End StatusFacts.

(* ===================================================================== *)
(** ** Target temperature (C5) *)
(* ===================================================================== *)


(* ===================================================================== *)
(** ** The discovered list: bound and order (C6) *)
(* ===================================================================== *)

Lemma compareNames_le a b :
  (compareNames a b <=? 0) = String.leb (name a) (name b).
Proof.
  unfold compareNames, String.ltb, String.leb.
  rewrite (String.compare_antisym (name a) (name b)).
  destruct (String.compare (name b) (name a)); reflexivity.
Qed.

Lemma insert_sorted_perm {A} (cmp : A -> A -> Z) x l :
  Permutation (insert_sorted cmp x l) (x :: l).
Proof.
  induction l as [|y l IH]; simpl; [reflexivity|].
  destruct (cmp x y <=? 0); [reflexivity|].
  rewrite IH. apply perm_swap.
Qed.

Lemma Array_sort_perm {A} (cmp : A -> A -> Z) l :
  Permutation (Array_sort cmp l) l.
Proof.
  induction l as [|x l IH]; simpl; [reflexivity|].
  rewrite insert_sorted_perm. constructor. exact IH.
Qed.

Lemma insert_sorted_Sorted x l :
  Sorted name_le l -> Sorted name_le (insert_sorted compareNames x l).
Proof.
  induction 1 as [|y l Hs IH Hhd]; simpl.
  - repeat constructor.
  - rewrite compareNames_le.
    destruct (String.leb (name x) (name y)) eqn:Exy.
    + constructor; [constructor; assumption | constructor; exact Exy].
    + constructor; [exact IH|].
      assert (Hyx : name_le y x).
      { destruct (String.leb_total (name x) (name y)) as [Hle|Hle];
          [congruence | exact Hle]. }
      destruct Hhd as [|z l' Hyz]; simpl.
      * constructor; exact Hyx.
      * rewrite compareNames_le.
        destruct (String.leb (name x) (name z)); constructor; assumption.
Qed.

Lemma Array_sort_Sorted l : Sorted name_le (Array_sort compareNames l).
Proof.
  induction l as [|x l IH]; simpl; [constructor|].
  apply insert_sorted_Sorted, IH.
Qed.

(** The final function of [accessories], evaluated. *)
Lemma accessories_done_spec asyncError p tr :
  let found := foundAccessories p in
  let res := accessories_done asyncError (mkSt p tr) in
  fst res = Normal (Array_sort compareNames (take 99 found)) /\
  exists evs,
    trace (snd res) = tr ++ evs /\
    warning_count evs = if (99 <? length found)%nat then 1%nat else 0%nat.
Proof.
  intros found res. unfold res, accessories_done. run_monad.
  destruct asyncError as [e|]; cbn [self trace fst snd] in *.
  all: fold found.
  all: destruct (Nat.ltb_spec 99 (length found)) as [Hlt|Hge].
  all: cbn [self trace fst snd foundAccessories set_foundAccessories].
  all: split;
    [ try reflexivity; rewrite (take_ge found 99) by lia; reflexivity |].
  all: eexists; split; [rewrite <- ?app_assoc; reflexivity | reflexivity].
Qed.

Lemma accessories_after_discovery `{JsBuiltins}
    (remote : list Options -> Response) st asyncError st1 :
  discovery remote st = (Normal asyncError, st1) ->
  accessories remote st = accessories_done asyncError st1.
Proof. intros Hd. unfold accessories, bind. rewrite Hd. reflexivity. Qed.

(** C6, as the code has it.  When the discovery pass is over,
    [accessories] keeps the first 99 accessories in discovery order (and
    logs the warning once if there were more), sorts what it kept by
    display name, and returns that list: it is sorted, it is a
    rearrangement of the first 99 discovered, and it has at most 99
    entries. *)
Theorem accessories_sorts_first_99_discovered `{JsBuiltins}
    (remote : list Options -> Response) (st : St Platform) :
  match discovery remote st with
  | (Throw _, _) => True
  | (Normal asyncError, st1) =>
      let found := foundAccessories (self st1) in
      let kept := take 99 found in
      let res := accessories remote st in
      fst res = Normal (Array_sort compareNames kept) /\
      Sorted name_le (Array_sort compareNames kept) /\
      Permutation (Array_sort compareNames kept) kept /\
      length (Array_sort compareNames kept) = Nat.min 99 (length found) /\
      exists evs,
        trace (snd res) = trace st1 ++ evs /\
        warning_count evs = if (99 <? length found)%nat then 1%nat else 0%nat
  end.
Proof.
  destruct (discovery remote st) as [[asyncError|e] st1] eqn:Hd; [|exact Logic.I].
  intros found kept res.
  assert (Hres : res = accessories_done asyncError st1)
    by apply (accessories_after_discovery remote st asyncError st1 Hd).
  destruct st1 as [p tr].
  destruct (accessories_done_spec asyncError p tr) as [Hl Hevs].
  rewrite Hres. split; [exact Hl|].
  split; [apply Array_sort_Sorted|].
  split; [apply Array_sort_perm|].
  split; [|exact Hevs].
  rewrite (Permutation_length (Array_sort_perm compareNames kept)).
  unfold kept. rewrite length_take. reflexivity.
Qed.

(* ===================================================================== *)
(** ** Include and exclude lists (C7) *)
(* ===================================================================== *)

Section FilterFacts.
Context `{JsBuiltins}.
Variable remote : list Options -> Response.

Lemma strict_eq_JStr y s : strict_eq y (JStr s) = true <-> y = JStr s.
Proof.
  destruct y; simpl; split; try discriminate.
  - intros E. apply String.eqb_eq in E. congruence.
  - intros [= ->]. apply String.eqb_refl.
Qed.

Lemma Array_indexOf_from_spec l s i :
  0 <= i ->
  (Array_indexOf_from l (JStr s) i = -1 /\ ~ In (JStr s) l) \/
  (i <= Array_indexOf_from l (JStr s) i /\ In (JStr s) l).
Proof.
  revert i. induction l as [|y l IH]; intros i Hi; simpl.
  - left. split; [reflexivity | tauto].
  - destruct (strict_eq y (JStr s)) eqn:E.
    + apply strict_eq_JStr in E. right. split; [lia | left; exact E].
    + assert (Hne : y <> JStr s).
      { intros Heq. apply strict_eq_JStr in Heq. congruence. }
      destruct (IH (i + 1)) as [[Hn Hnot]|[Hle Hin]]; [lia | |].
      * left. split; [exact Hn | tauto].
      * right. split; [lia | right; exact Hin].
Qed.

Lemma Array_indexOf_found l s : 0 <= Array_indexOf l (JStr s) <-> In (JStr s) l.
Proof.
  unfold Array_indexOf.
  destruct (Array_indexOf_from_spec l s 0) as [[Hn Hnot]|[Hle Hin]]; [lia | |].
  - rewrite Hn. split; [lia | tauto].
  - tauto.
Qed.

Lemma includeItemId_spec p id :
  includeItemId p id = true <->
  match includeIds p with
  | None => True
  | Some ids => In (JStr (ToString id)) ids
  end /\
  match excludeIds p with
  | None => True
  | Some ids => ~ In (JStr (ToString id)) ids
  end.
Proof.
  unfold includeItemId.
  destruct (includeIds p) as [inc|]; destruct (excludeIds p) as [exc|].
  all: try pose proof (Array_indexOf_found inc (ToString id)) as Hi.
  all: try pose proof (Array_indexOf_found exc (ToString id)) as He.
  all: repeat match goal with
         | |- context [?x <? 0] => destruct (Z.ltb_spec x 0)
         | |- context [0 <=? ?x] => destruct (Z.leb_spec 0 x)
         end.
  all: intuition (try discriminate; try lia).
Qed.

(** When nothing is included, discovery leaves the platform's list
    empty. *)
Lemma discovery_excluded p :
  (forall id, includeItemId p id = false) ->
  preserves (fun pl => config pl = p /\ foundAccessories pl = [])
            (fun _ => True) (discovery remote).
Proof.
  intros Hex. unfold discovery.
  apply preserves_this; intros pl Hpl.
  apply preserves_eachSeries. intros requestURL.
  unfold discoverAccessories.
  apply preserves_this; intros pl1 Hpl1.
  apply preserves_bind; [apply preserves_indigoRequestJSON; auto|].
  intros [msg|json]; [apply preserves_ret|].
  apply preserves_eachSeries. intros item.
  unfold addAccessory, member.
  apply preserves_bind; [destruct item; preserves_auto|]. intros restURL.
  apply preserves_this; intros pl2 [Hc2 Hf2].
  apply preserves_bind; [apply preserves_indigoRequestJSON; auto|].
  intros [msg|detail]; [preserves_auto|].
  apply preserves_bind; [destruct detail; preserves_auto|]. intros restParent.
  apply preserves_bind; [preserves_auto|]. intros _.
  apply preserves_bind; [|intros _; apply preserves_ret].
  rewrite Hc2, Hex. preserves_auto.
Qed.

End FilterFacts.

(* ===================================================================== *)
(** ** The update listener (C8) *)
(* ===================================================================== *)

Section ListenerFacts.
Context `{JsBuiltins}.
Variable remote : list Options -> Response.

Lemma statuses_app tr tr' : statuses (tr ++ tr') = statuses tr ++ statuses tr'.
Proof. unfold statuses. apply omap_app. Qed.

Lemma refresh_safe_statuses evs : Forall refresh_safe evs -> statuses evs = [].
Proof.
  induction 1 as [|e evs He _ IH]; [reflexivity|].
  destruct e; simpl in *; try exact IH. destruct He.
Qed.

Lemma statuses_statusEvents a : statuses (statusEvents a) = [].
Proof. reflexivity. Qed.

Lemma prefix_update k : String.prefix "update_" ("update_" +:+ k) = true.
Proof.
  repeat (change (String ?a ?b +:+ ?t) with (String a (b +:+ t))).
  change (EmptyString +:+ k) with k. simpl.
  destruct k; reflexivity.
Qed.

Lemma mirrors_in_place_props a json k :
  mirrors_in_place a json = true -> props a !! ("update_" +:+ k) = None.
Proof.
  unfold mirrors_in_place. rewrite forallb_app. intros Hm.
  apply andb_prop in Hm as [Hm _]. rewrite forallb_forall in Hm.
  destruct (props a !! ("update_" +:+ k)) as [w|] eqn:E; [|reflexivity].
  apply elem_of_map_to_list in E. apply list_elem_of_In in E.
  assert (Hin : In ("update_" +:+ k) (map fst (map_to_list (props a)))).
  { apply in_map_iff. exists ("update_" +:+ k, w). split; [reflexivity|exact E]. }
  specialize (Hm _ Hin). rewrite prefix_update in Hm. discriminate Hm.
Qed.

Lemma mirrors_in_place_keys a json k v j :
  mirrors_in_place a json = true -> In (k, v) (enumerate json) ->
  "update_" +:+ j <> k.
Proof.
  unfold mirrors_in_place. rewrite forallb_app. intros Hm Hin.
  apply andb_prop in Hm as [_ Hm]. rewrite forallb_forall in Hm.
  assert (Hk : In k (map fst (enumerate json))).
  { apply in_map_iff. exists (k, v). split; [reflexivity|exact Hin]. }
  specialize (Hm _ Hk). intros <-. rewrite prefix_update in Hm.
  discriminate Hm.
Qed.

(** Copying a status during a refresh sends no HTTP status on its own.  It
    returns when the status can be read and no property hides an
    [update_] function. *)
Lemma updateFromJSON_refresh json a tr :
  exists c st',
    updateFromJSON json (Some (refresh_updateCallback remote)) (mkSt a tr)
    = (c, st') /\
    statuses (trace st') = statuses tr /\
    (unreadable json = false -> mirrors_in_place a json = true ->
     c = Normal tt).
Proof.
  assert (Hr : preserves (is_a (variant a)) refresh_safe
                 (updateFromJSON json (Some (refresh_updateCallback remote)))).
  { apply preserves_updateFromJSON; [discriminate | auto | auto |].
    intros f [= <-] prop v.
    apply (refresh_updateCallback_inv remote false _ (variant a));
      [intros a0 Ha0; exact Ha0 | discriminate]. }
  destruct (Hr (mkSt a tr) eq_refl) as (_ & (evs & Ht & Hsafe) & _).
  destruct (updateFromJSON json _ (mkSt a tr)) as [c st'] eqn:E.
  exists c, st'. split; [reflexivity|]. split.
  { simpl in Ht. rewrite Ht, statuses_app, (refresh_safe_statuses evs Hsafe).
    apply app_nil_r. }
  intros Hu Hm.
  set (I := fun x : Accessory =>
              variant x = variant a /\
              forall k, props x !! ("update_" +:+ k) = None).
  assert (Hs : respects true I refresh_safe
                 (updateFromJSON json (Some (refresh_updateCallback remote)))).
  { apply preserves_updateFromJSON.
    - intros _. exact Hu.
    - intros k v x Hin [Hv Hx]. split; [exact Hv|]. intros j. simpl.
      rewrite lookup_insert_ne;
        [apply Hx | intros E'; eapply mirrors_in_place_keys; eauto].
    - intros n x Hx. exact Hx.
    - intros f [= <-] prop v.
      apply (refresh_updateCallback_inv remote true I (variant a)).
      + intros x [Hv _]. exact Hv.
      + intros _ x [_ Hx]. apply Hx. }
  destruct (Hs (mkSt a tr)) as (_ & _ & Hn).
  { split; [reflexivity|]. intros k.
    eapply mirrors_in_place_props. exact Hm. }
  destruct (Hn eq_refl) as [[] Hnormal]. rewrite E in Hnormal. exact Hnormal.
Qed.

End ListenerFacts.

(** C8.  A notification for an identifier that is not in the accessory
    map is answered with 404 and changes nothing.  For a known identifier
    the accessory's status is fetched: if the fetch fails (transport error
    or unparsable body) the answer is 500 and the platform, and with it
    the accessory and its cached properties, is exactly as before; if the
    fetch yields a status and the refresh returns, the answer is 200.  The
    refresh does return when the status can be read and neither it nor the
    accessory has a property whose name begins with [update_].  When the
    refresh throws, as it does on a status that is [null] or has a field
    called [hasOwnProperty], no answer is sent. *)
Theorem updateAccessory_status `{JsBuiltins}
    (remote : list Options -> Response)
    (p : Platform) (tr : list Event) (id : string) :
  let res := updateAccessory remote id (mkSt p tr) in
  match accessoryMap p !! id with
  | None =>
      statuses (trace (snd res)) = statuses tr ++ [404] /\ self (snd res) = p
  | Some accessory =>
      match fetched remote accessory tr with
      | inl msg =>
          statuses (trace (snd res)) = statuses tr ++ [500] /\
          self (snd res) = p /\
          accessoryMap (self (snd res)) !! id = Some accessory
      | inr json =>
          if unreadable json
          then fst res = Throw "TypeError" /\
               statuses (trace (snd res)) = statuses tr
          else match fst res with
               | Normal _ => statuses (trace (snd res)) = statuses tr ++ [200]
               | Throw _ => statuses (trace (snd res)) = statuses tr
               end /\
               (mirrors_in_place accessory json = true -> fst res = Normal tt)
      end
  end.
Proof.
  intros res. unfold res, updateAccessory. run_monad.
  destruct (accessoryMap p !! id) as [accessory|] eqn:Hid.
  2:{ cbn [self trace fst snd]. rewrite !statuses_app. simpl.
      rewrite !app_nil_r. split; reflexivity. }
  cbv beta iota. unfold on_accessory. cbn [self trace].
  rewrite refresh_unfold, getStatus_unfold, !fetched_log.
  destruct (fetched remote accessory tr) as [msg|json].
  - cbn [self trace fst snd]. rewrite !statuses_app.
    assert (Hsame : set_accessoryMap (<[id := accessory]> (accessoryMap p)) p = p).
    { unfold set_accessoryMap. rewrite (insert_id _ _ _ Hid).
      destruct p; reflexivity. }
    rewrite Hsame. simpl. rewrite !app_nil_r. auto.
  - destruct (unreadable json) eqn:Hnn.
    + rewrite updateFromJSON_unreadable by exact Hnn.
      cbn [self trace fst snd]. rewrite !statuses_app. simpl.
      rewrite !app_nil_r. auto.
    + match goal with
      | |- context [updateFromJSON json ?cb (mkSt accessory ?t)] =>
          destruct (updateFromJSON_refresh remote json accessory t)
            as (c & st' & Hu & Hs & Hok); rewrite Hu
      end.
      destruct c as [[]|e]; cbn [self trace fst snd];
        rewrite ?statuses_app, Hs, !statuses_app; simpl;
        rewrite ?app_nil_r; (split; [reflexivity|]).
      * reflexivity.
      * intros Hm. discriminate (Hok Hnn Hm).
Qed.

(* ===================================================================== *)
(** ** Unsupported operations (C9) *)
(* ===================================================================== *)

(** Without on/off support [getOnState] does nothing at all: no request,
    no log line, and its callback is never invoked. *)
Lemma getOnState_unsupported `{JsBuiltins}
    (remote : list Options -> Response) a tr :
  truthy (get a "typeSupportsOnOff") = false ->
  getOnState remote (mkSt a tr) = (Normal NoReply, mkSt a tr).
Proof. intros Hno. unfold getOnState. run_monad. rewrite Hno. reflexivity. Qed.

(* ===================================================================== *)
(** ** The get handlers *)
(* ===================================================================== *)

Section GetterFacts.
Context `{JsBuiltins}.
Variable remote : list Options -> Response.


Ltac each_handler :=
  repeat match goal with
         | |- Forall _ (_ :: _) => constructor
         | |- Forall _ [] => constructor
         end.



(** X12.  When the status cannot be fetched (transport error or
    unparsable body), every get handler that fetches hands the error
    message to its callback; the cache is left as it was, and the handler
    made its one request and logged the message. *)
Theorem getters_pass_fetch_error (a : Accessory) (tr : list Event)
    (msg : string) :
  fetched remote a tr = inl msg ->
  Forall (fun hg =>
            snd hg a = true ->
            fst hg (mkSt a tr)
            = (Normal (Failure msg),
               mkSt a (tr ++ statusEvents a ++ [Log msg []])))
         (fetching_getters remote).
Proof.
  intros Hf. unfold fetching_getters. each_handler; cbn [fst snd]; intros Hg.
  all: unfold getOnState, getLockCurrentState, getLockTargetState, getPosition,
         getCurrentDoorState, getTargetDoorState, getBrightness,
         getRotationSpeed, getCurrentHeatingCooling, getTargetHeatingCooling,
         getCurrentTemperature, getTargetTemperature,
         getCoolingThresholdTemperature, getHeatingThresholdTemperature,
         getCurrentRelativeHumidity, getTemperatureValue, query.
  all: run_monad; rewrite ?Hg; rewrite getStatus_None, Hf; reflexivity.
Qed.

End GetterFacts.

(* ===================================================================== *)
(** ** The set handlers *)
(* ===================================================================== *)

Section SetterFacts.
Context `{JsBuiltins}.
Variable remote : list Options -> Response.

Lemma timers_app tr tr' : timers (tr ++ tr') = timers tr ++ timers tr'.
Proof. unfold timers. apply omap_app. Qed.

Lemma pushes_app tr tr' : pushes (tr ++ tr') = pushes tr ++ pushes tr'.
Proof. unfold pushes. apply omap_app. Qed.

Lemma writes_putEvents a q : writes (putEvents a q) = [putRequest a q].
Proof.
  unfold writes, putEvents; simpl. rewrite filter_cons_True; [reflexivity|].
  discriminate.
Qed.

(** [updateStatus] in one step. *)
Lemma updateStatus_unfold q a tr :
  updateStatus remote q None (mkSt a tr) =
  match error (remote (requests tr ++ [putRequest a q])) with
  | Some e => (Normal (Some e), mkSt a (tr ++ putEvents a q))
  | None => getStatus remote None (mkSt a (tr ++ putEvents a q))
  end.
Proof.
  unfold updateStatus, indigoRequest. run_monad. fold (putRequest a q).
  assert (Hh : requests (((tr ++ [Log "updateStatus of %s: %s"
                                       [JStr (name a); JObj q]])
                           ++ [Queued (putRequest a q)])
                          ++ [Log "Indigo request: %s"
                                [JStr (url (putRequest a q))]])
               = requests tr ++ [putRequest a q]).
  { rewrite !requests_app. simpl. rewrite !app_nil_r. reflexivity. }
  rewrite Hh. unfold putEvents.
  destruct (error _); run_monad; rewrite <- !app_assoc; reflexivity.
Qed.


(** What a write leaves in the trace when it returns: its three events,
    then those of the status read, if any. *)
Lemma updateStatus_trace q a tr r st :
  updateStatus remote q None (mkSt a tr) = (Normal r, st) ->
  exists evs,
    trace st = tr ++ putEvents a q ++ evs /\
    timers evs = [] /\ writes evs = [].
Proof.
  rewrite updateStatus_unfold. destruct (error _) as [e|].
  - intros [= _ <-]. exists []. rewrite app_nil_r. auto.
  - rewrite getStatus_None.
    destruct (fetched remote a (tr ++ putEvents a q)) as [msg|json].
    + intros [= _ <-]. exists (statusEvents a ++ [Log msg []]).
      rewrite <- app_assoc. split; [reflexivity|].
      split; [reflexivity|].
      rewrite writes_app, writes_statusEvents. reflexivity.
    + intros [= _ <-]. exists (statusEvents a). cbn [trace].
      rewrite <- app_assoc. split; [reflexivity|].
      split; [reflexivity | apply writes_statusEvents].
Qed.

(** A set handler that writes and then arms a timer. *)
Lemma write_then_timer q ms c v a tr tr0 r st :
  (r' <- updateStatus remote q None ;;
   emit (SetTimeout ms c v REFRESH_CONTEXT) ;;
   ret (reply_of r')) (mkSt a (tr ++ tr0)) = (Normal r, st) ->
  timers tr0 = [] -> writes tr0 = [] ->
  timers (trace st) = timers tr ++ [(ms, c, v, REFRESH_CONTEXT)] /\
  writes (trace st) = writes tr ++ [putRequest a q].
Proof.
  intros Hrun Ht0 Hw0. unfold bind in Hrun.
  destruct (updateStatus remote q None (mkSt a (tr ++ tr0)))
    as [[r'|e] st'] eqn:Hu; [|discriminate Hrun].
  destruct (updateStatus_trace q a (tr ++ tr0) r' st' Hu)
    as (evs & Htr & Ht & Hw).
  unfold emit, ret in Hrun. injection Hrun as _ <-. cbn [trace].
  rewrite Htr, !timers_app, !writes_app, Ht0, Hw0, Ht, Hw, writes_putEvents.
  simpl. rewrite !app_nil_r. auto.
Qed.

(** A set handler that only writes. *)
Lemma write_only q a tr tr0 :
  writes tr0 = [] ->
  writes (trace (snd ((r <- updateStatus remote q None ;; ret (reply_of r))
                        (mkSt a (tr ++ tr0)))))
  = writes tr ++ [putRequest a q].
Proof.
  intros Hw0. unfold bind.
  pose proof (updateStatus_writes remote q a (tr ++ tr0)) as Hw.
  destruct (updateStatus remote q None (mkSt a (tr ++ tr0))) as [[r|e] st];
    cbn [snd trace ret] in *; rewrite Hw, writes_app, Hw0, app_nil_r;
    reflexivity.
Qed.

Lemma out_of_range_bounds v :
  out_of_range v -> js_ge v (JNum 0) && js_le v (JNum 100) = false.
Proof.
  unfold out_of_range, js_ge, js_le, rel.
  change (ToNumber (JNum 0)) with (Some 0%Q).
  change (ToNumber (JNum 100)) with (Some 100%Q).
  destruct (ToNumber v) as [q|]; [|reflexivity].
  intros [Hlo|Hhi].
  - destruct (Qle_bool 0 q) eqn:E; [|reflexivity].
    apply Qle_bool_iff in E. lra.
  - destruct (Qle_bool q 100) eqn:E; [|apply andb_false_r].
    apply Qle_bool_iff in E. lra.
Qed.

End SetterFacts.

Section SetHandlers.
Context `{JsBuiltins}.
Variable remote : list Options -> Response.

(** X14.  Outside a refresh, a set on a device that lacks the capability
    (or, for brightness and rotation speed, with a value that is not a
    number between 0 and 100) is answered with an error; the device is not
    contacted and no timer is armed: all that is left is the handler's log
    line ([setRotationSpeed] has none). *)
Theorem unsupported_set_is_refused (a : Accessory) (tr : list Event)
    (v context : JsValue) :
  loose_eq context REFRESH_CONTEXT = false ->
  let st := mkSt a tr in
  let onOff := truthy (get a "typeSupportsOnOff") in
  let dim := truthy (get a "typeSupportsDim") in
  let speed := truthy (get a "typeSupportsSpeedControl") in
  let refused (res : Completion (Reply unit) * St Accessory) msg logged :=
    res = (Normal (Failure msg), mkSt a (tr ++ logged)) in
  (onOff = false ->
   refused (setOnState remote v context st)
     "Accessory does not support on/off"
     [Log "%s: setOnState(%s)" [JStr (name a); v]] /\
   refused (setLockTargetState remote v context st)
     "Accessory does not support on/off"
     [Log "%s: setLockTargetState(%s)" [JStr (name a); v]] /\
   refused (setTargetDoorState remote v context st)
     "Accessory does not support on/off"
     [Log "%s: setTargetPosition(%s)" [JStr (name a); v]]) /\
  (onOff = false -> dim = false ->
   refused (setTargetPosition remote v context st)
     "Accessory does not support on/off or dim"
     [Log "%s: setTargetPosition(%s)" [JStr (name a); v]]) /\
  (dim = false \/ out_of_range v ->
   refused (setBrightness remote v context st)
     "Accessory does not support brightness"
     [Log "%s: setBrightness(%d)" [JStr (name a); v]]) /\
  (speed = false \/ out_of_range v ->
   refused (setRotationSpeed remote v st)
     "Accessory does not support rotation speed" []).
Proof.
  intros Hctx st onOff dim speed refused. unfold refused, st.
  split; [|split; [|split]].
  - intros Hno. unfold onOff in Hno.
    unfold setOnState, setLockTargetState, setTargetDoorState. run_monad.
    rewrite Hctx, Hno. auto.
  - intros Hno Hnd. unfold onOff in Hno. unfold dim in Hnd.
    unfold setTargetPosition. run_monad. rewrite Hctx, Hno, Hnd. reflexivity.
  - intros Hbad. unfold setBrightness. run_monad. rewrite Hctx.
    assert (Hg : truthy (get a "typeSupportsDim") && js_ge v (JNum 0)
                 && js_le v (JNum 100) = false).
    { rewrite <- andb_assoc. destruct Hbad as [Hnd|Hout].
      - unfold dim in Hnd. rewrite Hnd. reflexivity.
      - rewrite (out_of_range_bounds v Hout). apply andb_false_r. }
    rewrite Hg. reflexivity.
  - intros Hbad. unfold setRotationSpeed. run_monad.
    assert (Hg : truthy (get a "typeSupportsSpeedControl")
                 && js_ge v (JNum 0) && js_le v (JNum 100) = false).
    { rewrite <- andb_assoc. destruct Hbad as [Hnd|Hout].
      - unfold speed in Hnd. rewrite Hnd. reflexivity.
      - rewrite (out_of_range_bounds v Hout). apply andb_false_r. }
    rewrite Hg, app_nil_r. reflexivity.
Qed.

(** X15.  The On characteristic of a switch, a light and a fan, outside a
    refresh and with on/off support: a set that returns has written
    [isOn], 1 for a truthy value and 0 otherwise, and has armed no timer;
    a get answers with a boolean, the truth value of the [isOn] just
    fetched. *)
Theorem on_state_set_and_get (a : Accessory) (tr : list Event)
    (v context : JsValue) :
  loose_eq context REFRESH_CONTEXT = false ->
  truthy (get a "typeSupportsOnOff") = true ->
  (forall r st,
      setOnState remote v context (mkSt a tr) = (Normal r, st) ->
      writes (trace st)
      = writes tr ++
        [putRequest a [("isOn", if truthy v then JNum 1 else JNum 0)]] /\
      timers (trace st) = timers tr) /\
  (forall st1,
      getStatus remote None (mkSt a tr) = (Normal None, st1) ->
      fst (getOnState remote (mkSt a tr))
      = Normal (Success (JBool (truthy (get (self st1) "isOn"))))).
Proof.
  intros Hctx Hsup. split.
  - intros r st. unfold setOnState. run_monad. rewrite Hctx, Hsup.
    set (q := [("isOn", if truthy v then JNum 1 else JNum 0)]).
    destruct (updateStatus remote q None _) as [[r'|e] st'] eqn:Hu;
      [|discriminate].
    intros [= _ <-].
    destruct (updateStatus_trace remote q a _ r' st' Hu)
      as (evs & Htr & Ht & Hw).
    rewrite Htr, !writes_app, !timers_app, Hw, Ht, writes_putEvents.
    simpl. rewrite !app_nil_r. auto.
  - intros st1 Hfetch. unfold getOnState, bind. run_monad. rewrite Hsup.
    rewrite Hfetch. reflexivity.
Qed.

(** X16.  The lock and the garage door, outside a refresh and with on/off
    support: a set that returns has written [isOn] (1 for SECURED, 1 for
    OPEN, 0 otherwise) and has armed a one-second timer that pushes the
    matching current state with the refresh context, whether or not the
    write went through. *)
Theorem lock_and_door_set_arm_timer (a : Accessory) (tr : list Event)
    (v context : JsValue) :
  loose_eq context REFRESH_CONTEXT = false ->
  truthy (get a "typeSupportsOnOff") = true ->
  (forall r st,
      setLockTargetState remote v context (mkSt a tr) = (Normal r, st) ->
      let secured := loose_eq v HAP.LockTargetState.SECURED in
      writes (trace st)
      = writes tr ++
        [putRequest a [("isOn", if secured then JNum 1 else JNum 0)]] /\
      timers (trace st)
      = timers tr ++
        [(1000, LockCurrentState,
          if secured then HAP.LockCurrentState.SECURED
          else HAP.LockCurrentState.UNSECURED, REFRESH_CONTEXT)]) /\
  (forall r st,
      setTargetDoorState remote v context (mkSt a tr) = (Normal r, st) ->
      let open := loose_eq v HAP.TargetDoorState.OPEN in
      writes (trace st)
      = writes tr ++
        [putRequest a [("isOn", if open then JNum 1 else JNum 0)]] /\
      timers (trace st)
      = timers tr ++
        [(1000, CurrentDoorState,
          if open then HAP.CurrentDoorState.OPEN
          else HAP.CurrentDoorState.CLOSED, REFRESH_CONTEXT)]).
Proof.
  intros Hctx Hsup. split; intros r st Hrun.
  - assert (Heq :
      setLockTargetState remote v context (mkSt a tr)
      = (r' <- updateStatus remote
                 [("isOn", if loose_eq v HAP.LockTargetState.SECURED
                           then JNum 1 else JNum 0)] None ;;
         emit (SetTimeout 1000 LockCurrentState
                 (if loose_eq v HAP.LockTargetState.SECURED
                  then HAP.LockCurrentState.SECURED
                  else HAP.LockCurrentState.UNSECURED) REFRESH_CONTEXT) ;;
         ret (reply_of r'))
          (mkSt a (tr ++ [Log "%s: setLockTargetState(%s)"
                            [JStr (name a); v]]))).
    { unfold setLockTargetState. run_monad. rewrite Hctx, Hsup. reflexivity. }
    rewrite Heq in Hrun.
    destruct (write_then_timer remote _ _ _ _ _ _ _ _ _ Hrun eq_refl eq_refl)
      as [Ht Hw].
    rewrite Ht, Hw. auto.
  - assert (Heq :
      setTargetDoorState remote v context (mkSt a tr)
      = (r' <- updateStatus remote
                 [("isOn", if loose_eq v HAP.TargetDoorState.OPEN
                           then JNum 1 else JNum 0)] None ;;
         emit (SetTimeout 1000 CurrentDoorState
                 (if loose_eq v HAP.TargetDoorState.OPEN
                  then HAP.CurrentDoorState.OPEN
                  else HAP.CurrentDoorState.CLOSED) REFRESH_CONTEXT) ;;
         ret (reply_of r'))
          (mkSt a (tr ++ [Log "%s: setTargetPosition(%s)"
                            [JStr (name a); v]]))).
    { unfold setTargetDoorState. run_monad. rewrite Hctx, Hsup. reflexivity. }
    rewrite Heq in Hrun.
    destruct (write_then_timer remote _ _ _ _ _ _ _ _ _ Hrun eq_refl eq_refl)
      as [Ht Hw].
    rewrite Ht, Hw. auto.
Qed.

End SetHandlers.

Section MoreSetHandlers.
Context `{JsBuiltins}.
Variable remote : list Options -> Response.

(** X17.  The position handlers of a door, window or window covering,
    outside a refresh.  A set that returns has written the position as
    [brightness], unchecked, on a dimmable device, and [isOn], 1 for a
    position above 0, on an on/off device; either way it has armed a
    one-second timer that pushes the requested position as the current
    position.  A get answers with the brightness of a dimmable device and
    with 100 or 0 for an on/off device, judged on the status just
    fetched. *)
Theorem position_set_and_get (a : Accessory) (tr : list Event)
    (v context : JsValue) :
  loose_eq context REFRESH_CONTEXT = false ->
  truthy (get a "typeSupportsOnOff") || truthy (get a "typeSupportsDim")
  = true ->
  (forall r st,
      setTargetPosition remote v context (mkSt a tr) = (Normal r, st) ->
      writes (trace st)
      = writes tr ++
        [putRequest a
           (if truthy (get a "typeSupportsDim") then [("brightness", v)]
            else [("isOn", if js_gt v (JNum 0) then JNum 1 else JNum 0)])] /\
      timers (trace st)
      = timers tr ++ [(1000, CurrentPosition, v, REFRESH_CONTEXT)]) /\
  (forall st1,
      getStatus remote None (mkSt a tr) = (Normal None, st1) ->
      fst (getPosition remote (mkSt a tr))
      = Normal (Success
                  (if truthy (get (self st1) "typeSupportsDim")
                   then get (self st1) "brightness"
                   else if truthy (get (self st1) "isOn") then JNum 100
                   else JNum 0))).
Proof.
  intros Hctx Hsup. split.
  - intros r st Hrun.
    assert (Heq :
      setTargetPosition remote v context (mkSt a tr)
      = (r' <- updateStatus remote
                 (if truthy (get a "typeSupportsDim") then [("brightness", v)]
                  else [("isOn", if js_gt v (JNum 0) then JNum 1 else JNum 0)])
                 None ;;
         emit (SetTimeout 1000 CurrentPosition v REFRESH_CONTEXT) ;;
         ret (reply_of r'))
          (mkSt a (tr ++ [Log "%s: setTargetPosition(%s)"
                            [JStr (name a); v]]))).
    { unfold setTargetPosition. run_monad. rewrite Hctx, Hsup.
      destruct (truthy (get a "typeSupportsDim")); reflexivity. }
    rewrite Heq in Hrun.
    destruct (write_then_timer remote _ _ _ _ _ _ _ _ _ Hrun eq_refl eq_refl)
      as [Ht Hw].
    rewrite Ht, Hw. auto.
  - intros st1 Hfetch. unfold getPosition, bind. run_monad. rewrite Hsup.
    rewrite Hfetch. run_monad. reflexivity.
Qed.

(** X18.  [setTargetHeatingCooling] writes one flag for each of the four
    modes HomeKit knows (0 off, 1 heat, 2 cool, 3 auto), with the string
    "true" as its value; any other number is answered with an error and
    nothing is sent. *)
Theorem setTargetHeatingCooling_modes (a : Accessory) (tr : list Event)
    (mode : Q) :
  let res := setTargetHeatingCooling remote (JNum mode) (mkSt a tr) in
  match modeKey mode with
  | Some key =>
      writes (trace (snd res))
      = writes tr ++ [putRequest a [(key, JStr "true")]]
  | None =>
      res = (Normal (Failure "Unknown target heating/cooling state"),
             mkSt a (tr ++ [Log "%s: setTargetHeatingCooling(%s)"
                              [JStr (name a); JNum mode]]))
  end.
Proof.
  intros res. unfold res, setTargetHeatingCooling, modeKey. run_monad.
  unfold HAP.TargetHeatingCoolingState.OFF, HAP.TargetHeatingCoolingState.HEAT,
    HAP.TargetHeatingCoolingState.COOL, HAP.TargetHeatingCoolingState.AUTO.
  change (loose_eq (JNum mode) (JNum 0)) with (Qeq_bool mode 0).
  change (loose_eq (JNum mode) (JNum 1)) with (Qeq_bool mode 1).
  change (loose_eq (JNum mode) (JNum 2)) with (Qeq_bool mode 2).
  change (loose_eq (JNum mode) (JNum 3)) with (Qeq_bool mode 3).
  destruct (Qeq_bool mode 0);
    [|destruct (Qeq_bool mode 1);
      [|destruct (Qeq_bool mode 2); [|destruct (Qeq_bool mode 3)]]].
  5: reflexivity.
  all: apply (write_only remote _ a tr [_]); reflexivity.
Qed.

(** X22.  An action is fired and forgotten: a truthy value outside a
    refresh queues one EXECUTE request and arms the one-second timer that
    turns the switch back off; anything else only logs.  The reply is a
    success in every case, also when the request fails, and the accessory
    is not changed. *)
Theorem executeAction_fire_and_forget (a : Accessory) (tr : list Event)
    (value context : JsValue) :
  let res := executeAction remote value context (mkSt a tr) in
  fst res = Normal (Success tt) /\ self (snd res) = a /\
  if truthy value && negb (strict_eq context REFRESH_CONTEXT)
  then requests (trace (snd res)) = requests tr ++ [executeRequest a] /\
       timers (trace (snd res))
       = timers tr ++ [(1000, On, JBool false, REFRESH_CONTEXT)]
  else trace (snd res)
       = tr ++ [Log "%s: executeAction(%s)" [JStr (name a); value]].
Proof.
  intros res. unfold res, executeAction, indigoRequest. run_monad.
  fold (executeRequest a).
  destruct (truthy value && negb (strict_eq context REFRESH_CONTEXT)).
  - match goal with
    | |- context [error ?r] => destruct (error r)
    end; cbn [fst snd self trace];
      rewrite !requests_app, !timers_app; simpl; rewrite !app_nil_r; auto.
  - auto.
Qed.

End MoreSetHandlers.

(* ===================================================================== *)
(** ** The thermostat *)
(* ===================================================================== *)

Section ThermostatFacts.
Context `{JsBuiltins}.
Variable remote : list Options -> Response.

(** Converting a number and converting the result back stays within 0.1,
    in either unit. *)
Lemma convert_and_back a a' (t : Q) :
  thermostatsInCelsius a' = thermostatsInCelsius a ->
  exists c,
    indigoTempToCelsius a' (celsiusToIndigoTemp a (JNum t)) = JNum c /\
    (Qabs (c - t) <= 1 # 10)%Q.
Proof.
  intros Hsame. unfold celsiusToIndigoTemp, indigoTempToCelsius.
  rewrite Hsame. destruct (truthy (thermostatsInCelsius a)).
  - exists t. split; [reflexivity|].
    apply Qabs_Qle_condition. split; lra.
  - eexists. split; [reflexivity|].
    rewrite !Qred_correct.
    set (F := (t * 9 / 5 + 32)%Q).
    set (f := (inject_Z (Qfloor (F * 10 + (1 # 2))) / 10)%Q).
    set (C := ((f - 32) * 5 / 9)%Q).
    pose proof (round10_close F) as [HF1 HF2]. fold f in HF1, HF2.
    pose proof (round10_close C) as [HC1 HC2].
    set (c := (inject_Z (Qfloor (C * 10 + (1 # 2))) / 10)%Q) in *.
    assert (HC : (C == (f - 32) * (5 # 9))%Q) by (unfold C; field).
    assert (HFt : (F == t * (9 # 5) + 32)%Q) by (unfold F; field).
    apply Qabs_Qle_condition. split; lra.
Qed.

(** X19.  The cooling and the heating threshold.  A set writes its key
    ([setpointCool] or [setpointHeat]) with the temperature converted to
    the native unit; when the status that a get fetches reports that value
    under the key, the get answers with a temperature within 0.1 of the
    one that was set. *)
Theorem threshold_round_trip (a : Accessory) (tr : list Event) (t : Q) :
  let T := celsiusToIndigoTemp a (JNum t) in
  let writes_key (setter : JsValue -> M Accessory (Reply unit)) key :=
    writes (trace (snd (setter (JNum t) (mkSt a tr))))
    = writes tr ++ [putRequest a [(key, T)]] in
  let reads_back (getter : M Accessory (Reply JsValue)) key :=
    forall a0 tr0 st1,
      getStatus remote None (mkSt a0 tr0) = (Normal None, st1) ->
      thermostatsInCelsius (self st1) = thermostatsInCelsius a ->
      get (self st1) key = T ->
      exists c,
        fst (getter (mkSt a0 tr0)) = Normal (Success (JNum c)) /\
        (Qabs (c - t) <= 1 # 10)%Q in
  writes_key (setCoolingThresholdTemperature remote) "setpointCool" /\
  writes_key (setHeatingThresholdTemperature remote) "setpointHeat" /\
  reads_back (getCoolingThresholdTemperature remote) "setpointCool" /\
  reads_back (getHeatingThresholdTemperature remote) "setpointHeat".
Proof.
  intros T writes_key reads_back.
  assert (Hw : forall key,
             writes_key (setTemperatureValue remote key) key).
  { intros key. unfold writes_key, setTemperatureValue. run_monad. fold T.
    apply (write_only remote _ a tr [_]). reflexivity. }
  assert (Hr : forall key, reads_back (getTemperatureValue remote key) key).
  { intros key a0 tr0 st1 Hfetch Hunit Hval.
    destruct (convert_and_back a (self st1) t Hunit) as (c & Hc & Hclose).
    exists c. split; [|exact Hclose].
    unfold getTemperatureValue, query, bind. rewrite Hfetch. run_monad.
    rewrite Hval. unfold T. rewrite Hc. reflexivity. }
  split; [apply Hw|]. split; [apply Hw|]. split; apply Hr.
Qed.

(** X20.  In auto mode (neither a heat nor a cool mode is reported) the
    target temperature that is read is the midpoint of the two setpoints,
    converted to Celsius; with the setpoints that [setTargetTemperature]
    writes for [t] in that mode, [t] converted plus and minus 5 (2 when
    the native unit is Celsius), the value read back is within 0.1 of
    [t]. *)
Theorem target_temperature_auto_round_trip
    (a : Accessory) (tr : list Event) (t : Q) (st1 : St Accessory) :
  getStatus remote None (mkSt a tr) = (Normal None, st1) ->
  let a1 := self st1 in
  let T := celsiusToIndigoTemp a1 (JNum t) in
  let d := if truthy (thermostatsInCelsius a1) then JNum 2 else JNum 5 in
  truthy (get a1 "hvacOperationModeIsHeat")
  || truthy (get a1 "hvacOperationModeIsProgramHeat")
  || truthy (get a1 "hvacOperationModeIsCool")
  || truthy (get a1 "hvacOperationModeIsProgramCool") = false ->
  get a1 "setpointCool" = js_add T d ->
  get a1 "setpointHeat" = js_sub T d ->
  exists c,
    fst (getTargetTemperature remote (mkSt a tr)) = Normal (Success (JNum c)) /\
    (Qabs (c - t) <= 1 # 10)%Q.
Proof.
  intros Hfetch a1 T d Hmode Hcool Hheat.
  apply orb_false_elim in Hmode as [Hmode Hpc].
  apply orb_false_elim in Hmode as [Hmode Hc].
  apply orb_false_elim in Hmode as [Hh Hph].
  unfold getTargetTemperature, bind. rewrite Hfetch. run_monad.
  fold a1. rewrite Hh, Hph, Hc, Hpc, Hcool, Hheat. cbn [orb fst].
  subst T d. unfold celsiusToIndigoTemp, indigoTempToCelsius.
  destruct (truthy (thermostatsInCelsius a1)).
  - eexists. split; [reflexivity|].
    rewrite !Qred_correct. apply Qabs_Qle_condition.
    assert (E : ((t - 2 + (t + 2)) / 2 - t == 0)%Q) by field.
    split; lra.
  - eexists. split; [reflexivity|].
    rewrite !Qred_correct.
    set (F := (t * 9 / 5 + 32)%Q).
    set (f := (inject_Z (Qfloor (F * 10 + (1 # 2))) / 10)%Q).
    set (C := (((f - 5 + (f + 5)) / 2 - 32) * 5 / 9)%Q).
    pose proof (round10_close F) as [HF1 HF2]. fold f in HF1, HF2.
    pose proof (round10_close C) as [HC1 HC2].
    set (c := (inject_Z (Qfloor (C * 10 + (1 # 2))) / 10)%Q) in *.
    assert (HC : (C == (f - 32) * (5 # 9))%Q) by (unfold C; field).
    assert (HFt : (F == t * (9 # 5) + 32)%Q) by (unfold F; field).
    apply Qabs_Qle_condition. split; lra.
Qed.

(** X21.  The display unit is kept by the accessory alone: a set stores
    the unit and answers without contacting the server, a get reads it
    back, and the conversion of temperatures does not depend on it. *)
Theorem display_units_are_local (a : Accessory) (tr : list Event)
    (units : JsValue) :
  let st := snd (setTemperatureDisplayUnits units (mkSt a tr)) in
  fst (setTemperatureDisplayUnits units (mkSt a tr)) = Normal (Success tt) /\
  requests (trace st) = requests tr /\
  fst (getTemperatureDisplayUnits st) = Normal (Success units) /\
  requests (trace (snd (getTemperatureDisplayUnits st))) = requests tr /\
  (forall x, celsiusToIndigoTemp (self st) x = celsiusToIndigoTemp a x /\
             indigoTempToCelsius (self st) x = indigoTempToCelsius a x).
Proof.
  intros st. unfold st, setTemperatureDisplayUnits, getTemperatureDisplayUnits.
  run_monad. rewrite !requests_app. simpl. rewrite !app_nil_r.
  repeat split; reflexivity.
Qed.

End ThermostatFacts.

Section ModeAndBrightness.
Context `{JsBuiltins}.
Variable remote : list Options -> Response.

(** X23.  Set and get of the target mode agree.  When the status that is
    fetched has, among the six mode flags that [getTargetHeatingCooling]
    reads, exactly the flag set that [setTargetHeatingCooling] writes for
    a mode (none of them for mode 0, off), the get answers with that
    mode. *)
Theorem heating_cooling_mode_round_trip (a : Accessory) (tr : list Event)
    (st1 : St Accessory) (mode : Q) (key : string) :
  getStatus remote None (mkSt a tr) = (Normal None, st1) ->
  modeKey mode = Some key ->
  Forall (fun flag =>
            truthy (get (self st1) flag) = String.eqb flag key) modeFlags ->
  exists m,
    fst (getTargetHeatingCooling remote (mkSt a tr))
    = Normal (Success (JNum m)) /\ (m == mode)%Q.
Proof.
  intros Hfetch Hkey Hflags.
  unfold getTargetHeatingCooling, bind. rewrite Hfetch. run_monad.
  unfold modeFlags in Hflags.
  repeat match goal with
         | Hf : Forall _ (_ :: _) |- _ =>
             apply List.Forall_cons_iff in Hf as [? Hf]
         end.
  repeat match goal with
         | E : truthy _ = _ |- _ => rewrite E; clear E
         end.
  unfold modeKey in Hkey.
  destruct (Qeq_bool mode 0) eqn:E0;
    [|destruct (Qeq_bool mode 1) eqn:E1;
      [|destruct (Qeq_bool mode 2) eqn:E2;
        [|destruct (Qeq_bool mode 3) eqn:E3; [|discriminate Hkey]]]].
  all: injection Hkey as <-; cbn [String.eqb Ascii.eqb Bool.eqb orb fst].
  all: eexists; split; [reflexivity|].
  all: symmetry; apply Qeq_bool_iff; assumption.
Qed.

(** X24.  The brightness of a dimmable light, outside a refresh: a set
    with a number between 0 and 100 that returns has written that number
    as [brightness], unchanged, and has armed no timer; a get answers with
    the brightness just fetched, as it is. *)
Theorem brightness_set_and_get (a : Accessory) (tr : list Event)
    (q : Q) (context : JsValue) :
  loose_eq context REFRESH_CONTEXT = false ->
  truthy (get a "typeSupportsDim") = true ->
  (0 <= q <= 100)%Q ->
  (forall r st,
      setBrightness remote (JNum q) context (mkSt a tr) = (Normal r, st) ->
      writes (trace st)
      = writes tr ++ [putRequest a [("brightness", JNum q)]] /\
      timers (trace st) = timers tr) /\
  (forall st1,
      getStatus remote None (mkSt a tr) = (Normal None, st1) ->
      fst (getBrightness remote (mkSt a tr))
      = Normal (Success (get (self st1) "brightness"))).
Proof.
  intros Hctx Hsup [Hlo Hhi]. split.
  - intros r st. unfold setBrightness. run_monad. rewrite Hctx, Hsup.
    assert (Hge : js_ge (JNum q) (JNum 0) = true)
      by (apply Qle_bool_iff; exact Hlo).
    assert (Hle : js_le (JNum q) (JNum 100) = true)
      by (apply Qle_bool_iff; exact Hhi).
    rewrite Hge, Hle. cbn [andb].
    set (qs := [("brightness", JNum q)]).
    destruct (updateStatus remote qs None _) as [[r'|e] st'] eqn:Hu;
      [|discriminate].
    intros [= _ <-].
    destruct (updateStatus_trace remote qs a _ r' st' Hu)
      as (evs & Htr & Ht & Hw).
    rewrite Htr, !writes_app, !timers_app, Hw, Ht, writes_putEvents.
    simpl. rewrite !app_nil_r. auto.
  - intros st1 Hfetch. unfold getBrightness, query, bind. run_monad.
    rewrite Hsup, Hfetch. reflexivity.
Qed.

End ModeAndBrightness.

(* ===================================================================== *)
(** ** Refreshing twice, and what a refresh pushes *)
(* ===================================================================== *)

Section RefreshFacts.
Context `{JsBuiltins}.
Variable remote : list Options -> Response.








End RefreshFacts.

Section RefreshTheorems.
Context `{JsBuiltins}.
Variable remote : list Options -> Response.


(** X9.  What a refresh pushes for a door, window or window covering: a
    change of [brightness] goes to the current and the target position; a
    change of [isOn] goes there as 100 or 0, but only if the device is not
    dimmable.  When an own property of the accessory hides the mirror
    function, nothing is pushed.  The accessory itself is not touched and
    nothing is written. *)
Theorem position_mirror (a : Accessory) (tr : list Event) (v : JsValue) :
  is_position (variant a) = true ->
  let run prop := snd (refresh_updateCallback remote prop v (mkSt a tr)) in
  let both x := [(CurrentPosition, x, REFRESH_CONTEXT);
                 (TargetPosition, x, REFRESH_CONTEXT)] in
  let unless_hidden updateFunction
        (l : list (Characteristic * JsValue * JsValue)) :=
    match props a !! updateFunction with
    | Some _ => []
    | None => l
    end in
  self (run "isOn") = a /\ self (run "brightness") = a /\
  writes (trace (run "isOn")) = writes tr /\
  writes (trace (run "brightness")) = writes tr /\
  pushes (trace (run "brightness"))
  = pushes tr ++ unless_hidden "update_brightness" (both v) /\
  pushes (trace (run "isOn"))
  = pushes tr ++
    unless_hidden "update_isOn"
      (if truthy (get a "typeSupportsDim") then []
       else both (if truthy v then JNum 100 else JNum 0)).
Proof.
  intros Hpos run both unless_hidden. unfold run, both, unless_hidden.
  unfold refresh_updateCallback. run_monad.
  change ("update_" +:+ "isOn") with "update_isOn".
  change ("update_" +:+ "brightness") with "update_brightness".
  destruct (props a !! "update_isOn") as [h1|];
    [destruct (truthy h1)|];
    (destruct (props a !! "update_brightness") as [h2|];
     [destruct (truthy h2)|]).
  all: destruct (variant a) eqn:Hv; try discriminate Hpos.
  all: unfold update_function;
    change (String.eqb "update_isOn" "update_isOn") with true;
    change (String.eqb "update_brightness" "update_isOn") with false;
    change (String.eqb "update_brightness" "update_brightness") with true;
    cbv beta iota.
  all: unfold Position_update_isOn, Position_update_brightness.
  all: run_monad.
  all: destruct (truthy (get a "typeSupportsDim")); cbn [negb]; cbv iota.
  all: repeat (progress (
         unfold setValue, set_listener, setTargetPosition;
         run_monad; rewrite ?Hv, ?loose_eq_refresh; cbv beta iota)).
  all: cbn [self trace fst snd].
  all: rewrite ?writes_app, ?pushes_app; simpl;
    rewrite ?app_nil_r, <- ?app_assoc.
  all: repeat split; reflexivity.
Qed.

End RefreshTheorems.

(* ===================================================================== *)
(** ** What discovery creates *)
(* ===================================================================== *)

Section CreationFacts.
Context `{JsBuiltins}.



End CreationFacts.

(* ===================================================================== *)
(** ** The discovery pass *)
(* ===================================================================== *)

Section DiscoveryFacts.
Context `{JsBuiltins}.
Variable remote : list Options -> Response.

(** A GET request through [indigoRequestJSON], in closed form. *)
Lemma indigoRequestJSON_get {S} p path fixer (s : S) tr :
  indigoRequestJSON remote p path "GET" None fixer (mkSt s tr) =
  let o := getRequest p path in
  let tr1 := tr ++ [Queued o; Log "Indigo request: %s" [JStr (url o)]] in
  match parsed path fixer (remote (requests tr ++ [o])) with
  | inl msg => (Normal (inl msg), mkSt s (tr1 ++ [Log msg []]))
  | inr json => (Normal (inr json), mkSt s tr1)
  end.
Proof.
  assert (Hh : requests ((tr ++ [Queued (getRequest p path)]) ++
                         [Log "Indigo request: %s"
                              [JStr (url (getRequest p path))]])
               = requests tr ++ [getRequest p path]).
  { rewrite !requests_app. simpl. rewrite app_nil_r. reflexivity. }
  unfold indigoRequestJSON, indigoRequest, parsed. run_monad.
  fold (getRequest p path). rewrite Hh.
  destruct (error _) as [e|]; run_monad.
  - rewrite <- !app_assoc. reflexivity.
  - destruct (JSON_parse _); run_monad; rewrite <- !app_assoc; reflexivity.
Qed.

(** [addAccessory] never hands an error to its callback. *)
Lemma addAccessory_no_error item st r :
  fst (addAccessory remote item st) = Normal r -> r = None.
Proof.
  unfold addAccessory, member. destruct st as [p tr].
  destruct item; run_monad; try discriminate.
  all: rewrite indigoRequestJSON_get; cbv zeta.
  all: match goal with
       | |- context [parsed ?u ?f ?r] => destruct (parsed u f r) as [msg|json]
       end; run_monad; try (intros [= <-]; reflexivity).
  all: destruct json; run_monad; try discriminate.
  all: repeat match goal with
       | |- context [if ?c then _ else _] => destruct c
       | |- context [match createAccessoryFromJSON ?c ?u ?j with _ => _ end] =>
           destruct (createAccessoryFromJSON c u j) as [[acc|]|e]
       end; run_monad; try discriminate; try (intros [= <-]; reflexivity).
Qed.

Lemma eachSeries_no_error {S A} (l : list A)
    (iterator : A -> M S (option string)) :
  (forall x st r, fst (iterator x st) = Normal r -> r = None) ->
  forall st r, fst (eachSeries l iterator st) = Normal r -> r = None.
Proof.
  intros Hit. induction l as [|x l IH]; intros st r; simpl.
  - intros [= <-]. reflexivity.
  - unfold bind. pose proof (Hit x st) as Hx.
    destruct (iterator x st) as [[[e|]|e] st1]; simpl in *.
    + specialize (Hx _ eq_refl). discriminate Hx.
    + apply IH.
    + discriminate.
Qed.

(** A listing request that fails ends [discoverAccessories] at once. *)
Lemma discoverAccessories_listing_fails requestURL p tr msg :
  let o := getRequest (config p) requestURL in
  parsed requestURL (Some jsonFixer) (remote (requests tr ++ [o])) = inl msg ->
  discoverAccessories remote requestURL (mkSt p tr)
  = (Normal (Some msg),
     mkSt p (tr ++ [Queued o; Log "Indigo request: %s" [JStr (url o)];
                    Log msg []])).
Proof.
  intros o Hfail. unfold discoverAccessories. run_monad.
  rewrite indigoRequestJSON_get. cbv zeta. fold o. rewrite Hfail. run_monad.
  rewrite <- app_assoc. reflexivity.
Qed.

(** X3.  The only error [discoverAccessories] reports is the failure of
    the listing itself (transport error or unparsable body), and then the
    platform is left as it was; whatever goes wrong with a single device
    of the listing is not reported. *)
Theorem discoverAccessories_reports_listing_only
    (requestURL : string) (p : Platform) (tr : list Event) (msg : string) :
  let o := getRequest (config p) requestURL in
  let fetch := parsed requestURL (Some jsonFixer)
                 (remote (requests tr ++ [o])) in
  let res := discoverAccessories remote requestURL (mkSt p tr) in
  (fst res = Normal (Some msg) <-> fetch = inl msg) /\
  (fetch = inl msg ->
   snd res = mkSt p (tr ++ [Queued o; Log "Indigo request: %s" [JStr (url o)];
                            Log msg []])).
Proof.
  intros o fetch res.
  pose proof (discoverAccessories_listing_fails requestURL p tr) as Hfails.
  cbv zeta in Hfails. fold o fetch res in Hfails.
  split; [split|].
  - destruct fetch as [m|json] eqn:Ef.
    + rewrite (Hfails m eq_refl). intros [= ->]. reflexivity.
    + unfold res, discoverAccessories. run_monad.
      rewrite indigoRequestJSON_get. cbv zeta. fold o.
      change (parsed requestURL (Some jsonFixer) (remote (requests tr ++ [o])))
        with fetch.
      rewrite Ef. run_monad.
      intros Hr. apply eachSeries_no_error in Hr; [discriminate Hr|].
      apply addAccessory_no_error.
  - intros Hf. rewrite (Hfails msg Hf). reflexivity.
  - intros Hf. rewrite (Hfails msg Hf). reflexivity.
Qed.

(** X4.  When the device listing fails, the discovery pass stops there:
    the action listing is not requested, the error is logged, and
    [accessories] hands over what the platform held before (nothing, on a
    new platform), in name order. *)
Theorem accessories_listing_failure
    (p : Platform) (tr : list Event) (msg : string) :
  let o := getRequest (config p) (path (config p) +:+ "/devices.json/") in
  parsed (path (config p) +:+ "/devices.json/") (Some jsonFixer)
    (remote (requests tr ++ [o])) = inl msg ->
  let res := accessories remote (mkSt p tr) in
  fst res = Normal (Array_sort compareNames (take 99 (foundAccessories p))) /\
  requests (trace (snd res)) = requests tr ++ [o] /\
  accessoryMap (self (snd res)) = accessoryMap p /\
  In (Log msg []) (trace (snd res)).
Proof.
  intros o Hfail res.
  pose proof (discoverAccessories_listing_fails
                (path (config p) +:+ "/devices.json/") p tr msg Hfail) as Hst.
  cbv zeta in Hst. fold o in Hst.
  assert (Hd : discovery remote (mkSt p tr)
               = (Normal (Some msg),
                  mkSt p (tr ++ [Queued o;
                                 Log "Indigo request: %s" [JStr (url o)];
                                 Log msg []]))).
  { unfold discovery. run_monad. simpl eachSeries. unfold bind.
    rewrite Hst. reflexivity. }
  unfold res. rewrite (accessories_after_discovery remote _ _ _ Hd).
  match goal with
  | |- context [accessories_done ?e (mkSt p ?t)] =>
      destruct (accessories_done_spec e p t) as [Hl _]
  end.
  cbv zeta in Hl. split; [exact Hl|].
  unfold accessories_done. run_monad.
  destruct (99 <? length (foundAccessories p))%nat;
    cbn [self trace fst snd foundAccessories set_foundAccessories
         accessoryMap];
    rewrite !requests_app; simpl; rewrite !app_nil_r;
    (split; [reflexivity|]); (split; [reflexivity|]);
    rewrite !in_app_iff; simpl; auto 10.
Qed.

(** X5.  The class chosen for a device: an action is an action whatever
    else it declares; a device with on/off support that is listed in
    [treatAsSwitchIds] is a switch, also when it is in other lists or is a
    thermostat; and without on/off support the lists are not consulted,
    and the device is a thermostat, a fan or a (dimmable) light by its
    capabilities, or nothing. *)
Theorem variantFromJSON_precedence (p : Config) (json : JsValue) :
  let action := loose_eq (get_prop json "restParent") (JStr "actions") in
  let onOff := truthy (get_prop json "typeSupportsOnOff") in
  let id := JStr (ToString (get_prop json "id")) in
  (action = true -> variantFromJSON p json = Some Action) /\
  (action = false -> onOff = true ->
   forall ids, treatAsSwitchIds p = Some ids -> In id ids ->
   variantFromJSON p json = Some Switch) /\
  (action = false -> onOff = false ->
   variantFromJSON p json
   = if truthy (get_prop json "typeSupportsHVAC") then Some Thermostat
     else if truthy (get_prop json "typeSupportsSpeedControl") then Some Fan
     else if truthy (get_prop json "typeSupportsDim") then Some Light
     else None).
Proof.
  intros action onOff id. unfold variantFromJSON. fold action onOff.
  split; [|split].
  - intros ->. reflexivity.
  - intros -> -> ids -> Hin.
    apply Array_indexOf_found in Hin.
    apply Z.leb_le in Hin. unfold id in Hin. rewrite Hin. reflexivity.
  - intros -> ->. cbn [andb]. rewrite orb_false_r. reflexivity.
Qed.

(** C7, as the code has it.  [includeItemId] passes an identifier exactly
    when it is in the include list (or there is none) and not in the
    exclude list (or there is none); the lists hold strings and are
    searched for [String(id)].  Discovery keeps a device whose description
    it has fetched exactly when its identifier passes and
    [createAccessoryFromJSON] finds a class for it: the accessory is then
    appended to the list and stored in the map under the identifier;
    otherwise list and map stay as they are.  So an identifier in both
    lists is dropped, and when every included identifier is also excluded,
    as with include list ["10"] and exclude list ["10"], discovery returns
    no accessory. *)
Theorem discovery_keeps_included_and_supported
    (p : Platform) (tr : list Event) (item json : JsValue) :
  nullish item = false ->
  let restURL := ToString (get_prop item "restURL") in
  parsed restURL None (remote (requests tr ++ [getRequest (config p) restURL]))
  = inr json ->
  nullish json = false ->
  let id := get_prop (described json) "id" in
  let after := self (snd (addAccessory remote item (mkSt p tr))) in
  (includeItemId (config p) id = true <->
   match includeIds (config p) with
   | None => True
   | Some ids => In (JStr (ToString id)) ids
   end /\
   match excludeIds (config p) with
   | None => True
   | Some ids => ~ In (JStr (ToString id)) ids
   end) /\
  config after = config p /\
  match (if includeItemId (config p) id
         then createAccessoryFromJSON (config p) restURL (described json)
         else Normal None)
  with
  | Normal (Some accessory) =>
      foundAccessories after = foundAccessories p ++ [accessory] /\
      accessoryMap after = <[ToString id := accessory]> (accessoryMap p)
  | _ =>
      foundAccessories after = foundAccessories p /\
      accessoryMap after = accessoryMap p
  end /\
  (forall inc exc,
      includeIds (config p) = Some inc -> excludeIds (config p) = Some exc ->
      (forall x, In x inc -> In x exc) ->
      foundAccessories p = [] ->
      match fst (accessories remote (mkSt p tr)) with
      | Normal l => l = []
      | Throw _ => True
      end).
Proof.
  intros Hitem restURL Hfetch Hjson id after.
  split; [apply includeItemId_spec|].
  assert (Hrun :
    snd (addAccessory remote item (mkSt p tr))
    = snd ((if includeItemId (config p) id then
              match createAccessoryFromJSON (config p) restURL (described json)
              with
              | Normal (Some accessory) =>
                  modify (fun p =>
                    set_accessoryMap
                      (<[ToString id := accessory]> (accessoryMap p))
                      (set_foundAccessories
                         (foundAccessories p ++ [accessory]) p))
              | Normal None =>
                  emit (Log "Ignoring unknown accessory type %s"
                            [get_prop (described json) "type"])
              | Throw e => throw e
              end
            else emit (Log "Ignoring excluded ID %s" [id]))
             (mkSt p (tr ++ [Queued (getRequest (config p) restURL);
                             Log "Indigo request: %s"
                               [JStr (url (getRequest (config p) restURL))];
                             Log "Discovered %s (ID %s): %s"
                               [get_prop (described json) "type"; id;
                                get_prop (described json) "name"]])))).
  { unfold addAccessory, member.
    destruct item; try discriminate Hitem; run_monad.
    all: rewrite indigoRequestJSON_get; cbv zeta.
    all: fold restURL; rewrite Hfetch; run_monad.
    all: destruct json; try discriminate Hjson; run_monad.
    all: unfold id, described; rewrite <- ?app_assoc; cbn [app].
    all: repeat match goal with
         | |- context [if ?c then _ else _] => destruct c
         | |- context [match createAccessoryFromJSON ?c ?u ?j with _ => _ end] =>
             destruct (createAccessoryFromJSON c u j) as [[acc|]|e]
         end; reflexivity. }
  unfold after. rewrite Hrun. clear Hrun.
  split; [|split].
  - destruct (includeItemId (config p) id); [|reflexivity].
    destruct (createAccessoryFromJSON _ _ _) as [[acc|]|e]; reflexivity.
  - destruct (includeItemId (config p) id); [|split; reflexivity].
    destruct (createAccessoryFromJSON _ _ _) as [[acc|]|e];
      split; reflexivity.
  - intros inc exc Hinc Hexc Hsub Hempty.
    assert (Hex : forall x, includeItemId (config p) x = false).
    { intros x. destruct (includeItemId (config p) x) eqn:E; [|reflexivity].
      apply includeItemId_spec in E. rewrite Hinc, Hexc in E.
      destruct E as [Hin Hout]. exfalso. apply Hout, Hsub, Hin. }
    destruct (discovery_excluded remote (config p) Hex (mkSt p tr)
                (conj eq_refl Hempty)) as ((_ & Hfound) & _).
    destruct (discovery remote (mkSt p tr)) as [[asyncError|e] [p1 tr1]] eqn:Hd.
    + rewrite (accessories_after_discovery remote _ asyncError _ Hd).
      destruct (accessories_done_spec asyncError p1 tr1) as [Hl _].
      simpl in Hfound. rewrite Hl, Hfound. reflexivity.
    + unfold accessories, bind. rewrite Hd. exact Logic.I.
Qed.

End DiscoveryFacts.

Section MapFacts.
Context `{JsBuiltins}.
Variable remote : list Options -> Response.

Lemma discovery_map_in_list :
  preserves map_in_list (fun _ => True) (discovery remote).
Proof.
  unfold discovery.
  apply preserves_this; intros pl Hpl.
  apply preserves_eachSeries. intros requestURL.
  unfold discoverAccessories.
  apply preserves_this; intros pl1 Hpl1.
  apply preserves_bind; [apply preserves_indigoRequestJSON; auto|].
  intros [msg|json]; [apply preserves_ret|].
  apply preserves_eachSeries. intros item.
  unfold addAccessory, member.
  apply preserves_bind; [destruct item; preserves_auto|]. intros restURL.
  apply preserves_this; intros pl2 Hpl2.
  apply preserves_bind; [apply preserves_indigoRequestJSON; auto|].
  intros [msg|detail]; [preserves_auto|].
  apply preserves_bind; [destruct detail; preserves_auto|]. intros restParent.
  apply preserves_bind; [preserves_auto|]. intros _.
  apply preserves_bind; [|intros _; apply preserves_ret].
  destruct (includeItemId _ _); [|preserves_auto].
  destruct (createAccessoryFromJSON _ _ _) as [[acc|]|e]; [|preserves_auto..].
  apply preserves_modify. intros pl3 Hpl3 id a.
  unfold set_accessoryMap, set_foundAccessories; simpl.
  rewrite in_app_iff.
  match goal with
  | |- <[?k := _]> _ !! _ = _ -> _ => destruct (decide (k = id)) as [<-|Hne]
  end.
  - rewrite lookup_insert_eq. intros [= <-]. right. left. reflexivity.
  - rewrite lookup_insert_ne by exact Hne. intros Hin. left.
    exact (Hpl3 id a Hin).
Qed.

(** X7.  Discovery keeps every accessory of the map in the list; so,
    unless the list was cut at 99, every accessory the update listener can
    refresh is among those handed to homebridge. *)
Theorem published_accessories_cover_map (st : St Platform)
    (l : list Accessory) :
  map_in_list (self st) ->
  fst (accessories remote st) = Normal l ->
  (length l < 99)%nat ->
  forall id a,
    accessoryMap (self (snd (accessories remote st))) !! id = Some a ->
    In a l.
Proof.
  intros Hinv Hl Hlen id a.
  destruct (discovery_map_in_list st Hinv) as (Hinv1 & _ & _).
  destruct (discovery remote st) as [[asyncError|e] [p1 tr1]] eqn:Hd.
  2:{ unfold accessories, bind in Hl. rewrite Hd in Hl. discriminate Hl. }
  rewrite (accessories_after_discovery remote st _ _ Hd) in Hl |- *.
  destruct (accessories_done_spec asyncError p1 tr1) as [Hres _].
  cbv zeta in Hres. rewrite Hres in Hl. injection Hl as <-.
  pose proof (Array_sort_perm compareNames (take 99 (foundAccessories p1)))
    as Hperm.
  rewrite (Permutation_length Hperm), length_take in Hlen.
  assert (Hmap : accessoryMap (self (snd (accessories_done asyncError
                                            (mkSt p1 tr1))))
                 = accessoryMap p1).
  { unfold accessories_done. run_monad.
    destruct asyncError; cbn [self trace fst snd];
      destruct (99 <? length (foundAccessories p1))%nat; reflexivity. }
  rewrite Hmap. intros Hin.
  apply (Permutation_in _ (Permutation_sym Hperm)).
  rewrite take_ge by lia. simpl in Hinv1. exact (Hinv1 id a Hin).
Qed.

End MapFacts.

(* ===================================================================== *)
(** ** The constructor and where the platform connects *)
(* ===================================================================== *)

(** Unfolds one step of a concatenation. *)
Ltac app_simpl :=
  repeat (change (String ?a ?b +:+ ?t) with (String a (b +:+ t)) in * );
  repeat (change (EmptyString +:+ ?t) with t in * ).

Section PathFacts.
Context `{JsBuiltins}.

Lemma js_gt_length s :
  js_gt (length_of (JStr s)) (JNum 0) = (0 <? String.length s)%nat.
Proof.
  unfold js_gt, rel, length_of, ToNumber, ToPrimitive.
  destruct s as [|c s]; [reflexivity|].
  simpl String.length.
  destruct (Qle_bool _ 0) eqn:E; [|reflexivity].
  apply Qle_bool_iff in E. unfold Qle in E. simpl in E. lia.
Qed.

(** The constructor on a configured path that is a string. *)
Lemma IndigoPlatform_path settings s tr :
  ConfigJson.path settings = JStr s ->
  exists inst evs,
    IndigoPlatform settings (mkSt tt tr)
    = (Normal inst, mkSt tt (tr ++ evs)) /\
    path (config (platform_of inst)) = pathPrefix s.
Proof.
  intros Hs. unfold IndigoPlatform. rewrite Hs.
  destruct s as [|c s].
  { simpl truthy. cbv iota. run_monad.
    destruct (truthy (ConfigJson.listenPort settings)); run_monad;
      eexists; eexists; (split; [rewrite <- ?app_assoc; reflexivity|]);
      reflexivity. }
  change (truthy (JStr (String c s))) with true. cbv iota.
  unfold pathPrefix.
  set (last := Z.of_nat (String.length (String c s)) - 1).
  rewrite js_gt_length. change (0 <? String.length (String c s))%nat with true.
  cbv iota.
  change (loose_eq (JStr (charAt (String c s) last)) (JStr "/"))
    with (String.eqb (charAt (String c s) last) "/").
  destruct (String.eqb (charAt (String c s) last) "/").
  - run_monad. rewrite js_gt_length.
    set (s1 := substr (String c s) 0 last).
    destruct (0 <? String.length s1)%nat; cbn [andb].
    + change (loose_eq (JStr (charAt s1 0)) (JStr "/"))
        with (String.eqb (charAt s1 0) "/").
      destruct (String.eqb (charAt s1 0) "/"); cbn [negb]; run_monad;
        destruct (truthy (ConfigJson.listenPort settings)); run_monad;
        eexists; eexists; (split; [rewrite <- ?app_assoc; reflexivity|]);
        reflexivity.
    + run_monad.
      destruct (truthy (ConfigJson.listenPort settings)); run_monad;
        eexists; eexists; (split; [rewrite <- ?app_assoc; reflexivity|]);
        reflexivity.
  - run_monad. rewrite js_gt_length.
    change (0 <? String.length (String c s))%nat with true. cbn [andb].
    change (loose_eq (JStr (charAt (String c s) 0)) (JStr "/"))
      with (String.eqb (charAt (String c s) 0) "/").
    destruct (String.eqb (charAt (String c s) 0) "/"); cbn [negb]; run_monad;
      destruct (truthy (ConfigJson.listenPort settings)); run_monad;
      eexists; eexists; (split; [rewrite <- ?app_assoc; reflexivity|]);
      reflexivity.
Qed.

End PathFacts.

Lemma append_nil_r s : s +:+ EmptyString = s.
Proof.
  induction s as [|c s IH]; [reflexivity|].
  change (String c (s +:+ EmptyString) = String c s). rewrite IH. reflexivity.
Qed.

(** A string that is not empty is a front followed by its last
    character. *)
Lemma string_snoc s :
  s <> EmptyString ->
  exists front c,
    s = front +:+ String c EmptyString /\
    charAt s (Z.of_nat (String.length s) - 1) = String c EmptyString /\
    substr s 0 (Z.of_nat (String.length s) - 1) = front.
Proof.
  induction s as [|a s IH]; [congruence|]. intros _.
  destruct s as [|b s].
  - exists EmptyString, a. repeat split.
  - destruct IH as (front & c & Hs & Hc & Hf); [discriminate|].
    exists (String a front), c.
    split; [app_simpl; rewrite <- Hs; reflexivity|].
    unfold charAt, substr in *.
    replace (Z.of_nat (String.length (String a (String b s))) - 1)
      with (Z.of_nat (S (String.length (String b s) - 1)))
      by (simpl String.length; lia).
    replace (Z.of_nat (String.length (String b s)) - 1)
      with (Z.of_nat (String.length (String b s) - 1)) in Hc, Hf
      by (simpl String.length; lia).
    rewrite Nat2Z.id in *.
    destruct (Z.of_nat _ <? 0) eqn:E1 in Hc; [apply Z.ltb_lt in E1; lia|].
    destruct (Z.of_nat (S _) <? 0) eqn:E2; [apply Z.ltb_lt in E2; lia|].
    split.
    + exact Hc.
    + change (Z.to_nat 0) with 0%nat in *.
      change (substring 0 (S (String.length (String b s) - 1))
                (String a (String b s)))
        with (String a (substring 0 (String.length (String b s) - 1)
                          (String b s))).
      rewrite Hf. reflexivity.
Qed.

Lemma snoc_inj x y a b :
  x +:+ String a EmptyString = y +:+ String b EmptyString -> x = y /\ a = b.
Proof.
  revert y. induction x as [|e x IHx]; intros [|f y]; app_simpl.
  - intros [= ->]. auto.
  - intros [= -> Hy]. destruct y; discriminate Hy.
  - intros [= -> Hx]. destruct x; discriminate Hx.
  - intros [= -> Hxy]. destruct (IHx y Hxy) as [-> ->]. auto.
Qed.

Lemma ends_with_snoc front c suf d :
  ends_with (suf +:+ String d EmptyString) (front +:+ String c EmptyString) ->
  c = d /\ ends_with suf front.
Proof.
  intros [pre Hpre]. rewrite <- append_assoc in Hpre.
  apply snoc_inj in Hpre as [-> ->].
  split; [reflexivity | exists pre; reflexivity].
Qed.

Lemma charAt_0 c s : charAt (String c s) 0 = String c EmptyString.
Proof. reflexivity. Qed.

(** Adding the leading slash. *)
Lemma leading_slash x :
  x <> EmptyString ->
  let q := if (0 <? String.length x)%nat
              && negb (String.eqb (charAt x 0) "/")
           then "/" +:+ x else x in
  begins_with "/" q /\
  (ends_with "/" q -> ends_with "/" x) /\
  (begins_with "/" x -> q = x).
Proof.
  destruct x as [|b x]; [congruence|]. intros _. simpl String.length.
  change (0 <? S (String.length x))%nat with true. cbn [andb].
  rewrite charAt_0.
  destruct (String.eqb_spec (String b EmptyString) "/") as [Hb|Hb];
    cbn [negb]; cbv zeta; [injection Hb as -> |].
  - split; [exists x; reflexivity|]. auto.
  - split; [exists (String b x); reflexivity|]. split.
    + intros [pre Hpre]. destruct pre as [|e pre]; app_simpl.
      * discriminate Hpre.
      * injection Hpre as _ Hpre. exists pre. exact Hpre.
    + intros [rest Hr]. app_simpl. injection Hr as -> _. exfalso.
      apply Hb. reflexivity.
Qed.

Lemma pathPrefix_normal_form s :
  let p := pathPrefix s in
  (p = EmptyString \/ begins_with "/" p) /\
  (~ ends_with "//" s -> ~ ends_with "/" p) /\
  (begins_with "/" s -> ~ ends_with "/" s -> p = s).
Proof.
  intros p. unfold p, pathPrefix.
  destruct s as [|a s].
  { split; [left; reflexivity|]. split.
    - intros _ [front Hf]. destruct front; discriminate Hf.
    - intros [rest Hr]. discriminate Hr. }
  destruct (string_snoc (String a s)) as (front & c & Hs & Hc & Hf);
    [discriminate|].
  rewrite Hc, Hf.
  destruct (String.eqb_spec (String c EmptyString) "/") as [Ec|Ec];
    [injection Ec as -> |].
  - destruct front as [|b front].
    + split; [left; reflexivity|]. split.
      * intros _ [pre Hpre]. destruct pre; discriminate Hpre.
      * intros _ Hno. exfalso. apply Hno. exists EmptyString. exact Hs.
    + destruct (leading_slash (String b front)) as (Hb & He & _);
        [discriminate|].
      cbv zeta in Hb, He. split; [right; exact Hb|]. split.
      * intros Hno Hend. apply Hno. apply He in Hend.
        destruct Hend as [pre Hpre]. exists pre. rewrite Hs, Hpre.
        rewrite append_assoc. reflexivity.
      * intros _ Hno. exfalso. apply Hno. exists (String b front). exact Hs.
  - destruct (leading_slash (String a s)) as (Hb & He & Hsame);
      [discriminate|].
    cbv zeta in Hb, He, Hsame. split; [right; exact Hb|]. split.
    + intros _ Hend. apply He in Hend. rewrite Hs in Hend.
      apply (ends_with_snoc front c EmptyString "/") in Hend as [-> _].
      apply Ec. reflexivity.
    + intros Hbeg _. apply Hsame, Hbeg.
Qed.

(** X1.  The path prefix the constructor keeps for a configured string
    (a trailing slash is dropped, then a leading slash is added): it is
    empty or begins with a slash; it does not end with a slash unless the
    configured string ends with two; and a string that begins with a slash
    and does not end with one is kept as it is. *)
Theorem IndigoPlatform_path_normal_form `{JsBuiltins}
    (settings : ConfigJson.t) (s : string) (tr : list Event) :
  ConfigJson.path settings = JStr s ->
  exists inst evs,
    IndigoPlatform settings (mkSt tt tr)
    = (Normal inst, mkSt tt (tr ++ evs)) /\
    let p := path (config (platform_of inst)) in
    (p = EmptyString \/ begins_with "/" p) /\
    (~ ends_with "//" s -> ~ ends_with "/" p) /\
    (begins_with "/" s -> ~ ends_with "/" s -> p = s).
Proof.
  intros Hs. destruct (IndigoPlatform_path settings s tr Hs)
    as (inst & evs & Hrun & Hp).
  exists inst, evs. split; [exact Hrun|]. cbv zeta. rewrite Hp.
  apply pathPrefix_normal_form.
Qed.

Section ServerFacts.
Context `{JsBuiltins}.
Variable remote : list Options -> Response.

Lemma bind_inv {S A B} (m : M S A) (k : A -> M S B) st b st' :
  bind m k st = (Normal b, st') ->
  exists a st1, m st = (Normal a, st1) /\ k a st1 = (Normal b, st').
Proof.
  unfold bind. destruct (m st) as [[a|e] st1]; [|discriminate].
  intros Hk. exists a, st1. auto.
Qed.

Lemma to_server_get {S} strict (I : S -> Prop) c path fixer :
  respects strict I (to_server c)
    (indigoRequestJSON (S:=S) remote c path "GET" None fixer).
Proof.
  unfold indigoRequestJSON, indigoRequest.
  apply preserves_bind.
  - apply preserves_bind.
    { apply preserves_emit. simpl. split; [exists path; reflexivity | auto]. }
    intros _. preserves_auto.
  - intros r. preserves_auto.
Qed.

Lemma accessories_to_server c :
  preserves (fun pl => config pl = c) (to_server c) (accessories remote).
Proof.
  unfold accessories. apply preserves_bind.
  - unfold discovery.
    apply preserves_this; intros pl Hpl.
    apply preserves_eachSeries. intros requestURL.
    unfold discoverAccessories.
    apply preserves_this; intros pl1 Hpl1. rewrite Hpl1.
    apply preserves_bind; [apply to_server_get|].
    intros [msg|json]; [apply preserves_ret|].
    apply preserves_eachSeries. intros item.
    unfold addAccessory, member.
    apply preserves_bind; [destruct item; preserves_auto|]. intros restURL.
    apply preserves_this; intros pl2 Hpl2. rewrite Hpl2.
    apply preserves_bind; [apply to_server_get|].
    intros [msg|detail]; [preserves_auto|].
    apply preserves_bind; [destruct detail; preserves_auto|].
    intros restParent.
    apply preserves_bind; [preserves_auto|]. intros _.
    apply preserves_bind; [|intros _; apply preserves_ret].
    destruct (includeItemId _ _); [|preserves_auto].
    destruct (createAccessoryFromJSON _ _ _) as [[acc|]|e]; [|preserves_auto..].
    apply preserves_modify. intros pl3 Hpl3. exact Hpl3.
  - intros asyncError. unfold accessories_done.
    apply preserves_bind; [destruct asyncError; preserves_auto|]. intros _.
    apply preserves_this; intros pl Hpl.
    apply preserves_bind.
    { destruct (99 <? _)%nat; [|apply preserves_ret].
      repeat (apply preserves_bind; [preserves_auto|]; intros _).
      apply preserves_modify. intros pl1 Hpl1. exact Hpl1. }
    intros _. apply preserves_this; intros pl1 Hpl1.
    apply preserves_bind; [preserves_auto|]. intros _.
    apply preserves_bind;
      [apply preserves_modify; intros pl2 Hpl2; exact Hpl2|].
    intros _. preserves_auto.
Qed.

Lemma js_add_JStr a s : js_add a (JStr s) = JStr (ToString a +:+ s).
Proof. unfold js_add. destruct (ToPrimitive a); reflexivity. Qed.

Lemma js_add_JStr_l s b : js_add (JStr s) b = JStr (s +:+ ToString b).
Proof. reflexivity. Qed.

(** X2.  Where the plugin connects.  The platform the constructor builds
    has the base URL [protocol://host:port], with [http] and [8176] where
    the configuration leaves protocol and port out, and credentials only
    if the configuration gives both a user name and a password that are
    not empty.  Whatever the server answers, discovery on that platform
    only makes GET requests on URLs under that base URL, with those
    credentials, without query parameters, and without following
    redirects. *)
Theorem discovery_only_reads_configured_server
    (settings : ConfigJson.t) (tr0 : list Event) (inst : Instance)
    (st : St unit) :
  IndigoPlatform settings (mkSt tt tr0) = (Normal inst, st) ->
  let c := config (platform_of inst) in
  let protocol := if truthy (ConfigJson.protocol settings)
                  then ToString (ConfigJson.protocol settings) else "http" in
  let port := if truthy (ConfigJson.port settings)
              then ToString (ConfigJson.port settings) else "8176" in
  baseURL c
  = protocol +:+ "://" +:+ ToString (ConfigJson.host settings) +:+ ":" +:+ port
  /\
  match platform_auth c with
  | Some credentials =>
      ConfigJson.username settings = Some (user credentials) /\
      ConfigJson.password settings = Some (pass credentials) /\
      user credentials <> EmptyString /\ pass credentials <> EmptyString /\
      sendImmediately credentials = false
  | None =>
      given (ConfigJson.username settings)
      && given (ConfigJson.password settings) = false
  end /\
  forall tr, exists evs,
    trace (snd (accessories remote (mkSt (platform_of inst) tr))) = tr ++ evs /\
    Forall (to_server c) evs.
Proof.
  intros Hrun c protocol port.
  assert (Hc : baseURL c
               = protocol +:+ "://" +:+ ToString (ConfigJson.host settings)
                 +:+ ":" +:+ port /\
               platform_auth c
               = match ConfigJson.username settings,
                       ConfigJson.password settings with
                 | Some username, Some password =>
                     if truthy (JStr username) && truthy (JStr password)
                     then Some {| user := username; pass := password;
                                  sendImmediately := false |}
                     else None
                 | _, _ => None
                 end).
  { unfold IndigoPlatform in Hrun. cbv zeta in Hrun.
    apply bind_inv in Hrun as (pv & st1 & _ & Hrest).
    apply bind_inv in Hrest as ([] & st2 & _ & Hrest).
    apply bind_inv in Hrest as ([] & st3 & _ & Hrest).
    injection Hrest as <- _. unfold c.
    cbn [platform_of config baseURL platform_auth].
    split; [|reflexivity].
    unfold protocol, port.
    destruct (truthy (ConfigJson.protocol settings));
      destruct (truthy (ConfigJson.port settings));
      rewrite !js_add_JStr, ?js_add_JStr_l; cbn [ToString];
      rewrite ?append_assoc; reflexivity. }
  destruct Hc as [Hbase Hauth]. split; [exact Hbase|]. split.
  - rewrite Hauth. unfold given.
    destruct (ConfigJson.username settings) as [u|];
      destruct (ConfigJson.password settings) as [w|]; try reflexivity.
    2:{ apply andb_false_r. }
    destruct (truthy (JStr u)) eqn:Eu; [|reflexivity].
    destruct (truthy (JStr w)) eqn:Ew; [|reflexivity].
    cbn [andb user pass sendImmediately].
    repeat split.
    + intros ->. discriminate Eu.
    + intros ->. discriminate Ew.
  - intros tr.
    destruct (accessories_to_server c (mkSt (platform_of inst) tr) eq_refl)
      as (_ & Hevs & _). exact Hevs.
Qed.

End ServerFacts.

(* ===================================================================== *)
(** ** Examples on the reference engine *)
(* ===================================================================== *)

(** The examples run on the reference engine. *)
#[global] Existing Instance RefEngine.builtins.

(** The lamp's [isOn] flips to true: one mirror call, one value pushed with
    the refresh context, and the only request is the GET. *)
Lemma refresh_issues_no_write_witness :
  let evs := trace (snd (refresh (Demo.always Demo.lamp_on)
                           (mkSt Demo.lamp []))) in
  mirror_calls evs = ["update_isOn"] /\
  Demo.pushed evs = [(On, JBool true, REFRESH_CONTEXT)] /\
  map method (requests evs) = ["GET"].
Proof.
  destruct (refresh_issues_no_write (Demo.always Demo.lamp_on) Demo.lamp [])
    as (evs & Ht & _ & _ & Hm).
  simpl. split; [|split; vm_compute; reflexivity].
  rewrite Ht. simpl app.
  apply (Hm [("name", JStr "Lamp"); ("id", JNum 7);
             ("typeSupportsOnOff", JBool true); ("isOn", JBool true)]).
  - vm_compute. reflexivity.
  - vm_compute. reflexivity.
  - repeat (constructor; [vm_compute; auto|]). constructor.
  - vm_compute. auto 10.
Defined.

(** C1 as stated fails on a fan: its cached [isOn] flips from false to
    true, yet the refresh mirrors nothing, because the fan class has no
    [update_isOn]. *)
Lemma refresh_fan_mirrors_nothing :
  let st := snd (refresh (Demo.always Demo.fan_on) (mkSt Demo.fan [])) in
  get Demo.fan "isOn" = JBool false /\
  get (self st) "isOn" = JBool true /\
  mirror_calls (trace st) = [] /\
  Demo.pushed (trace st) = [].
Proof. vm_compute. repeat split; reflexivity. Qed.

(** The listing with the stray comma after the bracket parses like the
    listing without it. *)
Lemma jsonFixer_strips_comma_after_bracket_witness :
  indexOf "[" "," = -1 /\
  JSON_parse (jsonFixer (json_text "[,{'id':1},{'id':2}]"))
  = JSON_parse (json_text "[{'id':1},{'id':2}]").
Proof.
  split; [reflexivity|].
  apply (jsonFixer_strips_comma_after_bracket
           "[" (json_text "{'id':1},{'id':2}]") eq_refl).
  simpl. lia.
Defined.

(** C2 as stated fails on the spec's own example: a body that begins with
    the comma is not repaired (the guard asks for an index above 0, and no
    bracket is put back), so it does not parse, while the well-formed
    listing does. *)
Lemma jsonFixer_leading_comma_not_repaired :
  let stray := json_text ",{'id':1},{'id':2}]" in
  let well_formed := json_text "[{'id':1},{'id':2}]" in
  jsonFixer stray = stray /\
  JSON_parse (jsonFixer stray) = None /\
  JSON_parse (jsonFixer well_formed)
  = Some (JArr [JObj [("id", JNum 1)]; JObj [("id", JNum 2)]]).
Proof. vm_compute. repeat split; reflexivity. Qed.

(** Half speed on the sample fan: index 2 is written, and 200/3 is read
    back. *)
Lemma rotation_speed_round_trip_witness :
  let remote := Demo.always Demo.fan_medium in
  let st := snd (setRotationSpeed remote (JNum 50) (mkSt Demo.fan [])) in
  map qs (writes (trace st)) = [Some [("speedIndex", JNum 2)]] /\
  fst (getRotationSpeed remote st) = Normal (Success (JNum (200 # 3))).
Proof.
  intros remote st.
  assert (Hp : (0 <= 50 <= 100)%Q) by (split; discriminate).
  destruct (rotation_speed_round_trip remote Demo.fan [] 50 eq_refl Hp)
    as (_ & Hw & _).
  split.
  - unfold st. rewrite Hw. reflexivity.
  - vm_compute. reflexivity.
Defined.

(** 22 degrees Celsius is 71.6 = 358/5 degrees Fahrenheit, and comes back
    within 0.1 of 22. *)
Lemma temperature_round_trip_witness :
  celsiusToIndigoTemp (Demo.device Thermostat "Hall" []) (JNum 22)
  = JNum (358 # 5) /\
  exists c,
    indigoTempToCelsius (Demo.device Thermostat "Hall" []) (JNum (358 # 5))
    = JNum c /\ (Qabs (c - 22) <= 1 # 10)%Q.
Proof.
  destruct (temperature_round_trip (Demo.device Thermostat "Hall" []) 22)
    as [Hf _].
  destruct (Hf eq_refl) as (f & c & Hcf & Hfc & Hclose).
  vm_compute in Hcf. injection Hcf as <-.
  split; [vm_compute; reflexivity|].
  exists c. split; [|exact Hclose].
  rewrite <- Hfc. vm_compute. reflexivity.
Defined.


(** C6 as stated fails when more than 99 devices are discovered against
    the order of their names.  Of the 150 devices of the sample house the
    code returns the 99 discovered first (dev901 to dev999), sorted; the
    first 99 of the sorted full list would be dev850 to dev948. *)
Lemma accessories_truncates_before_sorting :
  let remote := Demo.house 150 in
  let st := mkSt (Demo.fresh Demo.settings) [] in
  let found := foundAccessories (self (snd (discovery remote st))) in
  let returned := match fst (accessories remote st) with
                  | Normal l => map name l
                  | Throw _ => []
                  end in
  length found = 150%nat /\
  returned = map Demo.device_name (rev (seq 0 99)) /\
  map name (take 99 (Array_sort compareNames found))
  = map Demo.device_name (rev (seq 51 99)) /\
  returned <> map name (take 99 (Array_sort compareNames found)).
Proof.
  vm_compute. repeat split; try reflexivity. discriminate.
Qed.

(** Device 3 of the sample house passes the filter (there are no lists)
    and supports on/off: discovery keeps it, as a light called dev996. *)
Lemma discovery_keeps_included_and_supported_witness :
  let p := Demo.fresh Demo.settings in
  let item := JObj [("restURL", JStr "/devices/3.json")] in
  let after := self (snd (addAccessory (Demo.house 12) item (mkSt p []))) in
  includeItemId (config p) (JNum 3) = true /\
  map name (foundAccessories after) = ["dev996"] /\
  config after = config p.
Proof.
  intros p item after.
  pose proof (discovery_keeps_included_and_supported (Demo.house 12) p [] item
                (JObj [("name", JStr "dev996"); ("id", JNum 3);
                       ("typeSupportsOnOff", JBool true)])
                eq_refl) as Hall.
  cbv zeta in Hall.
  destruct Hall as (Hiff & Hcfg & Hkept & _);
    [vm_compute; reflexivity | reflexivity |].
  split; [apply Hiff; split; exact Logic.I|].
  split; [|exact Hcfg].
  match type of Hkept with
  | match ?k with _ => _ end =>
      let v := eval vm_compute in k in change k with v in Hkept
  end.
  cbv beta iota in Hkept. destruct Hkept as [Hfound _].
  unfold after. rewrite Hfound. reflexivity.
Defined.

(** C7 as stated fails on a device that no class supports.  The one device
    of the sample server passes the filter (there is no include and no
    exclude list), yet discovery does not keep it: it declares no
    capability, [createAccessoryFromJSON] returns [null], and the device is
    logged as an unknown type. *)
Lemma discovery_drops_unsupported_device :
  let p := Demo.fresh Demo.settings in
  let res := accessories Demo.sensor_house (mkSt p []) in
  includeIds (config p) = None /\ excludeIds (config p) = None /\
  includeItemId (config p) (JNum 13) = true /\
  fst res = Normal [] /\
  accessoryMap (self (snd res)) = ∅ /\
  In (Log "Discovered %s (ID %s): %s" [JStr "Sensor"; JNum 13; JStr "Sensor"])
     (trace (snd res)) /\
  In (Log "Ignoring unknown accessory type %s" [JStr "Sensor"])
     (trace (snd res)).
Proof. vm_compute. repeat split; auto 10. Qed.

(** The three answers of the listener on the sample platform: unknown
    identifier, unreachable server (the lamp is left as it was), and a
    successful refresh. *)
Example updateAccessory_answers :
  statuses (trace (snd (updateAccessory (Demo.always Demo.lamp_on) "99"
                          (mkSt Demo.home [])))) = [404] /\
  (let st := snd (updateAccessory Demo.unreachable "7" (mkSt Demo.home [])) in
   statuses (trace st) = [500] /\
   accessoryMap (self st) !! "7" = Some Demo.lamp) /\
  (let st := snd (updateAccessory (Demo.always Demo.lamp_on) "7"
                    (mkSt Demo.home [])) in
   statuses (trace st) = [200] /\
   match accessoryMap (self st) !! "7" with
   | Some a => get a "isOn" = JBool true
   | None => False
   end).
Proof. vm_compute. repeat split; reflexivity. Qed.

(** A status with a field called [hasOwnProperty] cannot be read: the
    refresh of the lamp throws before any property is copied, a get throws
    as well, and the listener sends no answer. *)
Example status_hiding_hasOwnProperty :
  let remote := Demo.always "{'name':'Lamp','hasOwnProperty':1,'isOn':true}" in
  let res := refresh remote (mkSt Demo.lamp []) in
  fst res = Throw "TypeError" /\ self (snd res) = Demo.lamp /\
  pushes (trace (snd res)) = [] /\
  fst (getOnState remote (mkSt Demo.lamp [])) = Throw "TypeError" /\
  statuses (trace (snd (updateAccessory remote "7" (mkSt Demo.home [])))) = [].
Proof. vm_compute. repeat split; reflexivity. Qed.

(** A status that gives a number under the name [update_isOn] hides the
    mirror function of the lamp: when [isOn] changes the number is called,
    which throws after the log line.  With [null] under that name the
    property hides the function as well, and nothing is called. *)
Example status_hiding_update_isOn :
  let hidden value :=
    Demo.always ("{'name':'Lamp','id':7,'typeSupportsOnOff':true,"
                 +:+ "'update_isOn':" +:+ value +:+ ",'isOn':true}") in
  let res := refresh (hidden "1") (mkSt Demo.lamp []) in
  let quiet := refresh (hidden "null") (mkSt Demo.lamp []) in
  fst res = Throw "TypeError" /\
  get (self (snd res)) "update_isOn" = JNum 1 /\
  get (self (snd res)) "isOn" = JBool true /\
  mirror_calls (trace (snd res)) = ["update_isOn"] /\
  pushes (trace (snd res)) = [] /\
  fst quiet = Normal None /\
  props (self (snd quiet)) !! "update_isOn" = Some JNull /\
  get (self (snd quiet)) "isOn" = JBool true /\
  mirror_calls (trace (snd quiet)) = [] /\
  pushes (trace (snd quiet)) = [].
Proof. vm_compute. repeat split; reflexivity. Qed.

(** C9 fails on the code.  Discovery turns a dimmer that declares dimming
    but not on/off support into a light, whose On characteristic is read
    by [getOnState].  On that accessory [getOnState] never invokes its
    callback, while its sibling [setOnState] reports the error
    "Accessory does not support on/off". *)
Theorem getOnState_unsupported_never_replies :
  let remote := Demo.always Demo.dimmer_json in
  exists json a,
    JSON_parse (json_text Demo.dimmer_json) = Some json /\
    createAccessoryFromJSON Demo.settings "/devices/dimmer.json" json
    = Normal (Some a) /\
    variant a = Light /\
    getOnState remote (mkSt a []) = (Normal NoReply, mkSt a []) /\
    fst (setOnState remote (JBool true) JUndefined (mkSt a []))
    = Normal (Failure "Accessory does not support on/off").
Proof.
  intros remote. eexists; eexists.
  split; [vm_compute; reflexivity|].
  split; [vm_compute; reflexivity|].
  split; [reflexivity|].
  split; [|vm_compute; reflexivity].
  apply getOnState_unsupported. vm_compute. reflexivity.
Qed.

(** The configured path "indigo/" becomes the prefix "/indigo". *)
Lemma IndigoPlatform_path_normal_form_witness :
  exists inst evs,
    IndigoPlatform Demo.config_json (mkSt tt []) = (Normal inst, mkSt tt evs) /\
    path (config (platform_of inst)) = "/indigo".
Proof.
  destruct (IndigoPlatform_path_normal_form Demo.config_json "indigo/" []
              eq_refl) as (inst & evs & Hrun & _).
  exists inst, evs. split; [exact Hrun|].
  vm_compute in Hrun. injection Hrun as <- _. reflexivity.
Defined.

(** The sample configuration: the base URL gets the default protocol and
    port, the credentials are kept, and with the server down the one
    request of discovery is the device listing under the path prefix. *)
Lemma discovery_only_reads_configured_server_witness :
  exists inst st,
    IndigoPlatform Demo.config_json (mkSt tt []) = (Normal inst, st) /\
    baseURL (config (platform_of inst)) = "http://127.0.0.1:8176" /\
    platform_auth (config (platform_of inst))
    = Some {| user := "me"; pass := "secret"; sendImmediately := false |} /\
    map url (requests (trace (snd (accessories Demo.unreachable
                                     (mkSt (platform_of inst) [])))))
    = ["http://127.0.0.1:8176/indigo/devices.json/"].
Proof.
  destruct (IndigoPlatform Demo.config_json (mkSt tt []))
    as [[inst|e] st] eqn:Hrun; [|vm_compute in Hrun; discriminate Hrun].
  exists inst, st. split; [reflexivity|].
  destruct (discovery_only_reads_configured_server Demo.unreachable
              Demo.config_json [] inst st Hrun) as (Hbase & _ & _).
  split; [rewrite Hbase; vm_compute; reflexivity|].
  vm_compute in Hrun. injection Hrun as <- _.
  split; vm_compute; reflexivity.
Defined.

(** With the server down, discovery on a new platform returns no accessory
    after one request. *)
Lemma accessories_listing_failure_witness :
  let res := accessories Demo.unreachable
               (mkSt (Demo.fresh Demo.settings) []) in
  fst res = Normal [] /\
  map url (requests (trace (snd res)))
  = ["http://127.0.0.1:8176/devices.json/"].
Proof.
  intros res.
  destruct (accessories_listing_failure Demo.unreachable
              (Demo.fresh Demo.settings) []
              "Error for Indigo request /devices.json/: Error: connect ECONNREFUSED"
              eq_refl) as (Hl & Hr & _ & _).
  split; [exact Hl|]. unfold res. rewrite Hr. reflexivity.
Defined.


(** After discovery of the twelve devices of the sample house, the
    accessory stored under "3" is among the twelve that are returned. *)
Lemma published_accessories_cover_map_witness :
  let res := accessories (Demo.house 12)
               (mkSt (Demo.fresh Demo.settings) []) in
  exists l a,
    fst res = Normal l /\ length l = 12%nat /\
    accessoryMap (self (snd res)) !! "3" = Some a /\ In a l.
Proof.
  intros res.
  assert (Hl : exists l, fst res = Normal l /\ length l = 12%nat)
    by (vm_compute; eexists; split; reflexivity).
  destruct Hl as (l & Hl & Hlen).
  assert (Ha : exists a, accessoryMap (self (snd res)) !! "3" = Some a)
    by (vm_compute; eexists; reflexivity).
  destruct Ha as (a & Ha).
  exists l, a. split; [exact Hl|]. split; [exact Hlen|]. split; [exact Ha|].
  assert (Hinv : map_in_list (self (mkSt (Demo.fresh Demo.settings) []))).
  { intros id x Hx. simpl in Hx. rewrite lookup_empty in Hx. discriminate Hx. }
  assert (Hlt : (length l < 99)%nat) by (rewrite Hlen; lia).
  exact (published_accessories_cover_map (Demo.house 12)
           (mkSt (Demo.fresh Demo.settings) []) l Hinv Hl Hlt "3" a Ha).
Defined.


(** A door that is not dimmable is reported open: both positions go to
    100. *)
Lemma position_mirror_witness :
  pushes (trace (snd (refresh_updateCallback (Demo.always Demo.door_open)
                        "isOn" (JBool true) (mkSt Demo.door []))))
  = [(CurrentPosition, JNum 100, REFRESH_CONTEXT);
     (TargetPosition, JNum 100, REFRESH_CONTEXT)].
Proof.
  destruct (position_mirror (Demo.always Demo.door_open) Demo.door []
              (JBool true) eq_refl) as (_ & _ & _ & _ & _ & Hon).
  rewrite Hon. reflexivity.
Defined.

(** With the server down, reading the lamp's state hands the error to the
    callback and leaves the lamp as it was. *)
Lemma getters_pass_fetch_error_witness :
  let msg := "Error for Indigo request /devices/Lamp.json: "
             +:+ "Error: connect ECONNREFUSED" in
  let res := getOnState Demo.unreachable (mkSt Demo.lamp []) in
  fst res = Normal (Failure msg) /\ self (snd res) = Demo.lamp.
Proof.
  intros msg res.
  pose proof (getters_pass_fetch_error Demo.unreachable Demo.lamp [] msg
                eq_refl) as Hall.
  apply List.Forall_inv in Hall. cbn [fst snd] in Hall.
  specialize (Hall eq_refl). unfold res. rewrite Hall. split; reflexivity.
Defined.

(** The sensor has no capability: switching it on is refused, and no
    request is made. *)
Lemma unsupported_set_is_refused_witness :
  let res := setOnState (Demo.always Demo.lamp_on) (JBool true) JUndefined
               (mkSt Demo.sensor []) in
  fst res = Normal (Failure "Accessory does not support on/off") /\
  requests (trace (snd res)) = [].
Proof.
  intros res.
  destruct (unsupported_set_is_refused (Demo.always Demo.lamp_on) Demo.sensor
              [] (JBool true) JUndefined eq_refl) as (Hon & _).
  destruct (Hon eq_refl) as (Hset & _).
  unfold res. rewrite Hset. split; reflexivity.
Defined.

(** Switching the lamp on writes [isOn = 1] and arms no timer. *)
Lemma on_state_set_and_get_witness :
  let st := snd (setOnState (Demo.always Demo.lamp_on) (JBool true) JUndefined
                   (mkSt Demo.lamp [])) in
  map qs (writes (trace st)) = [Some [("isOn", JNum 1)]] /\
  timers (trace st) = [].
Proof.
  intros st.
  destruct (on_state_set_and_get (Demo.always Demo.lamp_on) Demo.lamp []
              (JBool true) JUndefined eq_refl eq_refl) as (Hset & _).
  assert (Hrun : setOnState (Demo.always Demo.lamp_on) (JBool true) JUndefined
                   (mkSt Demo.lamp []) = (Normal (Success tt), st))
    by (vm_compute; reflexivity).
  destruct (Hset _ _ Hrun) as (Hw & Ht).
  rewrite Hw, Ht. split; reflexivity.
Defined.

(** Locking the lock while the server is down: the write fails, and the
    timer that reports the lock as secured is armed all the same. *)
Lemma lock_and_door_set_arm_timer_witness :
  let res := setLockTargetState Demo.unreachable HAP.LockTargetState.SECURED
               JUndefined (mkSt Demo.lock []) in
  fst res = Normal (Failure "Error: connect ECONNREFUSED") /\
  timers (trace (snd res))
  = [(1000, LockCurrentState, HAP.LockCurrentState.SECURED, REFRESH_CONTEXT)].
Proof.
  intros res.
  destruct (lock_and_door_set_arm_timer Demo.unreachable Demo.lock []
              HAP.LockTargetState.SECURED JUndefined eq_refl eq_refl)
    as (Hlock & _).
  assert (Hrun : setLockTargetState Demo.unreachable
                   HAP.LockTargetState.SECURED JUndefined (mkSt Demo.lock [])
                 = (Normal (Failure "Error: connect ECONNREFUSED"), snd res))
    by (vm_compute; reflexivity).
  destruct (Hlock _ _ Hrun) as (_ & Ht).
  split; [vm_compute; reflexivity|]. rewrite Ht. reflexivity.
Defined.

(** Opening the door half way: [isOn = 1] is written, and the timer pushes
    50 as the current position. *)
Lemma position_set_and_get_witness :
  let st := snd (setTargetPosition (Demo.always Demo.door_open) (JNum 50)
                   JUndefined (mkSt Demo.door [])) in
  map qs (writes (trace st)) = [Some [("isOn", JNum 1)]] /\
  timers (trace st) = [(1000, CurrentPosition, JNum 50, REFRESH_CONTEXT)].
Proof.
  intros st.
  destruct (position_set_and_get (Demo.always Demo.door_open) Demo.door []
              (JNum 50) JUndefined eq_refl eq_refl) as (Hset & _).
  assert (Hrun : setTargetPosition (Demo.always Demo.door_open) (JNum 50)
                   JUndefined (mkSt Demo.door [])
                 = (Normal (Success tt), st))
    by (vm_compute; reflexivity).
  destruct (Hset _ _ Hrun) as (Hw & Ht).
  rewrite Hw, Ht. split; reflexivity.
Defined.

(** The thermostat reports the setpoints 66.6 and 76.6 that were written
    for 22 degrees Celsius: 22 is read back. *)
Lemma target_temperature_auto_round_trip_witness :
  fst (getTargetTemperature (Demo.always Demo.hall_set) (mkSt Demo.hall []))
  = Normal (Success (JNum 22)).
Proof.
  assert (Hfetch : getStatus (Demo.always Demo.hall_set) None
                     (mkSt Demo.hall [])
                   = (Normal None,
                      snd (getStatus (Demo.always Demo.hall_set) None
                             (mkSt Demo.hall []))))
    by (vm_compute; reflexivity).
  destruct (target_temperature_auto_round_trip (Demo.always Demo.hall_set)
              Demo.hall [] 22 _ Hfetch) as (c & Hc & _).
  - vm_compute. reflexivity.
  - vm_compute. reflexivity.
  - vm_compute. reflexivity.
  - rewrite Hc. vm_compute in Hc. injection Hc as <-. reflexivity.
Defined.

(** The thermostat reports auto mode, the flag written for mode 3: 3 is
    read back. *)
Lemma heating_cooling_mode_round_trip_witness :
  fst (getTargetHeatingCooling (Demo.always Demo.hall_auto)
         (mkSt Demo.hall []))
  = Normal (Success HAP.TargetHeatingCoolingState.AUTO).
Proof.
  assert (Hfetch : getStatus (Demo.always Demo.hall_auto) None
                     (mkSt Demo.hall [])
                   = (Normal None,
                      snd (getStatus (Demo.always Demo.hall_auto) None
                             (mkSt Demo.hall []))))
    by (vm_compute; reflexivity).
  destruct (heating_cooling_mode_round_trip (Demo.always Demo.hall_auto)
              Demo.hall [] _ 3 "hvacOperationModeIsAuto" Hfetch eq_refl)
    as (m & Hm & _).
  - repeat constructor.
  - rewrite Hm. vm_compute in Hm. injection Hm as <-. reflexivity.
Defined.

(** Dimming the light to 70 percent writes [brightness = 70]; the status
    then reports 70, and 70 is read. *)
Lemma brightness_set_and_get_witness :
  let remote := Demo.always Demo.dimmer_70 in
  let st := snd (setBrightness remote (JNum 70) JUndefined
                   (mkSt Demo.dimmer [])) in
  map qs (writes (trace st)) = [Some [("brightness", JNum 70)]] /\
  timers (trace st) = [] /\
  fst (getBrightness remote (mkSt Demo.dimmer []))
  = Normal (Success (JNum 70)).
Proof.
  intros remote st.
  assert (Hq : (0 <= 70 <= 100)%Q) by (split; discriminate).
  destruct (brightness_set_and_get remote Demo.dimmer [] 70 JUndefined
              eq_refl eq_refl Hq) as (Hset & Hget).
  assert (Hrun : setBrightness remote (JNum 70) JUndefined
                   (mkSt Demo.dimmer []) = (Normal (Success tt), st))
    by (vm_compute; reflexivity).
  destruct (Hset _ _ Hrun) as (Hw & Ht).
  rewrite Hw, Ht. split; [reflexivity|]. split; [reflexivity|].
  assert (Hfetch : getStatus remote None (mkSt Demo.dimmer [])
                   = (Normal None,
                      snd (getStatus remote None (mkSt Demo.dimmer []))))
    by (vm_compute; reflexivity).
  rewrite (Hget _ Hfetch). vm_compute. reflexivity.
Defined.

Module DoublesExamples.
Import PrimFloat.
Local Open Scope float_scope.

(** On doubles the numbers of the temperature examples come out the same:
    22 degrees Celsius is written as 71.6 and read back as 22, the two
    setpoints around it are 76.6 and 66.6, and from -40.0 to 100.0 degrees
    Celsius in steps of 0.1 the round trip stays within 0.1. *)
Example doubles_temperature :
  PrimFloat.eqb (Doubles.celsiusToIndigoTemp 22) 71.6 = true /\
  PrimFloat.eqb (Doubles.indigoTempToCelsius 71.6) 22 = true /\
  PrimFloat.eqb (PrimFloat.add (Doubles.celsiusToIndigoTemp 22) 5) 76.6 = true /\
  PrimFloat.eqb (PrimFloat.sub (Doubles.celsiusToIndigoTemp 22) 5) 66.6 = true /\
  forallb
    (fun t => Doubles.within 0.1
                (Doubles.indigoTempToCelsius (Doubles.celsiusToIndigoTemp t)) t)
    (Doubles.tenths (-400) 1401) = true.
Proof. vm_compute. repeat split; reflexivity. Qed.

(** On doubles the four speed values are 0, 33.33, 66.67 and 100 to two
    decimals, and from 0.0 to 100.0 percent in steps of 0.1 the value read
    back after a write is one of them. *)
Example doubles_rotation_speed :
  PrimFloat.eqb (Doubles.rotationSpeed_of 0) 0 = true /\
  Doubles.within 0.01 (Doubles.rotationSpeed_of 1) 33.33 = true /\
  Doubles.within 0.01 (Doubles.rotationSpeed_of 2) 66.67 = true /\
  PrimFloat.eqb (Doubles.rotationSpeed_of 3) 100 = true /\
  forallb
    (fun p =>
       existsb
         (fun k => PrimFloat.eqb
                     (Doubles.rotationSpeed_of (Doubles.speedIndex_of p))
                     (Doubles.rotationSpeed_of k))
         (map Doubles.of_nat (seq 0 4)))
    (Doubles.tenths 0 1001) = true.
Proof. vm_compute. repeat split; reflexivity. Qed.

End DoublesExamples.
